(** * Retrieval core of the airag backend (src/backend/airag)

    Shallow embedding of the chunker, the hybrid retriever, the reranker,
    the summarizer fallback and the citation reconciler of the chat
    endpoint.  Python strings are lists of Unicode code points, Python
    dicts used as metadata are stdpp [gmap]s, insertion-ordered dicts whose
    order matters are association lists, and retrieval scores (Python
    floats) are rationals [Q]. *)

From Stdlib Require Import ZArith QArith Qround String Ascii List Bool Lia
  Sorting.Sorted Sorting.Permutation.
From Stdlib Require Import Lqa.
From Stdlib Require DecimalN.
From stdpp Require Import base gmap strings.

Import ListNotations.
Open Scope Z_scope.

(* ------------------------------------------------------------------ *)
(** ** Python strings *)

Module PyStr.

(** A Python [str] is a sequence of code points. *)
Definition char := N.
Definition pstr := list char.

Definition of_string (s : string) : pstr :=
  List.map (fun a => N.of_nat (nat_of_ascii a)) (list_ascii_of_string s).

Definition lbr : char := 91%N.   (* '[' *)
Definition rbr : char := 93%N.   (* ']' *)

(** The code points of the digit zero of the Unicode decimal digits
    (category Nd) of Python 3.11's [unicodedata] (Unicode 14.0).  Every
    such digit run is ten consecutive code points valued 0 to 9. *)
Definition nd_zeros : list N :=
  [48; 1632; 1776; 1984; 2406; 2534; 2662; 2790; 2918; 3046; 3174; 3302;
   3430; 3558; 3664; 3792; 3872; 4160; 4240; 6112; 6160; 6470; 6608; 6784;
   6800; 6992; 7088; 7232; 7248; 42528; 43216; 43264; 43472; 43504; 43600;
   44016; 65296; 66720; 68912; 69734; 69872; 69942; 70096; 70384; 70736;
   70864; 71248; 71360; 71472; 71904; 72016; 72784; 73040; 73120; 92768;
   92864; 93008; 120782; 120792; 120802; 120812; 120822; 123200; 123632;
   125264; 130032]%N.

(** [unicodedata.decimal(c, None)] *)
Definition decimal_value (c : char) : option N :=
  match List.find (fun z => (z <=? c)%N && (c <? z + 10)%N) nd_zeros with
  | Some z => Some (c - z)%N
  | None => None
  end.

(** [\d] of Python's [re] on a [str] pattern: a Unicode decimal digit. *)
Definition is_digit (c : char) : bool :=
  match decimal_value c with Some _ => true | None => false end.

Definition digit_of (c : char) : N :=
  match decimal_value c with Some v => v | None => 0%N end.

(** The value of a non-empty run of decimal digits, as [int(s)] reads it
    (each digit may be of any script). *)
Definition int_of_digits (ds : pstr) : Z :=
  List.fold_left (fun acc d => acc * 10 + Z.of_N (digit_of d)) ds 0.

(** [sys.get_int_max_str_digits()]: the default limit of Python 3.11. *)
Definition int_max_str_digits : nat := 4300.

(** [int(s)] on a run of decimal digits: a string of more than
    [int_max_str_digits] digits raises [ValueError] ([None]). *)
Definition py_int (ds : pstr) : option Z :=
  if (length ds <=? int_max_str_digits)%nat then Some (int_of_digits ds) else None.

Fixpoint uint_digits (d : Decimal.uint) : pstr :=
  match d with
  | Decimal.Nil => []
  | Decimal.D0 d => 48%N :: uint_digits d
  | Decimal.D1 d => 49%N :: uint_digits d
  | Decimal.D2 d => 50%N :: uint_digits d
  | Decimal.D3 d => 51%N :: uint_digits d
  | Decimal.D4 d => 52%N :: uint_digits d
  | Decimal.D5 d => 53%N :: uint_digits d
  | Decimal.D6 d => 54%N :: uint_digits d
  | Decimal.D7 d => 55%N :: uint_digits d
  | Decimal.D8 d => 56%N :: uint_digits d
  | Decimal.D9 d => 57%N :: uint_digits d
  end.

(** [str(n)] for a non-negative Python int. *)
Definition str_of_Z (n : Z) : pstr := uint_digits (N.to_uint (Z.to_N n)).

(** Last character is one of [is_end]. *)
Definition ends_with (is_end : char -> bool) (s : pstr) : bool :=
  match rev s with c :: _ => is_end c | [] => false end.

(** [s[:n]] *)
Definition prefix (n : nat) (s : pstr) : pstr := firstn n s.

End PyStr.

Import PyStr.

(* ------------------------------------------------------------------ *)
(** ** Generic stable sort (Python's [sorted] / [list.sort]) *)

Module StableSort.

Section Sort.
Context {A : Type}.
(** [before y x] : an element [y] already placed stays in front of a new
    element [x].  For [sorted(key=k)] this is [k y <= k x]; for
    [sorted(key=k, reverse=True)] it is [k x <= k y].  Python's sort is
    stable, so any stable sort computes the same list. *)
Variable before : A -> A -> bool.

Fixpoint insert_by (x : A) (l : list A) : list A :=
  match l with
  | [] => [x]
  | y :: l' => if before y x then y :: insert_by x l' else x :: l
  end.

Definition sort_by (l : list A) : list A :=
  List.fold_left (fun acc x => insert_by x acc) l [].

End Sort.

End StableSort.

Import StableSort.

Definition sort_Z (l : list Z) : list Z := sort_by (fun y x => y <=? x) l.

(* ------------------------------------------------------------------ *)
(** ** Citation reconciler ([_filter_used_sources], api/chat.py) *)

Module Citation.

(** Tokens of [re.findall] / [re.sub] with the pattern [\[(\d+)\]]:
    a literal character, or a marker carrying its digit group. *)
Inductive tok := TChr (c : char) | TMark (ds : pstr).

(** Left-to-right matcher of [\[(\d+)\]].  [st = Some ds] : a '[' was
    read followed by the digits [rev ds].  When the match fails the
    scanner resumes on the character after '[' like [re] does; since the
    digits cannot start a match, only the failing character is re-read. *)
Fixpoint scan (st : option pstr) (s : pstr) : list tok :=
  match s with
  | [] =>
      match st with
      | None => []
      | Some ds => TChr lbr :: List.map TChr (rev ds)
      end
  | c :: s' =>
      match st with
      | None =>
          if (c =? lbr)%N then scan (Some []) s' else TChr c :: scan None s'
      | Some ds =>
          if is_digit c then scan (Some (c :: ds)) s'
          else if (c =? rbr)%N && negb (match ds with [] => true | _ => false end)
          then TMark (rev ds) :: scan None s'
          else TChr lbr :: List.map TChr (rev ds) ++
               (if (c =? lbr)%N then scan (Some []) s' else TChr c :: scan None s')
      end
  end.

Definition tokenize (s : pstr) : list tok := scan None s.

Definition tok_text (t : tok) : pstr :=
  match t with
  | TChr c => [c]
  | TMark ds => lbr :: ds ++ [rbr]
  end.

Definition untokenize (ts : list tok) : pstr := List.concat (List.map tok_text ts).

(** [re.findall(pattern, answer)] *)
Definition findall (s : pstr) : list pstr :=
  List.flat_map (fun t => match t with TMark ds => [ds] | TChr _ => [] end)
    (tokenize s).

(** The loop collecting [cited_indices] (0-based), with [seen]; a
    [ValueError] of [int(match)] is caught and the match skipped. *)
Fixpoint collect_cited (len : Z) (seen : list Z) (ms : list pstr) : list Z :=
  match ms with
  | [] => []
  | m :: ms' =>
      match py_int m with
      | None => collect_cited len seen ms'
      | Some v =>
          let idx := v - 1 in
          if (0 <=? idx) && (idx <? len) && negb (existsb (Z.eqb idx) seen)
          then idx :: collect_cited len (idx :: seen) ms'
          else collect_cited len seen ms'
      end
  end.

(** [for new_idx, old_idx in enumerate(sorted(cited)):
       old_to_new[old_idx + 1] = new_idx + 1] *)
Fixpoint build_map (next : Z) (sorted : list Z) : list (Z * Z) :=
  match sorted with
  | [] => []
  | o :: os => (o + 1, next) :: build_map (next + 1) os
  end.

Fixpoint lookup_map (k : Z) (m : list (Z * Z)) : option Z :=
  match m with
  | [] => None
  | (k', v) :: m' => if Z.eqb k k' then Some v else lookup_map k m'
  end.

(** [replace_citation]: its [int(match.group(1))] is not guarded, so a
    [ValueError] escapes ([None]). *)
Definition replace_citation (old_to_new : list (Z * Z)) (t : tok) : option tok :=
  match t with
  | TChr c => Some (TChr c)
  | TMark ds =>
      match py_int ds with
      | None => None
      | Some v =>
          match lookup_map v old_to_new with
          | Some n => Some (TMark (str_of_Z n))
          | None => Some (TMark ds)
          end
      end
  end.

(** [re.sub] with a replacement function, over the tokens left to right:
    the first exception of the function propagates. *)
Fixpoint sub_all (f : tok -> option tok) (ts : list tok) : option (list tok) :=
  match ts with
  | [] => Some []
  | t :: ts' =>
      match f t with
      | None => None
      | Some t' =>
          match sub_all f ts' with
          | None => None
          | Some r => Some (t' :: r)
          end
      end
  end.

Section Filter.
Context {Source : Type}.

(** [sources[idx]] for [idx] known to be in range. *)
Definition pick (sources : list Source) (idx : Z) : list Source :=
  match nth_error sources (Z.to_nat idx) with Some s => [s] | None => [] end.

(** [_filter_used_sources]; [None] when it raises [ValueError]. *)
Definition filter_used_sources (answer : pstr) (sources : list Source)
    : option (pstr * list Source) :=
  match sources with
  | [] => Some (answer, [])
  | _ =>
      match findall answer with
      | [] => Some (answer, [])
      | matches =>
          match collect_cited (Z.of_nat (length sources)) [] matches with
          | [] => Some (answer, [])
          | cited =>
              let sorted := sort_Z cited in
              let old_to_new := build_map 1 sorted in
              match sub_all (replace_citation old_to_new) (tokenize answer) with
              | None => None
              | Some ts => Some (untokenize ts, List.flat_map (pick sources) sorted)
              end
          end
      end
  end.










End Filter.

End Citation.

(* ------------------------------------------------------------------ *)
(** ** Python values stored in metadata dicts *)

Module PyVal.

Inductive mval :=
| MStr (s : pstr)
| MInt (z : Z)
| MNone
| MInts (l : list Z)
| MStrs (l : list pstr).

(** [str(z)] for any Python int. *)
Definition str_of_int (z : Z) : pstr :=
  if z <? 0 then 45%N :: str_of_Z (- z) else str_of_Z z.

Definition join (sep : pstr) (l : list pstr) : pstr :=
  match l with
  | [] => []
  | x :: xs => x ++ List.concat (List.map (fun y => sep ++ y) xs)
  end.

(** [str(v)] / f-string rendering; string elements of a list are shown
    between single quotes (the escapes of [repr] are not modelled). *)
Definition py_str (v : mval) : pstr :=
  match v with
  | MStr s => s
  | MInt z => str_of_int z
  | MNone => of_string "None"
  | MInts l => [91%N] ++ join (of_string ", ") (List.map str_of_int l) ++ [93%N]
  | MStrs l => [91%N] ++ join (of_string ", ")
                 (List.map (fun s => [39%N] ++ s ++ [39%N]) l) ++ [93%N]
  end.

(** A metadata dict.  Python dict equality ignores insertion order, as
    equality of [gmap]s does. *)
Abbreviation meta := (gmap string mval).

(** [md.get(k, default)] for a string value. *)
Definition get_str (md : meta) (k : string) (default : pstr) : pstr :=
  match md !! k with Some (MStr s) => s | Some v => py_str v | None => default end.

End PyVal.

Import PyVal.

(* ------------------------------------------------------------------ *)
(** ** Hierarchical chunker (chunker.py) *)

Module Chunker.

(** [str.isspace] / [\s]: the Unicode white-space code points. *)
Definition is_space (c : char) : bool :=
  ((9 <=? c) && (c <=? 13))%N || ((28 <=? c) && (c <=? 32))%N ||
  (c =? 133)%N || (c =? 160)%N || (c =? 5760)%N ||
  ((8192 <=? c) && (c <=? 8202))%N || (c =? 8232)%N || (c =? 8233)%N ||
  (c =? 8239)%N || (c =? 8287)%N || (c =? 12288)%N.

Fixpoint lstrip (s : pstr) : pstr :=
  match s with
  | c :: s' => if is_space c then lstrip s' else s
  | [] => []
  end.

(** [s.strip()] *)
Definition strip (s : pstr) : pstr := rev (lstrip (rev (lstrip s))).

(** Truthiness of [s.strip()]. *)
Definition nonblank (s : pstr) : bool :=
  match strip s with [] => false | _ => true end.

Definition zlen (s : pstr) : Z := Z.of_nat (length s).

Definition nl : char := 10%N.
Definition cr : char := 13%N.

(** [s.replace('\r\n', '\n')] *)
Fixpoint replace_crlf (s : pstr) : pstr :=
  match s with
  | c :: ((d :: rest) as s') =>
      if (c =? cr)%N && (d =? nl)%N then nl :: replace_crlf rest
      else c :: replace_crlf s'
  | _ => s
  end.

(** [s.replace('\r', '\n')] *)
Definition replace_cr (s : pstr) : pstr :=
  List.map (fun c => if (c =? cr)%N then nl else c) s.

Fixpoint split_aux (sep : char) (cur : pstr) (s : pstr) : list pstr :=
  match s with
  | [] => [rev cur]
  | c :: s' => if (c =? sep)%N then rev cur :: split_aux sep [] s'
               else split_aux sep (c :: cur) s'
  end.

(** [s.split(sep)] for a one-character separator. *)
Definition split_on (sep : char) (s : pstr) : list pstr := split_aux sep [] s.

Fixpoint count_hashes (s : pstr) : nat :=
  match s with
  | c :: s' => if (c =? 35)%N then S (count_hashes s') else O
  | [] => O
  end.

(** [re.match(r'^(#{1,6})\s+(.+)$', stripped)] on a stripped line, with
    [len(group(1))]: the line is already stripped, so a white-space
    character after the hashes is always followed by a non-space one. *)
Definition heading_level (stripped : pstr) : option Z :=
  let k := count_hashes stripped in
  if (1 <=? k)%nat && (k <=? 6)%nat then
    match nth_error stripped k with
    | Some c => if is_space c then Some (Z.of_nat k) else None
    | None => None
    end
  else None.

Fixpoint digits_then_dot_space (s : pstr) (seen_digit : bool) : bool :=
  match s with
  | c :: s' =>
      if is_digit c then digits_then_dot_space s' true
      else if (c =? 46)%N && seen_digit then
        match s' with d :: _ => is_space d | [] => false end
      else false
  | [] => false
  end.

(** [re.match(r'^[-*]\s+|^\d+\.\s+', stripped)] *)
Definition is_list_item (stripped : pstr) : bool :=
  match stripped with
  | c :: d :: _ => (((c =? 45)%N || (c =? 42)%N) && is_space d)
                   || digits_then_dot_space stripped false
  | _ => false
  end.

Inductive utype := UHeading | UList | UParagraph.

(** A semantic unit [{"type": ..., "text": ..., "level": ...}]. *)
Record sunit := { utype_of : utype; utext : pstr; ulevel : option Z }.

Definition para (t : pstr) : sunit :=
  {| utype_of := UParagraph; utext := t; ulevel := None |}.

Definition set_text (u : sunit) (t : pstr) : sunit :=
  {| utype_of := utype_of u; utext := t; ulevel := ulevel u |}.

(** [if current_unit["text"].strip(): units.append(current_unit)] *)
Definition flush (units : list sunit) (cur : sunit) : list sunit :=
  if nonblank (utext cur) then units ++ [cur] else units.

(** One iteration of the line loop of [_parse_semantic_units]; the state
    is [(units, current_unit, in_list)]. *)
Definition parse_line (st : list sunit * sunit * bool) (line : pstr)
    : list sunit * sunit * bool :=
  let '(units, cur, in_list) := st in
  let stripped := strip line in
  match stripped with
  | [] => (flush units cur, para [], false)
  | _ =>
      match heading_level stripped with
      | Some lv =>
          (flush units cur ++ [{| utype_of := UHeading; utext := stripped;
                                  ulevel := Some lv |}], para [], false)
      | None =>
          if is_list_item stripped then
            if negb in_list
            then (flush units cur, {| utype_of := UList; utext := stripped;
                                      ulevel := None |}, true)
            else (units, set_text cur (utext cur ++ [nl] ++ stripped), in_list)
          else if in_list then (flush units cur, para stripped, false)
          else match utext cur with
               | [] => (units, set_text cur stripped, in_list)
               | _ => (units, set_text cur (utext cur ++ [nl] ++ stripped), in_list)
               end
      end
  end.

Definition parse_semantic_units (text : pstr) : list sunit :=
  let '(units, cur, _) :=
    List.fold_left parse_line (split_on nl text) ([], para [], false) in
  flush units cur.

(** The terminators of [r'([。！？.!?])']. *)
Definition is_term (c : char) : bool :=
  (c =? 12290)%N || (c =? 65281)%N || (c =? 65311)%N ||
  (c =? 46)%N || (c =? 33)%N || (c =? 63)%N.

Fixpoint re_split_aux (cur : pstr) (s : pstr) : list pstr :=
  match s with
  | [] => [rev cur]
  | c :: s' => if is_term c then rev cur :: [c] :: re_split_aux [] s'
               else re_split_aux (c :: cur) s'
  end.

(** [re.split(r'([。！？.!?])', text)]: pieces and captured terminators
    alternate, starting and ending with a piece. *)
Definition re_split_terms (text : pstr) : list pstr := re_split_aux [] text.

(** [for i in range(0, len(sentences), 2): sentence = sentences[i]
     (+ sentences[i + 1] when it exists)] *)
Fixpoint pair_up (parts : list pstr) : list pstr :=
  match parts with
  | p :: d :: rest => (p ++ d) :: pair_up rest
  | [p] => [p]
  | [] => []
  end.

Definition sentence_step (chunk_size : Z) (st : list pstr * pstr) (sentence : pstr)
    : list pstr * pstr :=
  let '(chunks, buf) := st in
  if zlen buf + zlen sentence <=? chunk_size then (chunks, buf ++ sentence)
  else ((match buf with [] => chunks | _ => chunks ++ [buf] end), sentence).

(** [_split_by_sentences] *)
Definition split_by_sentences (text : pstr) (chunk_size : Z) : list pstr :=
  let '(chunks, buf) :=
    List.fold_left (sentence_step chunk_size) (pair_up (re_split_terms text)) ([], []) in
  match buf with [] => chunks | _ => chunks ++ [buf] end.

Definition is_major_heading (u : sunit) : bool :=
  match utype_of u with
  | UHeading => match ulevel u with Some l => l | None => 99 end <=? 2
  | _ => false
  end.

(** One iteration of the unit loop of [_split_into_chunks]; the state is
    [(chunks, current_chunk)]. *)
Definition chunk_step (chunk_size : Z) (st : list pstr * pstr) (u : sunit)
    : list pstr * pstr :=
  let '(chunks, cur) := st in
  let ut := utext u in
  if is_major_heading u && nonblank cur then (chunks ++ [strip cur], ut ++ [nl; nl])
  else if zlen cur + zlen ut + 2 <=? chunk_size
  then (chunks, cur ++ (match cur with [] => [] | _ => [nl; nl] end) ++ ut)
  else
    let chunks' := if nonblank cur then chunks ++ [strip cur] else chunks in
    if chunk_size <? zlen ut
    then (chunks' ++ split_by_sentences ut chunk_size, [])
    else (chunks', ut).

(** [_split_into_chunks] *)
Definition split_into_chunks (text : pstr) (chunk_size : Z) : list pstr :=
  let '(chunks, cur) :=
    List.fold_left (chunk_step chunk_size) (parse_semantic_units text) ([], []) in
  let chunks := if nonblank cur then chunks ++ [strip cur] else chunks in
  match chunks with [] => [text] | _ => chunks end.

(** [HierarchicalChunker(small_chunk_size, large_chunk_size, overlap)];
    [overlap] is stored and never read. *)
Record chunker := { small_chunk_size : Z; large_chunk_size : Z; overlap : Z }.

Definition default_chunker : chunker :=
  {| small_chunk_size := 256; large_chunk_size := 1024; overlap := 50 |}.

Record ChunkWithContext := {
  small_chunk : pstr;
  large_chunk : pstr;
  cmeta : meta;
  chunk_id : pstr
}.

(** [f"{metadata.get('knowledge_id', 'unknown')}"] *)
Definition knowledge_id_str (md : meta) : pstr :=
  match md !! "knowledge_id" with Some v => py_str v | None => of_string "unknown" end.

Definition underscore : pstr := [95%N].

Definition make_chunk_id (md : meta) (large_idx small_idx : nat) : pstr :=
  knowledge_id_str md ++ underscore ++ str_of_int (Z.of_nat large_idx)
  ++ underscore ++ str_of_int (Z.of_nat small_idx).

(** [{**metadata, "large_chunk_index": ..., "small_chunk_index": ...,
      "total_large_chunks": ...}] *)
Definition chunk_meta (md : meta) (large_idx small_idx total : nat) : meta :=
  <["total_large_chunks" := MInt (Z.of_nat total)]>
  (<["small_chunk_index" := MInt (Z.of_nat small_idx)]>
   (<["large_chunk_index" := MInt (Z.of_nat large_idx)]> md)).

(** [[f(i, x) for i, x in enumerate(l, start)]] *)
Fixpoint enum_map {A B : Type} (f : nat -> A -> B) (start : nat) (l : list A) : list B :=
  match l with
  | [] => []
  | x :: l' => f start x :: enum_map f (S start) l'
  end.

(** [create_hierarchical_chunks] *)
Definition create_hierarchical_chunks (cfg : chunker) (content : pstr) (md : meta)
    : list ChunkWithContext :=
  let content := replace_cr (replace_crlf content) in
  let large_chunks := split_into_chunks content (large_chunk_size cfg) in
  List.concat (enum_map (fun large_idx large =>
    enum_map (fun small_idx small =>
      {| small_chunk := small; large_chunk := large;
         cmeta := chunk_meta md large_idx small_idx (length large_chunks);
         chunk_id := make_chunk_id md large_idx small_idx |})
      0 (split_into_chunks large (small_chunk_size cfg)))
    0 large_chunks).

End Chunker.

(* ------------------------------------------------------------------ *)
(** ** Ingest ([_add_to_indexes], api/knowledge.py) *)

Module Ingest.
Import Chunker.

Inductive ingest_error := ValueError (msg : pstr).

(** The first step of [_add_to_indexes]: chunk, and reject a document
    that produced no chunk with [ValueError("文档分割失败")]. *)
Definition chunk_for_ingest (cfg : chunker) (text : pstr) (md : meta)
    : ingest_error + list ChunkWithContext :=
  match create_hierarchical_chunks cfg text md with
  | [] => inl (ValueError [25991%N; 26723%N; 20998%N; 21106%N; 22833%N; 36133%N])
  | chunks => inr chunks
  end.

End Ingest.

(* ------------------------------------------------------------------ *)
(** ** Python floats and small helpers *)

Module PyNum.

(** Python floats are modelled as rationals; [a < b] on floats. *)
Definition Qltb (a b : Q) : bool := negb (Qle_bool b a).

(** [max(a, b)] keeping the first of equal values. *)
Definition qmax (a b : Q) : Q := if Qltb a b then b else a.

(** Truthiness of a Python list or string. *)
Definition nonempty {A : Type} (l : list A) : bool :=
  match l with [] => false | _ => true end.

(** [l[:k]] for a Python int [k] (a negative [k] drops [-k] elements
    from the end). *)
Definition take_py {A : Type} (k : Z) (l : list A) : list A :=
  firstn (Z.to_nat (if k <? 0 then Z.of_nat (length l) + k else k)) l.

(** [l[i]] for a Python int [i]; [None] is an [IndexError]. *)
Definition index_py {A : Type} (l : list A) (i : Z) : option A :=
  if i <? 0 then
    (if Z.of_nat (length l) + i <? 0 then None
     else nth_error l (Z.to_nat (Z.of_nat (length l) + i)))
  else nth_error l (Z.to_nat i).

End PyNum.

Import PyNum.

#[global] Instance mval_eq_dec : EqDecision mval.
Proof. solve_decision. Defined.

(* ------------------------------------------------------------------ *)
(** ** Hybrid retriever (retriever.py) *)

Module Retriever.

(** [langchain_core.documents.Document] *)
Record LCDocument := { page_content : pstr; metadata : meta }.

Inductive IndexType := DETAIL | SUMMARY.

(** What a Chroma collection answers for the current query: every stored
    document with its distance to the query, nearest first.
    [similarity_search_with_score] returns the first [k] of those that pass
    the metadata filter. *)
Definition ranked := list (LCDocument * Q).

(** [{"knowledge_id": {"$in": ids}}], or [None] for no filter. *)
Definition kid_filter := option (list pstr).

(** [{"knowledge_id": {"$in": knowledge_ids}} if knowledge_ids else None] *)
Definition filter_condition (ids : list pstr) : kid_filter :=
  match ids with [] => None | _ => Some ids end.

Definition pstr_eqb (a b : pstr) : bool := bool_decide (a = b).

(** [kid in knowledge_ids] for a list of strings: only a string value can
    be equal to one of its elements. *)
Definition kid_in (v : option mval) (ids : list pstr) : bool :=
  match v with Some (MStr s) => existsb (pstr_eqb s) ids | _ => false end.

Definition matches_filter (f : kid_filter) (d : LCDocument) : bool :=
  match f with
  | None => true
  | Some ids => kid_in (metadata d !! "knowledge_id") ids
  end.

Definition similarity_search_with_score (store : ranked) (k : Z) (f : kid_filter)
    : ranked :=
  firstn (Z.to_nat k) (List.filter (fun p => matches_filter f (fst p)) store).

(** [md.get(k, default)] *)
Definition get_val (md : meta) (k : string) (default : mval) : mval :=
  match md !! k with Some v => v | None => default end.

(** Truthiness of a Python value. *)
Definition truthy (v : mval) : bool :=
  match v with
  | MStr s => nonempty s
  | MInt z => negb (z =? 0)
  | MNone => false
  | MInts l => nonempty l
  | MStrs l => nonempty l
  end.

(** [md.get('chunk_id') or f"{kid}_{large_chunk_index}_{small_chunk_index}"]
    with [kid = md.get('knowledge_id')]. *)
Definition doc_id (md : meta) : mval :=
  let fallback :=
    MStr (py_str (get_val md "knowledge_id" MNone) ++ Chunker.underscore
          ++ py_str (get_val md "large_chunk_index" (MInt 0)) ++ Chunker.underscore
          ++ py_str (get_val md "small_chunk_index" (MInt 0))) in
  match md !! "chunk_id" with
  | Some v => if truthy v then v else fallback
  | None => fallback
  end.

(** An entry [{"doc": ..., "vector_score": ..., "bm25_score": ...}] of the
    [results] dict of [_retrieve_from_detail]. *)
Record entry := { edoc : LCDocument; vector_score : Q; bm25_score : Q }.

(** The [results] dict, in insertion order. *)
Definition results := list (mval * entry).

Fixpoint assoc_lookup {V : Type} (k : mval) (r : list (mval * V)) : option V :=
  match r with
  | [] => None
  | (k', v) :: r' => if bool_decide (k = k') then Some v else assoc_lookup k r'
  end.

(** [r[k] = v]: an existing key keeps its place. *)
Fixpoint assoc_set {V : Type} (k : mval) (v : V) (r : list (mval * V))
    : list (mval * V) :=
  match r with
  | [] => [(k, v)]
  | (k', v') :: r' =>
      if bool_decide (k = k') then (k', v) :: r' else (k', v') :: assoc_set k v r'
  end.

(** The loop of [_vector_search]; a distance of [-1] raises
    [ZeroDivisionError], which the [try] catches, keeping the entries
    written so far. *)
Fixpoint vector_loop (weight : Q) (l : ranked) (r : results) : results :=
  match l with
  | [] => r
  | (d, score) :: l' =>
      if Qeq_bool (1 + score)%Q 0 then r
      else vector_loop weight l'
             (assoc_set (doc_id (metadata d))
                {| edoc := d; vector_score := ((1 / (1 + score)) * weight)%Q;
                   bm25_score := 0%Q |} r)
  end.

(** [_vector_search] *)
Definition vector_search (store : ranked) (ids : list pstr) (top_k : Z) (weight : Q)
    (r : results) : results :=
  vector_loop weight
    (similarity_search_with_score store (top_k * 2) (filter_condition ids)) r.

(** One document of the BM25 index: its text ([bm25_docs[i]]), its
    metadata ([bm25_metadata[i]]) and the score [get_scores] gives it for
    the current query. *)
Record bm25_entry := { bm_text : pstr; bm_meta : meta; bm_score : Q }.

(** One iteration of the scoring loop of [_bm25_search]. *)
Definition bm25_step (ids : list pstr) (weight max_score : Q) (r : results)
    (e : bm25_entry) : results :=
  if Qltb 0%Q (bm_score e) then
    let md := bm_meta e in
    if nonempty ids && negb (kid_in (md !! "knowledge_id") ids) then r
    else
      let did := doc_id md in
      let ns := ((bm_score e / max_score) * weight)%Q in
      match assoc_lookup did r with
      | Some en =>
          assoc_set did {| edoc := edoc en; vector_score := vector_score en;
                           bm25_score := ns |} r
      | None =>
          assoc_set did {| edoc := {| page_content := bm_text e; metadata := md |};
                           vector_score := 0%Q; bm25_score := ns |} r
      end
  else r.

(** [_bm25_search]; [index] is [None] while [bm25_index] is not built. *)
Definition bm25_search (has_bm25 : bool) (index : option (list bm25_entry))
    (ids : list pstr) (weight : Q) (r : results) : results :=
  if negb has_bm25 then r else
  match index with
  | None => r
  | Some entries =>
      if Qle_bool weight 0%Q then r else
      match entries with
      | [] => r   (* [max()] of an empty sequence raises, caught *)
      | e0 :: _ =>
          let m := List.fold_left qmax (List.map bm_score entries) (bm_score e0) in
          let max_score := if Qltb 0%Q m then m else 1%Q in
          List.fold_left (bm25_step ids weight max_score) entries r
      end
  end.

(** The retriever's stores as they answer the current query. *)
Record view := {
  detail_index : ranked;
  summary_index : ranked;
  has_bm25 : bool;
  bm25_index : option (list bm25_entry)
}.

(** [scored_results] of [_retrieve_from_detail], before sorting: every
    fused entry with [vector_score + bm25_score]. *)
Definition fused (v : view) (ids : list pstr) (top_k : Z) (vw bw : Q)
    : list (LCDocument * Q) :=
  let r := vector_search (detail_index v) ids top_k vw [] in
  let r := bm25_search (has_bm25 v) (bm25_index v) ids bw r in
  List.map (fun p => (edoc (snd p), (vector_score (snd p) + bm25_score (snd p))%Q)) r.

(** [(doc.metadata.get("name", ""), large_chunk[:100] if large_chunk else "")]
    with [large_chunk = doc.metadata.get("large_chunk", doc.page_content)]. *)
Definition dedup_key (d : LCDocument) : pstr * pstr :=
  (get_str (metadata d) "name" [],
   prefix 100 (get_str (metadata d) "large_chunk" (page_content d))).

Definition key_eqb (a b : pstr * pstr) : bool := bool_decide (a = b).

(** The de-duplication loop; [n] is [len(deduped_results)]. *)
Fixpoint dedup_loop (top_k : Z) (seen : list (pstr * pstr)) (n : Z)
    (l : list (LCDocument * Q)) : list (LCDocument * Q) :=
  match l with
  | [] => []
  | (d, s) :: l' =>
      let k := dedup_key d in
      if existsb (key_eqb k) seen then dedup_loop top_k seen n l'
      else (d, s) :: (if top_k <=? n + 1 then []
                      else dedup_loop top_k (k :: seen) (n + 1) l')
  end.

(** [scored_results.sort(key=lambda x: x[1], reverse=True)] *)
Definition sort_desc {A : Type} (l : list (A * Q)) : list (A * Q) :=
  sort_by (fun y x => Qle_bool (snd x) (snd y)) l.

(** [_retrieve_from_detail] *)
Definition retrieve_from_detail (v : view) (ids : list pstr) (top_k : Z) (vw bw : Q)
    : list (LCDocument * Q) :=
  dedup_loop top_k [] 0 (sort_desc (fused v ids top_k vw bw)).

(** A chunk [{"index": ..., "content": ..., "summary": ..., "score": ...}]. *)
Record chunk_rec := { c_index : Z; c_content : pstr; c_summary : pstr; c_score : Q }.

(** A group [{"chunks": ..., "max_score": ..., "metadata": ..., "summaries": ...}]. *)
Record group := {
  chunks : list chunk_rec; max_score : Q; gmeta : meta; summaries : list pstr }.

(** [doc.metadata.get("knowledge_id", "unknown")] *)
Definition kid_of (md : meta) : mval := get_val md "knowledge_id" (MStr (of_string "unknown")).

(** [doc.metadata.get("chunk_index", 0)]; ingestion stores an int. *)
Definition chunk_index_of (md : meta) : Z :=
  match md !! "chunk_index" with Some (MInt z) => z | _ => 0 end.

(** [doc.metadata.get("original_chunk", doc.page_content)] *)
Definition original_of (d : LCDocument) : pstr :=
  get_str (metadata d) "original_chunk" (page_content d).

Definition normalized (vw : Q) (score : Q) : Q := ((1 / (1 + score)) * vw)%Q.

Definition new_group (ns : Q) (md : meta) : group :=
  {| chunks := []; max_score := ns; gmeta := md; summaries := [] |}.

(** The update of an existing group: raise [max_score], then append the
    chunk unless its index is already there. *)
Definition add_to_group (ns : Q) (d : LCDocument) (g : group) : group :=
  let g1 := if Qltb (max_score g) ns
            then {| chunks := chunks g; max_score := ns; gmeta := gmeta g;
                    summaries := summaries g |}
            else g in
  let ci := chunk_index_of (metadata d) in
  if existsb (Z.eqb ci) (List.map c_index (chunks g1)) then g1
  else {| chunks := chunks g1 ++ [{| c_index := ci; c_content := original_of d;
                                     c_summary := page_content d; c_score := ns |}];
          max_score := max_score g1; gmeta := gmeta g1;
          summaries := summaries g1 ++ [page_content d] |}.

Definition assoc_update {V : Type} (k : mval) (f : V -> V) (l : list (mval * V))
    : list (mval * V) :=
  List.map (fun e => if bool_decide (k = fst e) then (fst e, f (snd e)) else e) l.

(** One iteration of the grouping loop of [_retrieve_from_summary]. *)
Definition group_step (vw : Q) (gs : list (mval * group)) (p : LCDocument * Q)
    : list (mval * group) :=
  let d := fst p in
  let kid := kid_of (metadata d) in
  let ns := normalized vw (snd p) in
  let gs1 := if existsb (fun e => bool_decide (fst e = kid)) gs then gs
             else gs ++ [(kid, new_group ns (metadata d))] in
  assoc_update kid (add_to_group ns d) gs1.

Definition sep2 : pstr := [Chunker.nl; Chunker.nl].

(** One aggregated candidate of a kept group. *)
Definition emit (e : mval * group) : LCDocument * Q :=
  let g := snd e in
  let sc := sort_by (fun y x => c_index y <=? c_index x) (chunks g) in
  ({| page_content := join sep2 (List.map c_content sc);
      metadata := <["summaries" := MStrs (summaries g)]>
                  (<["chunk_indices" := MInts (List.map c_index sc)]>
                   (<["aggregated_chunks" := MInt (Z.of_nat (length sc))]> (gmeta g))) |},
   max_score g).

(** [_retrieve_from_summary]; a distance of [-1] raises
    [ZeroDivisionError], caught by the [try], which returns [[]]. *)
Definition retrieve_from_summary (v : view) (ids : list pstr) (top_k : Z) (vw : Q)
    : list (LCDocument * Q) :=
  let res := similarity_search_with_score (summary_index v) (top_k * 3)
               (filter_condition ids) in
  if existsb (fun p => Qeq_bool (1 + snd p)%Q 0) res then [] else
  let gs := List.fold_left (group_step vw) res [] in
  let kept := take_py top_k
                (sort_by (fun y x => Qle_bool (max_score (snd x)) (max_score (snd y))) gs) in
  List.map emit kept.

(** Used by the statements below: the original text of the first
    summary candidate in [R] of document [k] with chunk index [i]. *)
Definition first_original (R : ranked) (k : mval) (i : Z) : option pstr :=
  option_map (fun p => original_of (fst p))
    (List.find (fun p => bool_decide (kid_of (metadata (fst p)) = k)
                         && (chunk_index_of (metadata (fst p)) =? i)) R).

(** [retrieve]; [use_large_chunk] only changes what is logged. *)
Definition retrieve (v : view) (ids : list pstr) (it : IndexType) (top_k : Z)
    (vw bw : Q) : list (LCDocument * Q) :=
  match it with
  | SUMMARY => retrieve_from_summary v ids top_k vw
  | DETAIL => retrieve_from_detail v ids top_k vw bw
  end.

End Retriever.

(* ------------------------------------------------------------------ *)
(** ** Reranker (reranker.py) *)

Module Reranker.
Import Retriever.

(** [RERANK_THRESHOLD = 0.3]: the double nearest to 0.3. *)
Definition RERANK_THRESHOLD : Q := 5404319552844595 # 18014398509481984.

Record RerankResult := {
  document : LCDocument; original_score : Q; rerank_score : Q; is_relevant : bool }.

(** A [DashScopeReranker]: whether [api_key or os.getenv("DASHSCOPE_API_KEY")]
    is truthy, and its threshold. *)
Record DashScopeReranker := { api_key_set : bool; threshold : Q }.

(** [LLMReranker()] as [get_reranker] builds it. *)
Definition default_reranker (key_set : bool) : DashScopeReranker :=
  {| api_key_set := key_set; threshold := RERANK_THRESHOLD |}.

(** What the rerank request gives: a response with its status code and the
    [(item.get("index", 0), item.get("relevance_score", 0.0))] pairs of
    [output.results], or an exception ([requests] error, invalid JSON). *)
Inductive api_outcome :=
| ApiResponse (status_code : Z) (items : list (Z * Q))
| ApiRaises.

(** [_fallback_results]; the no-key path builds the same list. *)
Definition fallback_results (t : Q) (docs : list (LCDocument * Q)) : list RerankResult :=
  List.map (fun p => {| document := fst p; original_score := snd p;
                        rerank_score := snd p; is_relevant := Qle_bool t (snd p) |}) docs.

(** The loop over [rerank_results]; [None] is the [IndexError] of
    [documents[idx]] for [idx < -len(documents)], caught by the [try]. *)
Fixpoint collect_results (t : Q) (docs : list (LCDocument * Q)) (items : list (Z * Q))
    : option (list RerankResult) :=
  match items with
  | [] => Some []
  | (idx, sc) :: rest =>
      if idx <? Z.of_nat (length docs) then
        match index_py docs idx with
        | None => None
        | Some (d, os) =>
            option_map (cons {| document := d; original_score := os; rerank_score := sc;
                                is_relevant := Qle_bool t sc |})
              (collect_results t docs rest)
        end
      else collect_results t docs rest
  end.

(** [results.sort(key=lambda x: x.rerank_score, reverse=True)] *)
Definition sort_by_rerank (l : list RerankResult) : list RerankResult :=
  sort_by (fun y x => Qle_bool (rerank_score x) (rerank_score y)) l.

(** [DashScopeReranker.rerank(query, documents, top_k)] *)
Definition rerank (r : DashScopeReranker) (api : api_outcome)
    (docs : list (LCDocument * Q)) (top_k : option Z) : list RerankResult :=
  match docs with
  | [] => []
  | _ =>
      if negb (api_key_set r) then fallback_results (threshold r) docs else
      match api with
      | ApiRaises => fallback_results (threshold r) docs
      | ApiResponse st items =>
          if negb (st =? 200) then fallback_results (threshold r) docs else
          match collect_results (threshold r) docs items with
          | None => fallback_results (threshold r) docs
          | Some res =>
              let rel := List.filter is_relevant (sort_by_rerank res) in
              match top_k with
              | Some k => if negb (k =? 0) && (k <? Z.of_nat (length rel))
                          then take_py k rel else rel
              | None => rel
              end
          end
      end
  end.

End Reranker.

(* ------------------------------------------------------------------ *)
(** ** Chat endpoint: source selection (api/chat.py) *)

Module Chat.
Import Retriever Reranker.

(** [RELEVANCE_THRESHOLD = 0.35]: the double nearest to 0.35. *)
Definition RELEVANCE_THRESHOLD : Q := 3152519739159347 # 9007199254740992.

Record SourceItem := {
  name : pstr; content : pstr; course_name : option mval; score : Q }.

(** Round half to even of a rational. *)
Definition round_half_even (q : Q) : Z :=
  let f := Qfloor q in
  let r := (q - inject_Z f)%Q in
  if Qltb r (1 # 2) then f
  else if Qltb (1 # 2) r then f + 1
  else if Z.even f then f else f + 1.

(** [round(x, 4)], as the exact decimal it denotes. *)
Definition round4 (q : Q) : Q := Qmake (round_half_even (q * 10000)%Q) 10000.

(** "未知来源" and "未知" *)
Definition unknown_source : pstr := [26410%N; 30693%N; 26469%N; 28304%N].
Definition unknown : pstr := [26410%N; 30693%N].

(** The retrieval parameters [route] hands to [_retrieve_sources]. *)
Record RetrievalParams := {
  rp_top_k : Z; rp_vector_weight : Q; rp_bm25_weight : Q; rp_use_large_chunk : bool }.

Definition source_text (it : IndexType) (use_large : bool) (d : LCDocument) : pstr :=
  match it with
  | SUMMARY => page_content d
  | DETAIL => if use_large then get_str (metadata d) "large_chunk" (page_content d)
              else page_content d
  end.

(** The loop of [_retrieve_sources] building [SourceItem]s, de-duplicated on
    [(name, content[:100])]. *)
Fixpoint build_sources (it : IndexType) (use_large : bool) (seen : list (pstr * pstr))
    (l : list (LCDocument * Q)) : list SourceItem :=
  match l with
  | [] => []
  | (d, s) :: l' =>
      let c := source_text it use_large d in
      let k := (get_str (metadata d) "name" unknown, prefix 100 c) in
      if existsb (key_eqb k) seen then build_sources it use_large seen l'
      else {| name := get_str (metadata d) "name" unknown_source; content := c;
              course_name := metadata d !! "course_name"; score := round4 s |}
           :: build_sources it use_large (k :: seen) l'
  end.

(** The [SourceItem] built from a rerank result. *)
Definition source_of_rerank (r : RerankResult) : SourceItem :=
  let d := document r in
  {| name := get_str (metadata d) "name" unknown_source;
     content := get_str (metadata d) "large_chunk" (page_content d);
     course_name := metadata d !! "course_name";
     score := round4 (rerank_score r) |}.

(** What the retrieval part of [chat] produces: the list handed to the
    reranker, if it is called, and the [sources] given to [_build_prompts]
    and [_filter_used_sources]. *)
Record ChatRetrieval := {
  rerank_input : option (list (LCDocument * Q));
  final_sources : list SourceItem }.

(** The retrieval part of [chat], for a router decision [(it, params)], the
    reranker of [get_reranker] and the answer of its service. *)
Definition chat_retrieval (v : view) (rr : DashScopeReranker) (api : api_outcome)
    (kids : list pstr) (it : IndexType) (params : RetrievalParams) : ChatRetrieval :=
  match kids with
  | [] => {| rerank_input := None; final_sources := [] |}
  | _ =>
      let raw := retrieve v kids it (rp_top_k params) (rp_vector_weight params)
                   (rp_bm25_weight params) in
      let sources := List.filter (fun s => Qle_bool RELEVANCE_THRESHOLD (score s))
                       (build_sources it (rp_use_large_chunk params) [] raw) in
      if nonempty sources && nonempty raw then
        let filtered_raw := List.filter (fun p => Qle_bool RELEVANCE_THRESHOLD (snd p)) raw in
        {| rerank_input := Some filtered_raw;
           final_sources := List.map source_of_rerank (rerank rr api filtered_raw None) |}
      else {| rerank_input := None; final_sources := sources |}
  end.

(** The sources [chat] returns for the LLM's [answer], before their
    [minio://] URLs are rewritten; when [_filter_used_sources] raises,
    [chat] answers [ChatResponse(success=False, ...)], whose [sources]
    keeps its default [[]]. *)
Definition returned_sources (answer : pstr) (c : ChatRetrieval) : list SourceItem :=
  match Citation.filter_used_sources answer (final_sources c) with
  | Some (_, used) => used
  | None => []
  end.

End Chat.

(* ------------------------------------------------------------------ *)
(** ** Summarizer (summarizer.py) *)

Module Summarizer.
Import Chunker.

Record ChunkSummary := { summary : pstr; chunk_index : Z; original_chunk : pstr }.

(** [DocumentSummarizer(llm, chunk_size=2000)]; the LLM is passed apart. *)
Record DocumentSummarizer := { chunk_size : Z }.

Definition default_summarizer : DocumentSummarizer := {| chunk_size := 2000 |}.

Inductive kind := KHeading | KCodeBlock | KTable | KImage | KList | KParagraph.

Record sem_unit := { su_kind : kind; su_text : pstr; su_level : option Z }.

Definition mk_unit (k : kind) (t : pstr) : sem_unit :=
  {| su_kind := k; su_text := t; su_level := None |}.

Fixpoint starts_with (p s : pstr) : bool :=
  match p, s with
  | [], _ => true
  | c :: p', d :: s' => (c =? d)%N && starts_with p' s'
  | _ :: _, [] => false
  end.

Fixpoint contains (p s : pstr) : bool :=
  starts_with p s || match s with [] => false | _ :: s' => contains p s' end.

Definition fence : pstr := [96%N; 96%N; 96%N].

(** [line.strip().startswith('```')] *)
Definition is_fence_line (l : pstr) : bool := starts_with fence (strip l).

(** [line.strip().startswith('|')] *)
Definition is_table_line (l : pstr) : bool := starts_with [124%N] (strip l).

(** [re.match(r'^(#{1,6})\s+(.+)$', line.strip())]; on a stripped line it
    matches exactly when [re.match(r'^#{1,6}\s+', line.strip())] does. *)
Definition is_heading_line (l : pstr) : bool :=
  match heading_level (strip l) with Some _ => true | None => false end.

(** [re.match(r'^!\[.*\]\(.*\)$', line.strip())] *)
Definition is_image_line (l : pstr) : bool :=
  let s := strip l in
  starts_with [33%N; 91%N] s && ends_with (fun c => (c =? 41)%N) (skipn 2 s)
  && contains [93%N; 40%N] (removelast (skipn 2 s)).

(** [re.match(r'^(\s*[-*]|\s*\d+\.)\s+', line)] *)
Definition is_list_line (l : pstr) : bool := is_list_item (lstrip l).

(** The code block after its opening line, up to and with the closing one. *)
Fixpoint code_body (ls : list pstr) : list pstr * list pstr :=
  match ls with
  | [] => ([], [])
  | l :: ls' => if is_fence_line l then ([l], ls')
                else let '(b, r) := code_body ls' in (l :: b, r)
  end.

Fixpoint table_body (ls : list pstr) : list pstr * list pstr :=
  match ls with
  | [] => ([], [])
  | l :: ls' => if is_table_line l then let '(b, r) := table_body ls' in (l :: b, r)
                else ([], ls)
  end.

(** The list loop; [started] is the truthiness of [list_lines]. *)
Fixpoint list_body (started : bool) (ls : list pstr) : list pstr * list pstr :=
  match ls with
  | [] => ([], [])
  | cur :: ls' =>
      if is_list_line cur || (starts_with [32%N; 32%N] cur && started) then
        let '(b, r) := list_body true ls' in (cur :: b, r)
      else if negb (nonblank cur) then
        match ls' with
        | nxt :: _ => if is_list_line nxt
                      then let '(b, r) := list_body true ls' in (cur :: b, r)
                      else ([], ls)
        | [] => ([], ls)
        end
      else ([], ls)
  end.

Fixpoint para_body (ls : list pstr) : list pstr * list pstr :=
  match ls with
  | [] => ([], [])
  | cur :: ls' =>
      if negb (nonblank cur) || is_fence_line cur || is_table_line cur
         || is_heading_line cur || is_list_line cur || is_image_line cur
      then ([], ls)
      else let '(b, r) := para_body ls' in (cur :: b, r)
  end.

Definition join_lines (ls : list pstr) : pstr := join [nl] ls.

(** The [while i < n] loop of [_parse_semantic_units]; every iteration
    consumes at least one line, so [length lines + 1] rounds suffice. *)
Fixpoint parse_units (fuel : nat) (ls : list pstr) : list sem_unit :=
  match fuel with
  | O => []
  | S fuel' =>
      match ls with
      | [] => []
      | line :: rest =>
          if negb (nonblank line) then parse_units fuel' rest
          else if is_fence_line line then
            let '(b, r) := code_body rest in
            mk_unit KCodeBlock (join_lines (line :: b)) :: parse_units fuel' r
          else if is_table_line line then
            let '(b, r) := table_body ls in
            mk_unit KTable (join_lines b) :: parse_units fuel' r
          else match heading_level (strip line) with
          | Some lv => {| su_kind := KHeading; su_text := strip line; su_level := Some lv |}
                       :: parse_units fuel' rest
          | None =>
              if is_image_line line then mk_unit KImage (strip line) :: parse_units fuel' rest
              else if is_list_line line then
                let '(b, r) := list_body false ls in
                mk_unit KList (strip (join_lines b)) :: parse_units fuel' r
              else
                let '(b, r) := para_body ls in
                (if nonempty b then [mk_unit KParagraph (strip (join_lines b))] else [])
                ++ parse_units fuel' r
          end
      end
  end.

(** [DocumentSummarizer._parse_semantic_units] *)
Definition parse_semantic_units (content : pstr) : list sem_unit :=
  let ls := split_on nl content in parse_units (S (length ls)) ls.

Definition is_term_start (s : pstr) : bool :=
  match s with c :: _ => is_term c | [] => false end.

(** [re.compile(r'([。！？.!?]+)').split(paragraph)]: pieces and captured
    runs of terminators alternate. *)
Fixpoint split_runs (cur run : pstr) (s : pstr) : list pstr :=
  match s with
  | [] => match run with [] => [rev cur] | _ => [rev cur; rev run; []] end
  | c :: s' =>
      if is_term c then split_runs cur (c :: run) s'
      else match run with
           | [] => split_runs (c :: cur) [] s'
           | _ => rev cur :: rev run :: split_runs [c] [] s'
           end
  end.

Definition keep_sentence (s : pstr) : list pstr := if nonblank s then [strip s] else [].

(** The [while i < len(parts)] loop re-attaching terminators. *)
Fixpoint recombine (parts : list pstr) : list pstr :=
  match parts with
  | [] => []
  | p :: tl =>
      match tl with
      | q :: rest => if is_term_start q then keep_sentence (p ++ q) ++ recombine rest
                     else keep_sentence p ++ recombine tl
      | [] => keep_sentence p
      end
  end.

Definition space : pstr := [32%N].

Definition merge_step (size : Z) (st : list pstr * pstr) (sent : pstr) : list pstr * pstr :=
  let '(chunks, cur) := st in
  if zlen cur + zlen sent + 1 <=? size then (chunks, cur ++ sent ++ space)
  else ((if nonblank cur then chunks ++ [strip cur] else chunks), sent ++ space).

(** [_split_long_paragraph] *)
Definition split_long_paragraph (s : DocumentSummarizer) (paragraph : pstr) : list pstr :=
  let '(chunks, cur) :=
    List.fold_left (merge_step (chunk_size s)) (recombine (split_runs [] [] paragraph)) ([], []) in
  let chunks := if nonblank cur then chunks ++ [strip cur] else chunks in
  match chunks with [] => [paragraph] | _ => chunks end.

Definition is_major (u : sem_unit) : bool :=
  match su_kind u with
  | KHeading => match su_level u with Some l => l | None => 99 end <=? 2
  | _ => false
  end.

(** One iteration of the unit loop of [_split_content]. *)
Definition split_step (s : DocumentSummarizer) (st : list pstr * pstr) (u : sem_unit)
    : list pstr * pstr :=
  let '(chunks, cur) := st in
  let ut := su_text u in
  if is_major u && nonblank cur then (chunks ++ [strip cur], ut ++ [nl; nl])
  else if zlen cur + zlen ut + 2 <=? chunk_size s then (chunks, cur ++ ut ++ [nl; nl])
  else
    let '(chunks, cur) := if nonblank cur then (chunks ++ [strip cur], []) else (chunks, cur) in
    if zlen ut <=? chunk_size s then (chunks, ut ++ [nl; nl])
    else match su_kind u with
         | KCodeBlock | KTable => (chunks ++ [ut], cur)
         | _ =>
             let sub := split_long_paragraph s ut in
             (chunks ++ List.removelast sub,
              match sub with [] => [] | _ => List.last sub [] ++ [nl; nl] end)
         end.

(** [_split_content] *)
Definition split_content (s : DocumentSummarizer) (content : pstr) : list pstr :=
  let '(chunks, cur) :=
    List.fold_left (split_step s) (parse_semantic_units content) ([], []) in
  let chunks := if nonblank cur then chunks ++ [strip cur] else chunks in
  match chunks with [] => [content] | _ => chunks end.

(** The LLM as [_generate_chunk_summary] sees it: the reply to the prompt
    for a chunk (its number and the chunk count included), or [None] when
    [llm.invoke] raises. *)
Definition llm := pstr -> Z -> Z -> option pstr.

(** The [try] body of [generate_chunk_summaries]; [None] when an exception
    escapes it. *)
Fixpoint summarize_all (call : llm) (total : Z) (i : nat) (cs : list pstr)
    : option (list ChunkSummary) :=
  match cs with
  | [] => Some []
  | c :: cs' =>
      match call c (Z.of_nat i + 1) total with
      | None => None
      | Some reply =>
          option_map (cons {| summary := strip reply; chunk_index := Z.of_nat i;
                              original_chunk := c |})
            (summarize_all call total (S i) cs')
      end
  end.

Definition ellipsis : pstr := [46%N; 46%N; 46%N].

(** The [except] branch of [generate_chunk_summaries]. *)
Definition fallback_summary (s : DocumentSummarizer) (content : pstr) : list ChunkSummary :=
  let fb := strip (prefix 500 content) in
  let fb := if 500 <? zlen content then fb ++ ellipsis else fb in
  [{| summary := fb; chunk_index := 0;
      original_chunk := prefix (Z.to_nat (chunk_size s)) content |}].

(** [generate_chunk_summaries] *)
Definition generate_chunk_summaries (s : DocumentSummarizer) (call : llm) (content : pstr)
    : list ChunkSummary :=
  let cs := split_content s content in
  match summarize_all call (Z.of_nat (length cs)) 0 cs with
  | Some l => l
  | None => fallback_summary s content
  end.

(** The summary documents [_add_to_indexes] stores, as (page_content,
    metadata) pairs: [doc_type] is ["summary"] for every one of them. *)
Definition summary_documents (kid : pstr) (md : meta) (l : list ChunkSummary)
    : list (pstr * meta) :=
  List.map (fun cs =>
    (summary cs,
     <["original_chunk" := MStr (original_chunk cs)]>
     (<["chunk_index" := MInt (chunk_index cs)]>
      (<["doc_type" := MStr (of_string "summary")]>
       (<["created_at" := Retriever.get_val md "created_at" MNone]>
        (<["course_name" := Retriever.get_val md "course_name" MNone]>
         (<["course_id" := Retriever.get_val md "course_id" MNone]>
          (<["owner_id" := Retriever.get_val md "owner_id" MNone]>
           (<["source_type" := Retriever.get_val md "source_type" MNone]>
            (<["name" := Retriever.get_val md "name" MNone]>
             (<["knowledge_id" := MStr kid]> ∅))))))))))) l.

End Summarizer.

(* ------------------------------------------------------------------ *)
(** ** Indexing a document ([_add_to_indexes], api/knowledge.py) *)

Module Indexing.
Import Chunker Summarizer.

(** The detail document of a chunk: [LCDocument(page_content=chunk.small_chunk,
    metadata={**chunk.metadata, "large_chunk": ..., "chunk_id": ...})]. *)
Definition detail_document (c : ChunkWithContext) : Retriever.LCDocument :=
  {| Retriever.page_content := small_chunk c;
     Retriever.metadata := <["chunk_id" := MStr (chunk_id c)]>
                           (<["large_chunk" := MStr (large_chunk c)]> (cmeta c)) |}.

(** [f"{knowledge_id}_summary_{cs.chunk_index}"] *)
Definition summary_id (kid : pstr) (cs : ChunkSummary) : pstr :=
  kid ++ of_string "_summary_" ++ str_of_int (chunk_index cs).

(** What [_add_to_indexes] hands to the two Chroma collections, and the
    chunk count it returns. *)
Record indexed := {
  detail_docs : list Retriever.LCDocument;
  detail_ids : list pstr;
  summary_docs : list (pstr * meta);
  summary_ids : list pstr;
  n_chunks : nat }.

(** [_add_to_indexes(knowledge_id, text_content, metadata, filename)] with
    the chunker and summarizer of [get_chunker] / [get_summarizer] and the
    LLM answers [call]. *)
Definition add_to_indexes (cfg : chunker) (s : DocumentSummarizer) (call : llm)
    (kid : pstr) (text : pstr) (md : meta) : Ingest.ingest_error + indexed :=
  match Ingest.chunk_for_ingest cfg text md with
  | inl e => inl e
  | inr chunks =>
      let css := generate_chunk_summaries s call text in
      inr {| detail_docs := List.map detail_document chunks;
             detail_ids := List.map chunk_id chunks;
             summary_docs := summary_documents kid md css;
             summary_ids := List.map (summary_id kid) css;
             n_chunks := length chunks |}
  end.

(** [DocumentSummarizer.generate_summary]: the chunk summaries joined with
    a blank line. *)
Definition generate_summary (s : DocumentSummarizer) (call : llm) (content : pstr) : pstr :=
  join [nl; nl] (List.map summary (generate_chunk_summaries s call content)).

End Indexing.

(* ------------------------------------------------------------------ *)
(** ** [rerank_simple] (reranker.py) *)

Module RerankSimple.
Import Retriever Reranker.

(** [DashScopeReranker.rerank_simple] *)
Definition rerank_simple (r : DashScopeReranker) (api : api_outcome)
    (docs : list (LCDocument * Q)) (top_k : option Z) : list (LCDocument * Q) :=
  List.map (fun x => (document x, rerank_score x)) (rerank r api docs top_k).

End RerankSimple.

(* ------------------------------------------------------------------ *)
(** ** Prompts ([_build_prompts], api/chat.py) *)

Module Prompts.
Import Chat.

(** A history message [Dict[str, str]]: its ["role"] and ["content"]. *)
Record hist_msg := { h_role : option pstr; h_content : option pstr }.

(** The two prompt constants of chat.py, by name. *)
Inductive system_prompt := SYSTEM_PROMPT_WITH_SOURCES | SYSTEM_PROMPT_NO_SOURCES.

Definition user_str : pstr := [29992%N; 25143%N].            (* 用户 *)
Definition assistant_str : pstr := [21161%N; 25163%N].       (* 助手 *)
Definition kb_header : pstr :=                               (* 【知识库资料】 *)
  [12304%N; 30693%N; 35782%N; 24211%N; 36164%N; 26009%N; 12305%N].
Definition history_header : pstr :=                          (* 【对话历史】 *)
  [12304%N; 23545%N; 35805%N; 21382%N; 21490%N; 12305%N].
Definition question_header : pstr :=                        (* 【用户问题】 *)
  [12304%N; 29992%N; 25143%N; 38382%N; 39064%N; 12305%N].
Definition answer_request : pstr :=              (* 请根据以上知识库资料回答用户的问题。 *)
  [35831%N; 26681%N; 25454%N; 20197%N; 19978%N; 30693%N; 35782%N; 24211%N; 36164%N;
   26009%N; 22238%N; 31572%N; 29992%N; 25143%N; 30340%N; 38382%N; 39064%N; 12290%N].
Definition label_open : pstr := [91%N; 36164%N; 26009%N].     (* [资料 *)
Definition label_close : pstr := [93%N; 32%N; 26469%N; 28304%N; 65306%N]. (* ] 来源： *)
Definition part_sep : pstr := of_string "

---

".

(** [history[-6:]] *)
Definition last6 {A : Type} (l : list A) : list A := skipn (length l - 6) l.

(** [f"{role}: {msg.get('content', '')}"] *)
Definition history_line (m : hist_msg) : pstr :=
  let role := match h_role m with
              | Some r => if bool_decide (r = of_string "user") then user_str else assistant_str
              | None => assistant_str
              end in
  role ++ of_string ": " ++ match h_content m with Some c => c | None => [] end.

Definition history_text (history : list hist_msg) : pstr :=
  match history with
  | [] => []
  | _ => join [Chunker.nl] (List.map history_line (last6 history))
  end.

(** [f"[资料{i + 1}] 来源：{source.name}\n{source.content}"] *)
Definition source_block (i : nat) (s : SourceItem) : pstr :=
  label_open ++ str_of_int (Z.of_nat i + 1) ++ label_close ++ name s ++ [Chunker.nl] ++ content s.

(** [_build_prompts(message, history, sources)] *)
Definition build_prompts (message : pstr) (history : list hist_msg) (sources : list SourceItem)
    : system_prompt * pstr :=
  let ht := history_text history in
  match sources with
  | _ :: _ =>
      let context := join part_sep (Chunker.enum_map source_block 0 sources) in
      (SYSTEM_PROMPT_WITH_SOURCES,
       kb_header ++ [Chunker.nl] ++ context ++ [Chunker.nl; Chunker.nl]
       ++ (match ht with [] => [] | _ => history_header ++ [Chunker.nl] ++ ht ++ [Chunker.nl; Chunker.nl] end)
       ++ question_header ++ [Chunker.nl] ++ message ++ [Chunker.nl; Chunker.nl] ++ answer_request)
  | [] =>
      (SYSTEM_PROMPT_NO_SOURCES,
       (match ht with [] => [] | _ => history_header ++ [Chunker.nl] ++ ht ++ [Chunker.nl; Chunker.nl] end)
       ++ question_header ++ [Chunker.nl] ++ message)
  end.

End Prompts.

(* ------------------------------------------------------------------ *)
(** ** Query router (router.py) *)

Module Router.
Import Retriever Chat.

(** [QueryType.DETAIL] and [QueryType.GLOBAL] *)
Inductive QueryType := QT_DETAIL | QT_GLOBAL.

(** The doubles 0.7, 0.3, 0.9 and 0.1. *)
Definition f0_7 : Q := 3152519739159347 # 4503599627370496.
Definition f0_3 : Q := 5404319552844595 # 18014398509481984.
Definition f0_9 : Q := 8106479329266893 # 9007199254740992.
Definition f0_1 : Q := 3602879701896397 # 36028797018963968.

(** [ROUTE_CHOICES["DETAIL"]] and [ROUTE_CHOICES["GLOBAL"]]: query type,
    index type and retrieval parameters. *)
Definition choice_detail : QueryType * IndexType * RetrievalParams :=
  (QT_DETAIL, DETAIL, {| rp_top_k := 5; rp_vector_weight := f0_7; rp_bm25_weight := f0_3;
                         rp_use_large_chunk := true |}).
Definition choice_global : QueryType * IndexType * RetrievalParams :=
  (QT_GLOBAL, SUMMARY, {| rp_top_k := 3; rp_vector_weight := f0_9; rp_bm25_weight := f0_1;
                          rp_use_large_chunk := false |}).

(** What the routing LLM gives: an exception of [llm.invoke], a reply the
    Pydantic parser accepts (its [index_type] field), or a reply it
    rejects (the stripped reply text). *)
Inductive route_outcome :=
| RouteRaises
| RouteParsed (index_type : pstr)
| RouteUnparsed (result_text : pstr).

Section Route.
(** [str.upper], a function of the Unicode database. *)
Variable upper : pstr -> pstr.

(** [QueryRouter.route] *)
Definition route (o : route_outcome) : QueryType * IndexType * RetrievalParams :=
  match o with
  | RouteRaises => choice_detail
  | RouteParsed it =>
      let s := upper it in
      if bool_decide (s = of_string "DETAIL") then choice_detail
      else if bool_decide (s = of_string "GLOBAL") then choice_global
      else choice_detail
  | RouteUnparsed txt =>
      if Summarizer.contains (of_string "GLOBAL") (upper txt)
         || Summarizer.contains [25688%N; 35201%N] txt      (* 摘要 *)
         || Summarizer.contains [24635%N; 32467%N] txt      (* 总结 *)
      then choice_global else choice_detail
  end.
End Route.

End Router.

(* ================================================================== *)
(** * Proofs *)

(* ------------------------------------------------------------------ *)
(** ** Stable sort *)

Module StableSortFacts.

Section Facts.
Context {A : Type} (before : A -> A -> bool).

Lemma insert_by_perm x l : Permutation (insert_by before x l) (x :: l).
Proof.
  induction l as [|y l IH]; simpl; [reflexivity|].
  destruct (before y x); [|reflexivity].
  rewrite IH. apply perm_swap.
Qed.

Lemma sort_by_fold_perm l acc :
  Permutation (List.fold_left (fun acc x => insert_by before x acc) l acc) (l ++ acc).
Proof.
  revert acc; induction l as [|x l IH]; intros acc; simpl; [reflexivity|].
  rewrite IH, insert_by_perm. symmetry. apply Permutation_middle.
Qed.

Lemma sort_by_perm l : Permutation (sort_by before l) l.
Proof. unfold sort_by. rewrite sort_by_fold_perm. rewrite app_nil_r. reflexivity. Qed.

Hypothesis before_total : forall x y, before x y = false -> before y x = true.

Let R := fun a b => before a b = true.

Lemma insert_by_sorted x l : Sorted R l -> Sorted R (insert_by before x l).
Proof.
  induction 1 as [|y l Hs IH Hhd]; simpl.
  - constructor; constructor.
  - destruct (before y x) eqn:E.
    + constructor; [exact IH|].
      destruct l as [|z l]; simpl.
      * constructor. exact E.
      * inversion Hhd; subst. destruct (before z x); constructor; [assumption|exact E].
    + constructor; [constructor; assumption|]. constructor. apply before_total. exact E.
Qed.

Lemma sort_by_sorted l : Sorted R (sort_by before l).
Proof.
  unfold sort_by.
  assert (H : forall acc, Sorted R acc ->
    Sorted R (List.fold_left (fun acc x => insert_by before x acc) l acc)).
  { induction l as [|x l IH]; intros acc Hacc; simpl; [exact Hacc|].
    apply IH, insert_by_sorted, Hacc. }
  apply H. constructor.
Qed.

End Facts.



End StableSortFacts.

(* ------------------------------------------------------------------ *)
(** ** Strictly sorted lists of Python ints *)

Module ZListFacts.


Lemma le_nodup_lt (l : list Z) :
  StronglySorted Z.le l -> List.NoDup l -> StronglySorted Z.lt l.
Proof.
  induction l as [|a l IH]; intros Hs Hn; [constructor|].
  apply StronglySorted_inv in Hs as [Hs F].
  inversion Hn as [|? ? Ha Hn']; subst.
  constructor; [apply IH; assumption|].
  rewrite List.Forall_forall in *. intros y Hy.
  assert (a <> y) by (intros ->; contradiction). specialize (F y Hy). lia.
Qed.




Lemma existsb_eqb_In (x : Z) (l : list Z) : existsb (Z.eqb x) l = true <-> In x l.
Proof.
  rewrite existsb_exists. split.
  - intros [y [Hy E]]. apply Z.eqb_eq in E. subst; assumption.
  - intros H. exists x. split; [assumption|apply Z.eqb_refl].
Qed.

End ZListFacts.

(* ------------------------------------------------------------------ *)
(** ** Citation reconciler *)

Module CitationFacts.
Import Citation ZListFacts.






(** The values [int()] reads from a list of matches. *)
Definition read_values (ms : list pstr) : list Z :=
  List.flat_map (fun ds => match py_int ds with Some v => [v] | None => [] end) ms.

Lemma collect_cited_in (len : Z) (seen : list Z) (ms : list pstr) (x : Z) :
  In x (collect_cited len seen ms) <->
  0 <= x < len /\ In (x + 1) (read_values ms) /\ ~ In x seen.
Proof.
  revert seen; induction ms as [|m ms IH]; intros seen; simpl; [tauto|].
  destruct (py_int m) as [v|]; [|apply IH].
  set (idx := v - 1).
  destruct ((0 <=? idx) && (idx <? len) && negb (existsb (Z.eqb idx) seen)) eqn:E.
  - apply andb_true_iff in E as [E E3]. apply andb_true_iff in E as [E1 E2].
    apply Z.leb_le in E1. apply Z.ltb_lt in E2. apply negb_true_iff in E3.
    assert (Hs : ~ In idx seen).
    { intros H. apply existsb_eqb_In in H. congruence. }
    simpl. rewrite IH. simpl. split.
    + intros [<-|(Hr & Hin & Hn)]; [unfold idx in *; split; [lia|split; [left; lia|exact Hs]]|].
      split; [exact Hr|split; [right; exact Hin|tauto]].
    + intros (Hr & [Hm|Hin] & Hn); [left; unfold idx; lia|].
      destruct (Z.eq_dec idx x) as [<-|Hne]; [left; reflexivity|right].
      split; [exact Hr|split; [exact Hin|intros [H|H]; [contradiction|contradiction]]].
  - rewrite IH. split.
    + intros (Hr & Hin & Hn). split; [exact Hr|split; [right; exact Hin|exact Hn]].
    + intros (Hr & [Hm|Hin] & Hn); [|tauto].
      exfalso. assert (Hx : x = idx) by (unfold idx; lia). subst x.
      apply Bool.not_true_iff_false in E. apply E.
      apply andb_true_iff; split; [apply andb_true_iff; split|].
      * apply Z.leb_le. lia.
      * apply Z.ltb_lt. lia.
      * apply negb_true_iff. apply Bool.not_true_iff_false. intros H.
        apply existsb_eqb_In in H. contradiction.
Qed.













Section Used.
Context {Source : Type}.



End Used.

(** The body of [_filter_used_sources] after its early returns: they
    are taken exactly when nothing is cited. *)
Lemma filter_used_sources_body {Source} (answer : pstr) (sources : list Source) :
  let len := Z.of_nat (length sources) in
  let sorted := sort_Z (collect_cited len [] (findall answer)) in
  filter_used_sources answer sources =
  match collect_cited len [] (findall answer) with
  | [] => Some (answer, [])
  | _ =>
      match sub_all (replace_citation (build_map 1 sorted)) (tokenize answer) with
      | None => None
      | Some ts => Some (untokenize ts, List.flat_map (pick sources) sorted)
      end
  end.
Proof.
  cbv zeta.
  destruct sources as [|s0 srest] eqn:Es.
  - destruct (collect_cited _ [] (findall answer)) as [|x l] eqn:Ec; [reflexivity|].
    exfalso. assert (Hx : In x (collect_cited (Z.of_nat (length (@nil Source))) [] (findall answer)))
      by (rewrite Ec; left; reflexivity).
    apply collect_cited_in in Hx. simpl in Hx. lia.
  - unfold filter_used_sources. destruct (findall answer) as [|m ms] eqn:Ef; [reflexivity|].
    destruct (collect_cited _ [] (m :: ms)); reflexivity.
Qed.

End CitationFacts.

(* ------------------------------------------------------------------ *)
(** ** Claims about the citation reconciler *)

Import Citation.



(* ------------------------------------------------------------------ *)
(** ** Chunker *)

Module ChunkerFacts.
Import Chunker.

Lemma split_into_chunks_nonempty (text : pstr) (size : Z) :
  split_into_chunks text size <> [].
Proof.
  unfold split_into_chunks.
  destruct (List.fold_left _ _ _) as [chunks cur].
  destruct (if nonblank cur then _ else _); discriminate.
Qed.

Lemma re_split_concat (cur s : pstr) :
  List.concat (pair_up (re_split_aux cur s)) = rev cur ++ s.
Proof.
  revert cur; induction s as [|c s IH]; intros cur; simpl.
  - now rewrite !app_nil_r.
  - destruct (is_term c); simpl.
    + rewrite IH. simpl. now rewrite <- app_assoc.
    + rewrite IH. simpl. now rewrite <- app_assoc.
Qed.

Lemma re_split_terminated (cur s : pstr) :
  Forall (fun x => ends_with is_term x = true) (removelast (pair_up (re_split_aux cur s))).
Proof.
  revert cur; induction s as [|c s IH]; intros cur; simpl; [constructor|].
  destruct (is_term c) eqn:Ec; [|apply IH].
  simpl. specialize (IH []).
  destruct (pair_up (re_split_aux [] s)) as [|y ys] eqn:Ep.
  - exfalso. destruct s; simpl in Ep; [discriminate|]. destruct (is_term c0); simpl in Ep.
    + discriminate.
    + assert (H := re_split_concat [c0] s). rewrite Ep in H. simpl in H. discriminate.
  - constructor; [|exact IH].
    unfold ends_with. rewrite rev_app_distr. simpl. exact Ec.
Qed.

Lemma sentence_fold_concat (size : Z) (sents chunks : list pstr) (buf : pstr) :
  let '(chunks', buf') := List.fold_left (sentence_step size) sents (chunks, buf) in
  List.concat chunks' ++ buf' = List.concat chunks ++ buf ++ List.concat sents.
Proof.
  revert chunks buf; induction sents as [|s sents IH]; intros chunks buf; simpl.
  - now rewrite app_nil_r.
  - destruct (zlen buf + zlen s <=? size).
    + specialize (IH chunks (buf ++ s)). destruct (List.fold_left _ _ _).
      rewrite IH. now rewrite <- !app_assoc.
    + specialize (IH (match buf with [] => chunks | _ => chunks ++ [buf] end) s).
      destruct (List.fold_left _ _ _). rewrite IH.
      destruct buf as [|b buf']; simpl.
      * reflexivity.
      * rewrite List.concat_app. simpl. now rewrite app_nil_r, <- !app_assoc.
Qed.

Lemma split_by_sentences_concat (text : pstr) (size : Z) :
  List.concat (split_by_sentences text size) = text.
Proof.
  unfold split_by_sentences, re_split_terms.
  pose proof (sentence_fold_concat size (pair_up (re_split_aux [] text)) [] []) as H.
  destruct (List.fold_left _ _ _) as [chunks buf].
  rewrite re_split_concat in H. simpl in H.
  destruct buf as [|b buf]; [now rewrite app_nil_r in H|].
  rewrite List.concat_app. simpl. now rewrite app_nil_r.
Qed.

Lemma ends_with_app (p : char -> bool) (x y : pstr) :
  ends_with p y = true -> ends_with p (x ++ y) = true.
Proof.
  unfold ends_with. rewrite rev_app_distr.
  destruct (rev y); [discriminate|]. simpl. auto.
Qed.

Lemma sentence_fold_terminated (size : Z) (sents chunks : list pstr) (buf : pstr) (last : pstr) :
  Forall (fun x => ends_with is_term x = true) chunks ->
  (buf = [] \/ ends_with is_term buf = true) ->
  Forall (fun x => ends_with is_term x = true) sents ->
  let '(chunks', buf') := List.fold_left (sentence_step size) (sents ++ [last]) (chunks, buf) in
  Forall (fun x => ends_with is_term x = true) chunks'.
Proof.
  revert chunks buf; induction sents as [|s sents IH]; intros chunks buf Hc Hb Hs; simpl.
  - destruct (zlen buf + zlen last <=? size); [exact Hc|].
    destruct buf as [|b buf']; [exact Hc|].
    apply Forall_app; split; [exact Hc|]. constructor; [|constructor].
    destruct Hb as [Hb|Hb]; [discriminate|exact Hb].
  - inversion Hs as [|? ? Hs1 Hs2]; subst.
    destruct (zlen buf + zlen s <=? size).
    + apply IH; [exact Hc| |exact Hs2]. right. apply ends_with_app, Hs1.
    + apply IH; [| right; exact Hs1 | exact Hs2].
      destruct buf as [|b buf']; [exact Hc|].
      apply Forall_app; split; [exact Hc|]. constructor; [|constructor].
      destruct Hb as [Hb|Hb]; [discriminate|exact Hb].
Qed.

Lemma in_removelast_in {A : Type} (x : A) (l : list A) : In x (removelast l) -> In x l.
Proof.
  induction l as [|a l IH]; simpl; [tauto|].
  destruct l as [|b l]; [intros []|]. intros [->|H]; [left; reflexivity|right; apply IH, H].
Qed.

Lemma split_by_sentences_terminated (text : pstr) (size : Z) :
  Forall (fun x => ends_with is_term x = true) (removelast (split_by_sentences text size)).
Proof.
  unfold split_by_sentences, re_split_terms.
  pose proof (re_split_terminated [] text) as Ht.
  assert (Hne : pair_up (re_split_aux [] text) <> []).
  { intros H. pose proof (re_split_concat [] text) as Hc. rewrite H in Hc.
    destruct text as [|c t]; [simpl in H; discriminate|simpl in Hc; discriminate]. }
  destruct (exists_last Hne) as [sents [last Hl]].
  rewrite Hl in Ht |- *. rewrite removelast_last in Ht.
  pose proof (sentence_fold_terminated size sents [] [] last (List.Forall_nil _)
                (or_introl eq_refl) Ht) as H.
  destruct (List.fold_left _ _ _) as [chunks buf].
  destruct buf as [|b buf]; [|rewrite removelast_last; exact H].
  apply List.Forall_forall. intros x Hx. apply in_removelast_in in Hx.
  rewrite List.Forall_forall in H. apply H, Hx.
Qed.

(** Every piece of [_split_by_sentences] is non-empty and either fits in
    [chunk_size] or is a single sentence of the text. *)
Lemma sentence_fold_fit (size : Z) (sents : list pstr) (l : list pstr) :
  forall chunks buf,
  (forall x, In x l -> In x sents) ->
  (forall c, In c chunks -> c <> [] /\ (zlen c <= size \/ In c sents)) ->
  (buf = [] \/ zlen buf <= size \/ In buf sents) ->
  let '(chunks', buf') := List.fold_left (sentence_step size) l (chunks, buf) in
  (forall c, In c chunks' -> c <> [] /\ (zlen c <= size \/ In c sents)) /\
  (buf' = [] \/ zlen buf' <= size \/ In buf' sents).
Proof.
  induction l as [|x l IH]; intros chunks buf Hl Hc Hb; [split; assumption|].
  change (List.fold_left (sentence_step size) (x :: l) (chunks, buf)) with
    (List.fold_left (sentence_step size) l (sentence_step size (chunks, buf) x)).
  assert (Hst : sentence_step size (chunks, buf) x =
    if zlen buf + zlen x <=? size then (chunks, buf ++ x)
    else ((match buf with [] => chunks | _ => chunks ++ [buf] end), x)) by reflexivity.
  rewrite Hst.
  destruct (zlen buf + zlen x <=? size) eqn:E.
  - apply IH; [intros y Hy; apply Hl; right; exact Hy|exact Hc|].
    right; left. unfold zlen in *. rewrite List.length_app. apply Z.leb_le in E. lia.
  - apply IH; [intros y Hy; apply Hl; right; exact Hy| |right; right; apply Hl; left; reflexivity].
    destruct buf as [|b0 bs]; [exact Hc|].
    intros c Hin. apply in_app_or in Hin as [Hin|[<-|[]]]; [exact (Hc c Hin)|].
    split; [discriminate|]. destruct Hb as [Hb|Hb]; [discriminate Hb|exact Hb].
Qed.

Lemma split_by_sentences_fit (text : pstr) (size : Z) :
  forall c, In c (split_by_sentences text size) ->
  c <> [] /\ (zlen c <= size \/ In c (pair_up (re_split_terms text))).
Proof.
  unfold split_by_sentences.
  pose proof (sentence_fold_fit size (pair_up (re_split_terms text))
                (pair_up (re_split_terms text)) [] [] (fun x H => H)
                (fun c H => match H with end) (or_introl eq_refl)) as H.
  destruct (List.fold_left _ _ _) as [chunks buf]. destruct H as [Hc Hb].
  destruct buf as [|b0 bs]; [exact Hc|].
  intros c Hin. apply in_app_or in Hin as [Hin|[<-|[]]]; [exact (Hc c Hin)|].
  split; [discriminate|]. destruct Hb as [Hb|Hb]; [discriminate Hb|exact Hb].
Qed.

(** [_split_into_chunks] only ever appends to [chunks]. *)
Lemma chunk_step_extends (size : Z) (st : list pstr * pstr) (u : sunit) :
  exists e, fst (chunk_step size st u) = fst st ++ e.
Proof.
  destruct st as [cs cur]. unfold chunk_step.
  destruct (is_major_heading u && nonblank cur); [eexists; reflexivity|].
  destruct (zlen cur + zlen (utext u) + 2 <=? size); [exists []; simpl; now rewrite app_nil_r|].
  destruct (nonblank cur); destruct (size <? zlen (utext u)); simpl;
    first [eexists; reflexivity
          | eexists; rewrite <- app_assoc; reflexivity
          | exists []; now rewrite app_nil_r].
Qed.

Lemma chunk_fold_extends (size : Z) (us : list sunit) (st : list pstr * pstr) :
  exists ext, fst (List.fold_left (chunk_step size) us st) = fst st ++ ext.
Proof.
  revert st; induction us as [|u us IH]; intros st; simpl.
  - exists []. now rewrite app_nil_r.
  - destruct (chunk_step_extends size st u) as [e1 H1].
    destruct (IH (chunk_step size st u)) as [e2 H2].
    exists (e1 ++ e2). rewrite H2, H1, app_assoc. reflexivity.
Qed.

(** A text that parses to one unit longer than the target size goes
    through [_split_by_sentences] whole. *)
Lemma split_single_unit (text : pstr) (size : Z) (u : sunit) :
  parse_semantic_units text = [u] -> 0 <= size < zlen (utext u) ->
  split_into_chunks text size = split_by_sentences (utext u) size.
Proof.
  intros Hp Hs. unfold split_into_chunks. rewrite Hp. simpl.
  unfold chunk_step. rewrite andb_false_r.
  replace (zlen [] + zlen (utext u) + 2 <=? size) with false
    by (symmetry; apply Z.leb_gt; unfold zlen in *; simpl; lia).
  replace (size <? zlen (utext u)) with true by (symmetry; apply Z.ltb_lt; lia).
  simpl. destruct (split_by_sentences (utext u) size) eqn:E; [|reflexivity].
  exfalso. pose proof (split_by_sentences_concat (utext u) size) as Hc.
  rewrite E in Hc. simpl in Hc. rewrite <- Hc in Hs. unfold zlen in Hs. simpl in Hs. lia.
Qed.

Lemma map_enum_map {A B C : Type} (h : B -> C) (f : nat -> A -> B) (i : nat) (l : list A) :
  List.map h (enum_map f i l) = enum_map (fun j x => h (f j x)) i l.
Proof. revert i; induction l as [|x l IH]; intros i; simpl; [reflexivity|]. now rewrite IH. Qed.

Lemma enum_map_ext {A B : Type} (f g : nat -> A -> B) (i : nat) (l : list A) :
  (forall j x, f j x = g j x) -> enum_map f i l = enum_map g i l.
Proof. intros H; revert i; induction l as [|x l IH]; intros i; simpl; [reflexivity|]. now rewrite H, IH. Qed.

Lemma Forall_enum_map {A B : Type} (P : B -> Prop) (f : nat -> A -> B) (i : nat) (l : list A) :
  (forall j x, P (f j x)) -> Forall P (enum_map f i l).
Proof. intros H; revert i; induction l as [|x l IH]; intros i; simpl; constructor; auto. Qed.

Lemma Forall_concat_of {A : Type} (P : A -> Prop) (ls : list (list A)) :
  Forall (Forall P) ls -> Forall P (List.concat ls).
Proof.
  induction 1 as [|l ls Hl _ IH]; simpl; [constructor|].
  apply Forall_app; split; assumption.
Qed.

Definition chunk_text_and_id (c : ChunkWithContext) : pstr * pstr * pstr :=
  (small_chunk c, large_chunk c, chunk_id c).

Lemma chunks_depend_on_knowledge_id (cfg : chunker) (content : pstr) (md1 md2 : meta) :
  md1 !! "knowledge_id" = md2 !! "knowledge_id" ->
  List.map chunk_text_and_id (create_hierarchical_chunks cfg content md1) =
  List.map chunk_text_and_id (create_hierarchical_chunks cfg content md2).
Proof.
  intros Hk. unfold create_hierarchical_chunks.
  rewrite !concat_map, !map_enum_map. f_equal. apply enum_map_ext. intros j x.
  rewrite !map_enum_map. apply enum_map_ext. intros j' y.
  unfold chunk_text_and_id, make_chunk_id, knowledge_id_str. simpl. rewrite Hk. reflexivity.
Qed.

Lemma chunk_meta_copies (cfg : chunker) (content : pstr) (md : meta) :
  Forall (fun c => forall k, k <> "large_chunk_index"%string ->
            k <> "small_chunk_index"%string -> k <> "total_large_chunks"%string ->
            cmeta c !! k = md !! k)
    (create_hierarchical_chunks cfg content md).
Proof.
  unfold create_hierarchical_chunks. apply Forall_concat_of.
  apply Forall_enum_map. intros j x. apply Forall_enum_map. intros j' y k H1 H2 H3.
  simpl. unfold chunk_meta. rewrite !lookup_insert_ne by congruence. reflexivity.
Qed.

Lemma enum_map_const_seq {A B : Type} (f : nat -> B) (k : nat) (l : list A) :
  enum_map (fun j _ => f j) k l = List.map f (seq k (length l)).
Proof. revert k; induction l as [|x l IH]; intros k; simpl; [reflexivity|]. now rewrite IH. Qed.

Lemma chunk_meta_index_keys (md : meta) (i j t : nat) :
  chunk_meta md i j t !! "large_chunk_index" = Some (MInt (Z.of_nat i))
  /\ chunk_meta md i j t !! "small_chunk_index" = Some (MInt (Z.of_nat j))
  /\ chunk_meta md i j t !! "total_large_chunks" = Some (MInt (Z.of_nat t)).
Proof.
  unfold chunk_meta. split; [|split].
  - rewrite !lookup_insert_ne by congruence. apply lookup_insert_eq.
  - rewrite lookup_insert_ne by congruence. apply lookup_insert_eq.
  - apply lookup_insert_eq.
Qed.

Lemma chunk_meta_ext (md1 md2 : meta) (i j t : nat) :
  (forall k, k <> "large_chunk_index"%string -> k <> "small_chunk_index"%string ->
             k <> "total_large_chunks"%string -> md1 !! k = md2 !! k) ->
  chunk_meta md1 i j t = chunk_meta md2 i j t.
Proof.
  intros H. apply map_eq. intros k. unfold chunk_meta. rewrite !lookup_insert.
  repeat case_decide; try reflexivity. apply H; congruence.
Qed.

Lemma create_hierarchical_chunks_nonempty (cfg : chunker) (content : pstr) (md : meta) :
  create_hierarchical_chunks cfg content md <> [].
Proof.
  unfold create_hierarchical_chunks.
  destruct (split_into_chunks (replace_cr (replace_crlf content)) (large_chunk_size cfg))
    as [|l ls] eqn:E; [exfalso; eapply split_into_chunks_nonempty; exact E|].
  simpl. destruct (split_into_chunks l (small_chunk_size cfg)) as [|s ss] eqn:E2;
    [exfalso; eapply split_into_chunks_nonempty; exact E2|].
  simpl. discriminate.
Qed.

End ChunkerFacts.

(* ------------------------------------------------------------------ *)
(** ** Claims about the chunker and the ingest path *)

Import Chunker Ingest.

(** C3 (counterexample): the chunker's unit parser does not recognise
    fenced code blocks: a fence of 327 characters is one paragraph unit
    and is sentence-split into several small chunks instead of being
    kept intact. *)
Lemma chunker_code_fence_split :
  let code := of_string "```" ++ [nl] ++
              List.concat (List.repeat (of_string "x = a.b" ++ [nl]) 40) ++
              of_string "```" in
  parse_semantic_units code = [para code] /\
  small_chunk_size default_chunker < zlen code /\
  (1 < length (split_into_chunks code (small_chunk_size default_chunker)))%nat /\
  (1 < length (create_hierarchical_chunks default_chunker code ∅))%nat.
Proof.
  intros code.
  split; [vm_compute; reflexivity|].
  split; [vm_compute; reflexivity|].
  split; apply Nat.ltb_lt; vm_compute; reflexivity.
Qed.

(** C3 (amended): in [_split_into_chunks], take any semantic unit [u]
    of the text longer than the target size, after the units [us1]
    (whose loop leaves the state [(chunks, current_chunk)]).  Unless [u]
    is a heading of level 1 or 2 arriving while the current chunk is not
    blank, the current chunk is saved and [u] is replaced by the pieces of
    [_split_by_sentences], which appear consecutively in the output.  Such
    a major heading instead starts the next chunk whole, unsplit.  The
    pieces join back to [u]; every piece but the last ends with one of the
    terminators 。！？.!? kept with its sentence; every piece is non-empty
    and either fits in the size or is a single sentence of [u]. *)
Theorem chunker_oversized_unit_sentence_split (text : pstr) (size : Z)
    (us1 us2 : list sunit) (u : sunit) :
  parse_semantic_units text = us1 ++ u :: us2 -> 0 <= size < zlen (utext u) ->
  let '(chunks, cur) := List.fold_left (chunk_step size) us1 ([], []) in
  List.fold_left (chunk_step size) (us1 ++ [u]) ([], []) =
    (if is_major_heading u && nonblank cur
     then (chunks ++ [strip cur], utext u ++ [nl; nl])
     else ((if nonblank cur then chunks ++ [strip cur] else chunks)
           ++ split_by_sentences (utext u) size, []))
  /\ (is_major_heading u && nonblank cur = false ->
      exists pre post, split_into_chunks text size =
                       pre ++ split_by_sentences (utext u) size ++ post)
  /\ List.concat (split_by_sentences (utext u) size) = utext u
  /\ Forall (fun x => ends_with is_term x = true)
       (removelast (split_by_sentences (utext u) size))
  /\ (forall c, In c (split_by_sentences (utext u) size) ->
       c <> [] /\ (zlen c <= size \/ In c (pair_up (re_split_terms (utext u))))).
Proof.
  intros Hp Hs.
  assert (Hne : split_by_sentences (utext u) size <> []).
  { intros E. pose proof (ChunkerFacts.split_by_sentences_concat (utext u) size) as Hc.
    rewrite E in Hc. simpl in Hc. rewrite <- Hc in Hs. unfold zlen in Hs. simpl in Hs. lia. }
  destruct (List.fold_left (chunk_step size) us1 ([], [])) as [chunks cur] eqn:E1.
  assert (Hstep : List.fold_left (chunk_step size) (us1 ++ [u]) ([], []) =
    (if is_major_heading u && nonblank cur
     then (chunks ++ [strip cur], utext u ++ [nl; nl])
     else ((if nonblank cur then chunks ++ [strip cur] else chunks)
           ++ split_by_sentences (utext u) size, []))).
  { rewrite List.fold_left_app, E1. simpl. unfold chunk_step.
    destruct (is_major_heading u && nonblank cur); [reflexivity|].
    replace (zlen cur + zlen (utext u) + 2 <=? size) with false
      by (symmetry; apply Z.leb_gt; unfold zlen in *; lia).
    replace (size <? zlen (utext u)) with true by (symmetry; apply Z.ltb_lt; lia).
    reflexivity. }
  split; [exact Hstep|].
  split; [|split; [apply ChunkerFacts.split_by_sentences_concat|
                   split; [apply ChunkerFacts.split_by_sentences_terminated|
                           apply ChunkerFacts.split_by_sentences_fit]]].
  intros Hb. rewrite Hb in Hstep.
  set (pre := if nonblank cur then chunks ++ [strip cur] else chunks) in Hstep.
  unfold split_into_chunks. rewrite Hp.
  replace (us1 ++ u :: us2) with ((us1 ++ [u]) ++ us2) by (rewrite <- app_assoc; reflexivity).
  rewrite List.fold_left_app, Hstep.
  destruct (ChunkerFacts.chunk_fold_extends size us2
              (pre ++ split_by_sentences (utext u) size, [])) as [ext He].
  destruct (List.fold_left (chunk_step size) us2 _) as [cf cur'] eqn:Ef.
  simpl in He. subst cf.
  exists pre.
  destruct (nonblank cur').
  - exists (ext ++ [strip cur']).
    rewrite <- !app_assoc.
    destruct (pre ++ split_by_sentences (utext u) size ++ ext ++ [strip cur']) eqn:En.
    + destruct pre; [|discriminate]. destruct (split_by_sentences (utext u) size); [|discriminate]. contradiction.
    + reflexivity.
  - exists ext.
    rewrite <- !app_assoc.
    destruct (pre ++ split_by_sentences (utext u) size ++ ext) eqn:En.
    + destruct pre; [|discriminate]. destruct (split_by_sentences (utext u) size); [|discriminate]. contradiction.
    + reflexivity.
Qed.

Lemma chunker_oversized_unit_sentence_split_witness :
  let text := of_string "p" ++ [nl; nl] ++ of_string "```" ++ [nl] ++
              List.concat (List.repeat (of_string "x = a.b" ++ [nl]) 40) ++
              of_string "```" in
  let fence := of_string "```" ++ [nl] ++
               List.concat (List.repeat (of_string "x = a.b" ++ [nl]) 40) ++
               of_string "```" in
  parse_semantic_units text = [para (of_string "p")] ++ para fence :: [] /\
  0 <= 256 < zlen (utext (para fence)) /\
  exists pre post, split_into_chunks text 256 =
                   pre ++ split_by_sentences (utext (para fence)) 256 ++ post.
Proof.
  intros text fence.
  assert (Hp : parse_semantic_units text = [para (of_string "p")] ++ para fence :: [])
    by (vm_compute; reflexivity).
  assert (Hs : 0 <= 256 < zlen (utext (para fence)))
    by (vm_compute; split; [discriminate|reflexivity]).
  split; [exact Hp|]. split; [exact Hs|].
  pose proof (chunker_oversized_unit_sentence_split text 256 [para (of_string "p")] []
                (para fence) Hp Hs) as H.
  vm_compute in H. destruct H as [_ [H _]]. apply H. reflexivity.
Defined.

(** C8 (counterexample): the chunks carry a copy of the whole input
    metadata, so two runs on the same text with the same knowledge_id but
    a different document name give different chunk lists. *)
Lemma chunk_lists_differ_with_metadata :
  let md1 := <["name" := MStr (of_string "a")]>
               (<["knowledge_id" := MStr (of_string "k")]> (∅ : meta)) in
  let md2 := <["name" := MStr (of_string "b")]>
               (<["knowledge_id" := MStr (of_string "k")]> (∅ : meta)) in
  md1 !! "knowledge_id" = md2 !! "knowledge_id" /\
  create_hierarchical_chunks default_chunker (of_string "x") md1 <>
  create_hierarchical_chunks default_chunker (of_string "x") md2.
Proof.
  intros md1 md2. split; [vm_compute; reflexivity|].
  intros H.
  apply (f_equal (fun l => match l with c :: _ => cmeta c !! "name" | [] => None end)) in H.
  vm_compute in H. discriminate.
Qed.

(** C8 (amended): chunking is deterministic in the text and the
    knowledge_id: two runs on the same text whose metadata have the same
    knowledge_id give, in document order, the same small texts, large
    texts and chunk_ids.  Chunk [(i, j)] (the [j]-th small chunk of the
    [i]-th large chunk, in that order) gets the id
    [f"{knowledge_id}_{i}_{j}"] and the metadata of the input with
    [large_chunk_index = i], [small_chunk_index = j] and
    [total_large_chunks] = the number of large chunks set; so two runs on
    the same text give identical chunk lists exactly when the two metadata
    agree on every key but these three. *)
Theorem chunk_ids_deterministic (cfg : chunker) (content : pstr) (md1 md2 : meta) :
  let larges := split_into_chunks (replace_cr (replace_crlf content)) (large_chunk_size cfg) in
  let index_key k := k = "large_chunk_index"%string \/ k = "small_chunk_index"%string
                     \/ k = "total_large_chunks"%string in
  (md1 !! "knowledge_id" = md2 !! "knowledge_id" ->
   List.map ChunkerFacts.chunk_text_and_id (create_hierarchical_chunks cfg content md1) =
   List.map ChunkerFacts.chunk_text_and_id (create_hierarchical_chunks cfg content md2))
  /\ (create_hierarchical_chunks cfg content md1 = create_hierarchical_chunks cfg content md2
      <-> forall k, ~ index_key k -> md1 !! k = md2 !! k)
  /\ List.map (fun c => (cmeta c !! "large_chunk_index", cmeta c !! "small_chunk_index",
                         cmeta c !! "total_large_chunks"))
       (create_hierarchical_chunks cfg content md1)
     = List.concat (enum_map (fun i l =>
         List.map (fun j => (Some (MInt (Z.of_nat i)), Some (MInt (Z.of_nat j)),
                             Some (MInt (Z.of_nat (length larges)))))
           (seq 0 (length (split_into_chunks l (small_chunk_size cfg))))) 0 larges)
  /\ Forall (fun c => (forall k, ~ index_key k -> cmeta c !! k = md1 !! k)
       /\ exists i j, cmeta c !! "large_chunk_index" = Some (MInt i)
                 /\ cmeta c !! "small_chunk_index" = Some (MInt j)
                 /\ chunk_id c = knowledge_id_str md1 ++ underscore ++ str_of_int i
                                 ++ underscore ++ str_of_int j)
       (create_hierarchical_chunks cfg content md1).
Proof.
  intros larges index_key.
  assert (Hcopy : forall md, Forall (fun c => forall k, ~ index_key k -> cmeta c !! k = md !! k)
                               (create_hierarchical_chunks cfg content md)).
  { intros md. pose proof (ChunkerFacts.chunk_meta_copies cfg content md) as H0.
    rewrite List.Forall_forall in H0 |- *. intros c Hc k Hk.
    apply (H0 c Hc); intros ->; apply Hk; unfold index_key; tauto. }
  split; [intros Hk; exact (ChunkerFacts.chunks_depend_on_knowledge_id cfg content md1 md2 Hk)|].
  split; [|split].
  - split.
    + intros E k Hk.
      pose proof (ChunkerFacts.create_hierarchical_chunks_nonempty cfg content md1) as Hne.
      pose proof (Hcopy md1) as H1. pose proof (Hcopy md2) as H2. rewrite <- E in H2.
      destruct (create_hierarchical_chunks cfg content md1) as [|c cs]; [contradiction|].
      inversion H1 as [|? ? H1c _]; subst. inversion H2 as [|? ? H2c _]; subst.
      rewrite <- (H1c k Hk), (H2c k Hk). reflexivity.
    + intros H. unfold create_hierarchical_chunks.
      f_equal. apply ChunkerFacts.enum_map_ext. intros i l.
      apply ChunkerFacts.enum_map_ext. intros j x.
      assert (Hm : forall t, chunk_meta md1 i j t = chunk_meta md2 i j t).
      { intros t. apply ChunkerFacts.chunk_meta_ext. intros k H1 H2 H3.
        apply H. unfold index_key. tauto. }
      assert (Hid : make_chunk_id md1 i j = make_chunk_id md2 i j).
      { unfold make_chunk_id, knowledge_id_str.
        rewrite (H "knowledge_id"%string) by (unfold index_key; intros [E|[E|E]]; discriminate E).
        reflexivity. }
      rewrite Hm, Hid. reflexivity.
  - unfold create_hierarchical_chunks. fold larges.
    rewrite concat_map, ChunkerFacts.map_enum_map. f_equal.
    apply ChunkerFacts.enum_map_ext. intros i l.
    rewrite ChunkerFacts.map_enum_map. simpl.
    rewrite <- ChunkerFacts.enum_map_const_seq.
    apply ChunkerFacts.enum_map_ext. intros j x.
    destruct (ChunkerFacts.chunk_meta_index_keys md1 i j (length larges)) as (E1 & E2 & E3).
    rewrite E1, E2, E3. reflexivity.
  - pose proof (Hcopy md1) as Hc. rewrite List.Forall_forall in Hc |- *.
    intros c Hin. split; [exact (Hc c Hin)|].
    assert (Hid : Forall (fun c => exists i j, cmeta c !! "large_chunk_index" = Some (MInt i)
                 /\ cmeta c !! "small_chunk_index" = Some (MInt j)
                 /\ chunk_id c = knowledge_id_str md1 ++ underscore ++ str_of_int i
                                 ++ underscore ++ str_of_int j)
                 (create_hierarchical_chunks cfg content md1)).
    { unfold create_hierarchical_chunks. apply ChunkerFacts.Forall_concat_of.
      apply ChunkerFacts.Forall_enum_map. intros i l. apply ChunkerFacts.Forall_enum_map.
      intros j x. exists (Z.of_nat i), (Z.of_nat j). simpl.
      destruct (ChunkerFacts.chunk_meta_index_keys md1 i j
                  (length (split_into_chunks (replace_cr (replace_crlf content))
                             (large_chunk_size cfg)))) as (E1 & E2 & _).
      split; [exact E1|]. split; [exact E2|]. reflexivity. }
    rewrite List.Forall_forall in Hid. exact (Hid c Hin).
Qed.

(** C9: [create_hierarchical_chunks] returns at least one chunk for every
    content (empty and blank content included), so the zero-chunk branch
    of [_add_to_indexes] ([ValueError("文档分割失败")]) is never taken. *)
Theorem create_hierarchical_chunks_never_empty (cfg : chunker) (content : pstr) (md : meta) :
  create_hierarchical_chunks cfg content md <> [] /\
  exists chunks, chunk_for_ingest cfg content md = inr chunks.
Proof.
  pose proof (ChunkerFacts.create_hierarchical_chunks_nonempty cfg content md) as H.
  split; [exact H|].
  unfold chunk_for_ingest.
  destruct (create_hierarchical_chunks cfg content md) as [|c cs]; [contradiction|].
  eexists; reflexivity.
Qed.

(* ------------------------------------------------------------------ *)
(** ** Generic list facts *)

Module ListFacts.

Lemma strongly_sorted_app {A : Type} (R : A -> A -> Prop) (l1 l2 : list A) x y :
  StronglySorted R (l1 ++ l2) -> In x l1 -> In y l2 -> R x y.
Proof.
  induction l1 as [|a l1 IH]; simpl; [tauto|].
  intros Hs Hx Hy. apply StronglySorted_inv in Hs as [Hs F].
  destruct Hx as [<-|Hx]; [|apply IH; assumption].
  rewrite List.Forall_forall in F. apply F, in_or_app. right; exact Hy.
Qed.

Lemma nodup_firstn {A : Type} (n : nat) (l : list A) :
  List.NoDup l -> List.NoDup (firstn n l).
Proof.
  intros H. rewrite <- (firstn_skipn n l) in H. exact (List.NoDup_app_remove_r _ _ H).
Qed.

Lemma find_app {A : Type} (f : A -> bool) (l1 l2 : list A) :
  List.find f (l1 ++ l2) =
  match List.find f l1 with Some x => Some x | None => List.find f l2 end.
Proof.
  induction l1 as [|a l1 IH]; simpl; [reflexivity|].
  destruct (f a); [reflexivity|exact IH].
Qed.

Lemma find_none_iff {A : Type} (f : A -> bool) (l : list A) :
  List.find f l = None <-> forall x, In x l -> f x = false.
Proof.
  split; [apply find_none|].
  induction l as [|a l IH]; intros H; simpl; [reflexivity|].
  rewrite (H a (or_introl eq_refl)). apply IH. intros x Hx. apply H. right; exact Hx.
Qed.

(** Sorting on an integer key. *)
Lemma sort_by_key_sorted {A : Type} (key : A -> Z) (l : list A) :
  StronglySorted Z.le (List.map key (sort_by (fun y x => key y <=? key x) l)).
Proof.
  pose proof (StableSortFacts.sort_by_sorted (fun y x => key y <=? key x)) as H.
  assert (Ht : forall x y, (key x <=? key y) = false -> (key y <=? key x) = true).
  { intros x y E. apply Z.leb_gt in E. apply Z.leb_le. lia. }
  specialize (H Ht l).
  apply Sorted_StronglySorted; [intros a b c; lia|].
  induction H as [|a l0 Hs IH Hhd]; simpl; constructor; [exact IH|].
  destruct Hhd as [|b l1 Hb]; simpl; constructor. apply Z.leb_le. exact Hb.
Qed.

(** Sorting on a rational key, largest first. *)
Lemma sort_by_desc_sorted {A : Type} (key : A -> Q) (l : list A) :
  StronglySorted (fun a b => (key b <= key a)%Q)
    (sort_by (fun y x => Qle_bool (key x) (key y)) l).
Proof.
  pose proof (StableSortFacts.sort_by_sorted (fun y x => Qle_bool (key x) (key y))) as H.
  assert (Ht : forall x y, Qle_bool (key y) (key x) = false -> Qle_bool (key x) (key y) = true).
  { intros x y E. apply Qle_bool_iff.
    destruct (Qlt_le_dec (key x) (key y)) as [Hl|Hl]; [lra|].
    apply Qle_bool_iff in Hl. congruence. }
  specialize (H Ht l).
  apply Sorted_StronglySorted; [intros a b c Hab Hbc; simpl in *; lra|].
  induction H as [|a l0 Hs IH Hhd]; constructor; [exact IH|].
  destruct Hhd as [|b l1 Hb]; constructor. apply Qle_bool_iff. exact Hb.
Qed.

Lemma in_firstn {A : Type} (n : nat) (l : list A) (x : A) :
  In x (firstn n l) -> In x l.
Proof. intros H. rewrite <- (firstn_skipn n l). apply in_or_app. left. exact H. Qed.

End ListFacts.

(* ------------------------------------------------------------------ *)
(** ** Summary path of the retriever *)

Module SummaryFacts.
Import Retriever ListFacts.

Section Groups.
Variable vw : Q.

Let kidp (p : LCDocument * Q) : mval := kid_of (metadata (fst p)).
Let idxp (p : LCDocument * Q) : Z := chunk_index_of (metadata (fst p)).
Let norm (p : LCDocument * Q) : Q := normalized vw (snd p).

(** What a group built from the candidates [P] holds for document [k]. *)
Definition group_inv (P : ranked) (k : mval) (g : group) : Prop :=
  kid_of (gmeta g) = k
  /\ (exists p, In p P /\ kidp p = k /\ max_score g = norm p)
  /\ (forall p, In p P -> kidp p = k -> (norm p <= max_score g)%Q)
  /\ List.NoDup (List.map c_index (chunks g))
  /\ (forall i, In i (List.map c_index (chunks g)) <-> exists p, In p P /\ kidp p = k /\ idxp p = i)
  /\ (forall c, In c (chunks g) -> first_original P k (c_index c) = Some (c_content c)).

Definition groups_inv (P : ranked) (gs : list (mval * group)) : Prop :=
  List.NoDup (List.map fst gs)
  /\ (forall k, In k (List.map fst gs) <-> exists p, In p P /\ kidp p = k)
  /\ (forall k g, In (k, g) gs -> group_inv P k g).

Lemma in_assoc_update {V : Type} (kid k : mval) (f : V -> V) (l : list (mval * V)) (g : V) :
  In (k, g) (assoc_update kid f l) <->
  exists g0, In (k, g0) l /\ g = if bool_decide (kid = k) then f g0 else g0.
Proof.
  unfold assoc_update. rewrite in_map_iff. split.
  - intros [[k0 g0] [E Hin]]. simpl in E. exists g0.
    destruct (decide (kid = k0)) as [Hk|Hk].
    + rewrite bool_decide_eq_true_2 in E by exact Hk. injection E as <- <-.
      split; [exact Hin|]. rewrite bool_decide_eq_true_2 by exact Hk. reflexivity.
    + rewrite bool_decide_eq_false_2 in E by exact Hk. injection E as <- <-.
      split; [exact Hin|]. rewrite bool_decide_eq_false_2 by exact Hk. reflexivity.
  - intros [g0 [Hin ->]]. exists (k, g0). split; [|exact Hin]. simpl.
    case_bool_decide; reflexivity.
Qed.

Lemma keys_assoc_update {V : Type} (kid : mval) (f : V -> V) (l : list (mval * V)) :
  List.map fst (assoc_update kid f l) = List.map fst l.
Proof.
  unfold assoc_update. rewrite List.map_map. apply List.map_ext.
  intros [k g]; simpl. case_bool_decide; reflexivity.
Qed.

Lemma first_original_app (P : ranked) (p : LCDocument * Q) (k : mval) (i : Z) :
  first_original (P ++ [p]) k i =
  match first_original P k i with
  | Some c => Some c
  | None => if bool_decide (kidp p = k) && (idxp p =? i) then Some (original_of (fst p)) else None
  end.
Proof.
  unfold first_original. rewrite find_app.
  destruct (List.find _ P); simpl; [reflexivity|].
  unfold kidp, idxp. destruct (_ && _); reflexivity.
Qed.

Lemma first_original_none (P : ranked) (k : mval) (i : Z) :
  first_original P k i = None <-> ~ exists p, In p P /\ kidp p = k /\ idxp p = i.
Proof.
  unfold first_original.
  destruct (List.find _ P) eqn:E; simpl.
  - split; [discriminate|]. intros H; exfalso; apply H.
    apply find_some in E as [Hin Hf]. apply andb_true_iff in Hf as [H1 H2].
    apply bool_decide_eq_true in H1. apply Z.eqb_eq in H2.
    exists p; repeat split; assumption.
  - split; [|reflexivity]. intros _ [p [Hin [H1 H2]]].
    apply (find_none _ _ E) in Hin. unfold kidp, idxp in *.
    rewrite H1, H2, bool_decide_eq_true_2, Z.eqb_refl in Hin by reflexivity. discriminate.
Qed.

Lemma Qltb_iff (a b : Q) : Qltb a b = true <-> (a < b)%Q.
Proof.
  unfold Qltb. rewrite negb_true_iff. split.
  - intros E. destruct (Qlt_le_dec a b) as [H|H]; [exact H|].
    apply Qle_bool_iff in H. congruence.
  - intros H. destruct (Qle_bool b a) eqn:E; [|reflexivity].
    apply Qle_bool_iff in E. lra.
Qed.

Lemma Qltb_false (a b : Q) : Qltb a b = false -> (b <= a)%Q.
Proof.
  intros E. destruct (Qlt_le_dec a b) as [H|H]; [|exact H].
  apply Qltb_iff in H. congruence.
Qed.

Lemma existsb_key_iff (kid : mval) (gs : list (mval * group)) :
  existsb (fun e => bool_decide (fst e = kid)) gs = true <-> In kid (List.map fst gs).
Proof.
  rewrite existsb_exists, in_map_iff. split.
  - intros [e [Hin E]]. apply bool_decide_eq_true in E. exists e; auto.
  - intros [e [E Hin]]. exists e. split; [exact Hin|]. apply bool_decide_eq_true. exact E.
Qed.

(** Adding a candidate of document [kid] to a group that holds the
    candidates [P] of [kid]. *)
Lemma add_to_group_inv (P : ranked) (p : LCDocument * Q) (g : group) :
  group_inv P (kidp p) g ->
  group_inv (P ++ [p]) (kidp p) (add_to_group (norm p) (fst p) g).
Proof.
  intros (Hm & [q [Hq1 [Hq2 Hq3]]] & Hub & Hnd & Hidx & Hfirst).
  unfold add_to_group.
  set (g1 := if Qltb (max_score g) (norm p) then _ else g).
  assert (Hg1c : chunks g1 = chunks g) by (unfold g1; destruct (Qltb _ _); reflexivity).
  assert (Hg1m : gmeta g1 = gmeta g) by (unfold g1; destruct (Qltb _ _); reflexivity).
  assert (Hg1ex : exists p', In p' (P ++ [p]) /\ kidp p' = kidp p /\ max_score g1 = norm p').
  { unfold g1. destruct (Qltb _ _).
    - exists p. rewrite in_app_iff. simpl. auto.
    - exists q. rewrite in_app_iff. auto. }
  assert (Hg1ub : forall p', In p' (P ++ [p]) -> kidp p' = kidp p -> (norm p' <= max_score g1)%Q).
  { intros p' Hin Hk. unfold g1.
    destruct (Qltb (max_score g) (norm p)) eqn:E.
    - apply Qltb_iff in E. simpl. apply in_app_iff in Hin as [Hin|[<-|[]]]; [|lra].
      specialize (Hub p' Hin Hk). lra.
    - apply Qltb_false in E. apply in_app_iff in Hin as [Hin|[<-|[]]]; [|exact E].
      apply Hub; assumption. }
  set (ci := chunk_index_of (metadata (fst p))).
  destruct (existsb (Z.eqb ci) (List.map c_index (chunks g1))) eqn:Eci.
  - apply ZListFacts.existsb_eqb_In in Eci. rewrite Hg1c in Eci.
    repeat split.
    + rewrite Hg1m; exact Hm.
    + exact Hg1ex.
    + exact Hg1ub.
    + rewrite Hg1c; exact Hnd.
    + intros Hi. rewrite Hg1c in Hi. apply Hidx in Hi as [p' [Hin Hp']].
      exists p'. rewrite in_app_iff. auto.
    + intros [p' [Hin [Hk Hi]]]. rewrite Hg1c.
      apply in_app_iff in Hin as [Hin|[<-|[]]].
      * apply Hidx. exists p'. auto.
      * rewrite <- Hi. exact Eci.
    + intros c Hc. rewrite Hg1c in Hc. rewrite first_original_app, (Hfirst c Hc). reflexivity.
  - assert (Hnot : ~ In ci (List.map c_index (chunks g))).
    { intros Hin. rewrite <- Hg1c in Hin. apply ZListFacts.existsb_eqb_In in Hin. congruence. }
    assert (Hnone : first_original P (kidp p) ci = None).
    { apply first_original_none. intros Hex. apply Hnot, Hidx. exact Hex. }
    repeat split; simpl.
    + rewrite Hg1m; exact Hm.
    + exact Hg1ex.
    + exact Hg1ub.
    + rewrite Hg1c, List.map_app. simpl.
      apply List.NoDup_app; [exact Hnd| |].
      * constructor; [intros []|constructor].
      * intros x Hx Hx'. inversion Hx'; [subst; contradiction|contradiction].
    + intros Hi. rewrite Hg1c, List.map_app, in_app_iff in Hi.
      destruct Hi as [Hi|[<-|[]]].
      * apply Hidx in Hi as [p' [Hin Hp']]. exists p'. rewrite in_app_iff. auto.
      * exists p. rewrite in_app_iff. simpl. auto.
    + intros [p' [Hin [Hk Hi]]]. rewrite Hg1c, List.map_app, in_app_iff.
      apply in_app_iff in Hin as [Hin|[<-|[]]].
      * left. apply Hidx. exists p'. auto.
      * right. left. exact Hi.
    + intros c Hc. rewrite Hg1c in Hc. apply in_app_iff in Hc as [Hc|[<-|[]]].
      * rewrite first_original_app, (Hfirst c Hc). reflexivity.
      * simpl. rewrite first_original_app. fold ci. rewrite Hnone.
        rewrite bool_decide_eq_true_2 by reflexivity.
        unfold idxp. fold ci. rewrite Z.eqb_refl. reflexivity.
Qed.

Lemma Qltb_irrefl (a : Q) : Qltb a a = false.
Proof. unfold Qltb. replace (Qle_bool a a) with true; [reflexivity|]. symmetry. apply Qle_bool_iff, Qle_refl. Qed.

Lemma new_group_inv (P : ranked) (p : LCDocument * Q) :
  ~ (exists q, In q P /\ kidp q = kidp p) ->
  group_inv (P ++ [p]) (kidp p)
    (add_to_group (norm p) (fst p) (new_group (norm p) (metadata (fst p)))).
Proof.
  intros Hno. unfold add_to_group, new_group. simpl. rewrite Qltb_irrefl. simpl.
  set (ci := chunk_index_of (metadata (fst p))).
  assert (HP : forall q, In q (P ++ [p]) -> kidp q = kidp p -> q = p).
  { intros q Hq Hk. apply in_app_iff in Hq as [Hq|[<-|[]]]; [|reflexivity].
    exfalso. apply Hno. exists q. auto. }
  repeat split; simpl.
  - exists p. rewrite in_app_iff. simpl. auto.
  - intros q Hq Hk. rewrite (HP q Hq Hk). apply Qle_refl.
  - constructor; [intros []|constructor].
  - intros [<-|[]]. exists p. rewrite in_app_iff. simpl. auto.
  - intros [q [Hq [Hk Hi]]]. rewrite (HP q Hq Hk) in Hi. left. exact Hi.
  - intros c [<-|[]]. simpl. rewrite first_original_app.
    assert (Hn : first_original P (kidp p) ci = None).
    { apply first_original_none. intros [q [Hq [Hk _]]]. apply Hno. exists q. auto. }
    rewrite Hn, bool_decide_eq_true_2 by reflexivity. unfold idxp. fold ci.
    rewrite Z.eqb_refl. reflexivity.
Qed.

Lemma group_step_inv (P : ranked) (gs : list (mval * group)) (p : LCDocument * Q) :
  groups_inv P gs -> groups_inv (P ++ [p]) (group_step vw gs p).
Proof.
  intros (Hnd & Hkeys & Hgs). unfold group_step.
  fold (kidp p). fold (norm p).
  set (kid := kidp p).
  set (gs1 := if existsb _ gs then gs else _).
  assert (Hkeys1 : List.map fst gs1 = List.map fst gs \/
                   (~ In kid (List.map fst gs) /\ List.map fst gs1 = List.map fst gs ++ [kid])).
  { unfold gs1. destruct (existsb _ gs) eqn:E; [left; reflexivity|right].
    split; [intros Hin; apply existsb_key_iff in Hin; congruence|].
    rewrite List.map_app. reflexivity. }
  assert (Hin1 : forall k g, In (k, g) gs1 ->
            (In (k, g) gs) \/ (k = kid /\ g = new_group (norm p) (metadata (fst p))
                               /\ ~ In kid (List.map fst gs))).
  { intros k g Hin. unfold gs1 in Hin. destruct (existsb _ gs) eqn:E; [left; exact Hin|].
    apply in_app_iff in Hin as [Hin|[E2|[]]]; [left; exact Hin|].
    injection E2 as <- <-. right. repeat split.
    intros Hk. apply existsb_key_iff in Hk. congruence. }
  split; [|split].
  - rewrite keys_assoc_update.
    destruct Hkeys1 as [->|[Hn ->]]; [exact Hnd|].
    apply List.NoDup_app; [exact Hnd|constructor; [intros []|constructor]|].
    intros x Hx [<-|[]]. contradiction.
  - rewrite keys_assoc_update. intros k. split.
    + intros Hk. destruct Hkeys1 as [E|[Hn E]]; rewrite E in Hk.
      * apply Hkeys in Hk as [q [Hq Hqk]]. exists q. rewrite in_app_iff. auto.
      * apply in_app_iff in Hk as [Hk|[<-|[]]].
        -- apply Hkeys in Hk as [q [Hq Hqk]]. exists q. rewrite in_app_iff. auto.
        -- exists p. rewrite in_app_iff. simpl. auto.
    + intros [q [Hq Hqk]].
      destruct Hkeys1 as [E|[Hn E]]; rewrite E.
      * apply in_app_iff in Hq as [Hq|[<-|[]]].
        -- apply Hkeys. exists q. auto.
        -- subst k. unfold gs1 in E. destruct (existsb _ gs) eqn:Ex.
           ++ apply existsb_key_iff. exact Ex.
           ++ exfalso. rewrite List.map_app in E. simpl in E.
              assert (Hl := f_equal (@length mval) E). rewrite length_app in Hl. simpl in Hl. lia.
      * apply in_app_iff. apply in_app_iff in Hq as [Hq|[<-|[]]].
        -- left. apply Hkeys. exists q. auto.
        -- right. left. exact Hqk.
  - intros k g Hin. apply in_assoc_update in Hin as [g0 [Hin ->]].
    destruct (decide (kid = k)) as [Hk|Hk].
    + rewrite bool_decide_eq_true_2 by exact Hk. subst k.
      destruct (Hin1 _ _ Hin) as [Hold|(_ & -> & Hn)].
      * apply add_to_group_inv. exact (Hgs _ _ Hold).
      * apply new_group_inv. intros Hex. apply Hn, Hkeys. exact Hex.
    + rewrite bool_decide_eq_false_2 by exact Hk.
      destruct (Hin1 _ _ Hin) as [Hold|(E & _)]; [|congruence].
      destruct (Hgs _ _ Hold) as (Hm & [q [Hq1 [Hq2 Hq3]]] & Hub & Hnd' & Hidx & Hfirst).
      repeat split.
      * exact Hm.
      * exists q. rewrite in_app_iff. auto.
      * intros q' Hq' Hk'. apply in_app_iff in Hq' as [Hq'|[<-|[]]]; [apply Hub; assumption|].
        exfalso. apply Hk. rewrite <- Hk'. reflexivity.
      * exact Hnd'.
      * intros Hi. apply Hidx in Hi as [q' [Hq' Hi']]. exists q'. rewrite in_app_iff. auto.
      * intros [q' [Hq' [Hk' Hi']]]. apply in_app_iff in Hq' as [Hq'|[<-|[]]].
        -- apply Hidx. exists q'. auto.
        -- exfalso. apply Hk. rewrite <- Hk'. reflexivity.
      * intros c Hc. rewrite first_original_app, (Hfirst c Hc). reflexivity.
Qed.

Lemma groups_fold_inv (R : ranked) :
  groups_inv R (List.fold_left (group_step vw) R []).
Proof.
  induction R as [|p R IH] using rev_ind.
  - split; [constructor|]. split.
    + intros k; simpl. split; [intros []|intros [q [[] _]]].
    + intros k g [].
  - rewrite fold_left_app. simpl. apply group_step_inv, IH.
Qed.

End Groups.

Lemma emit_kid (e : mval * group) :
  kid_of (metadata (fst (emit e))) = kid_of (gmeta (snd e)).
Proof.
  unfold emit, kid_of, get_val. simpl.
  rewrite !lookup_insert_ne by discriminate. reflexivity.
Qed.

Lemma chunks_sorted (l : list chunk_rec) :
  List.NoDup (List.map c_index l) ->
  StronglySorted Z.lt (List.map c_index (sort_by (fun y x => c_index y <=? c_index x) l)).
Proof.
  intros Hnd. apply ZListFacts.le_nodup_lt; [apply sort_by_key_sorted|].
  eapply Permutation_NoDup; [|exact Hnd].
  symmetry. apply Permutation_map, StableSortFacts.sort_by_perm.
Qed.

Lemma keys_perm (S gs : list (mval * group)) (k : mval) :
  Permutation S gs -> In k (List.map fst S) <-> In k (List.map fst gs).
Proof.
  intros Hp. split; apply Permutation_in; [|symmetry]; apply Permutation_map, Hp.
Qed.

Lemma no_zero_division (R : ranked) :
  (forall p, In p R -> (0 <= snd p)%Q) ->
  existsb (fun p => Qeq_bool (1 + snd p)%Q 0) R = false.
Proof.
  intros H. apply not_true_iff_false. rewrite existsb_exists.
  intros [p [Hin E]]. apply Qeq_bool_iff in E. specialize (H p Hin). lra.
Qed.

Lemma retrieve_from_summary_eq (v : view) (ids : list pstr) (top_k : Z) (vw : Q) :
  (forall p, In p (similarity_search_with_score (summary_index v) (top_k * 3) (filter_condition ids)) ->
     (0 <= snd p)%Q) ->
  retrieve_from_summary v ids top_k vw =
  List.map emit (take_py top_k
    (sort_by (fun y x => Qle_bool (max_score (snd x)) (max_score (snd y)))
       (List.fold_left (group_step vw)
          (similarity_search_with_score (summary_index v) (top_k * 3) (filter_condition ids)) []))).
Proof.
  intros H. unfold retrieve_from_summary. rewrite no_zero_division by exact H. reflexivity.
Qed.

End SummaryFacts.


Import Retriever.

(** C4: on the GLOBAL path ([IndexType.SUMMARY]) [retrieve] groups the
    summary candidates [R] by knowledge_id and returns one candidate per
    kept document: no document twice; [min(top_k, #documents)] of them;
    every candidate of a dropped document scores no more than any kept
    one; the score of a kept document is the maximum normalized score of
    its candidates; and its passage joins with "\n\n" the original chunk
    texts of its distinct chunk indices in strictly ascending index order,
    each index covered once with the text of its first candidate in [R]
    (distances are non-negative, as Chroma's are). *)
Theorem summary_retrieve_groups_by_document (v : view) (ids : list pstr) (top_k : Z) (vw bw : Q) :
  let R := similarity_search_with_score (summary_index v) (top_k * 3) (filter_condition ids) in
  let out := retrieve v ids SUMMARY top_k vw bw in
  let kidp := fun p : LCDocument * Q => kid_of (metadata (fst p)) in
  let norm := fun p : LCDocument * Q => normalized vw (snd p) in
  (forall p, In p R -> (0 <= snd p)%Q) ->
  List.NoDup (List.map kidp out)
  /\ (Z.of_nat (length out) <= Z.max 0 top_k
      /\ (Z.of_nat (length out) = top_k \/ forall p, In p R -> In (kidp p) (List.map kidp out)))
  /\ (forall o p, In o out -> In p R -> ~ In (kidp p) (List.map kidp out) ->
        (norm p <= snd o)%Q)
  /\ (forall o, In o out ->
        (exists p, In p R /\ kidp p = kidp o /\ snd o = norm p)
        /\ (forall p, In p R -> kidp p = kidp o -> (norm p <= snd o)%Q)
        /\ exists cs : list (Z * pstr),
             page_content (fst o) = join sep2 (List.map snd cs)
             /\ StronglySorted Z.lt (List.map fst cs)
             /\ (forall i, In i (List.map fst cs) <->
                   exists p, In p R /\ kidp p = kidp o /\ chunk_index_of (metadata (fst p)) = i)
             /\ (forall i c, In (i, c) cs -> first_original R (kidp o) i = Some c)).
Proof.
  cbv beta zeta. intros Hnn.
  change (retrieve v ids SUMMARY top_k vw bw) with (retrieve_from_summary v ids top_k vw).
  rewrite (SummaryFacts.retrieve_from_summary_eq v ids top_k vw Hnn).
  set (R := similarity_search_with_score (summary_index v) (top_k * 3) (filter_condition ids)) in *.
  pose proof (SummaryFacts.groups_fold_inv vw R) as (Hnd & Hkeys & Hgs).
  set (gs := List.fold_left (group_step vw) R []) in *.
  set (S := sort_by _ gs).
  assert (Hperm : Permutation S gs) by apply StableSortFacts.sort_by_perm.
  assert (Hsorted : StronglySorted (fun a b : mval * group => (max_score (snd b) <= max_score (snd a))%Q) S)
    by exact (ListFacts.sort_by_desc_sorted (fun e : mval * group => max_score (snd e)) gs).
  destruct (Z_le_gt_dec top_k 0) as [Hk|Hk].
  - assert (HR : R = []).
    { unfold R, similarity_search_with_score.
      replace (Z.to_nat (top_k * 3)) with O by lia. reflexivity. }
    assert (HS : S = []).
    { apply Permutation_nil. rewrite Hperm. unfold gs. rewrite HR. reflexivity. }
    rewrite HS. unfold take_py. rewrite firstn_nil. simpl.
    split; [constructor|]. split; [split; [lia|right; rewrite HR; intros p []]|].
    split; [intros o p []|intros o []].
  - assert (Htake : take_py top_k S = firstn (Z.to_nat top_k) S).
    { unfold take_py. replace (top_k <? 0) with false by (symmetry; apply Z.ltb_ge; lia).
      reflexivity. }
    rewrite Htake.
    set (n := Z.to_nat top_k).
    set (kept := firstn n S).
    assert (HinS : forall e, In e S -> In e gs).
    { intros e He. eapply Permutation_in; [exact Hperm|exact He]. }
    assert (Hkept : forall e, In e kept -> In e gs).
    { intros e He. apply HinS. eapply ListFacts.in_firstn; exact He. }
    assert (Hinv : forall e, In e kept -> SummaryFacts.group_inv vw R (fst e) (snd e)).
    { intros [k g] He. apply Hgs, Hkept, He. }
    assert (Hemk : forall e, In e kept -> kid_of (metadata (fst (emit e))) = fst e).
    { intros e He. rewrite SummaryFacts.emit_kid. apply (Hinv e He). }
    assert (Hmap : List.map (fun p => kid_of (metadata (fst p))) (List.map emit kept)
                   = List.map fst kept).
    { rewrite List.map_map. apply List.map_ext_in. exact Hemk. }
    rewrite Hmap.
    split; [|split; [|split]].
    + unfold kept. rewrite <- List.firstn_map. apply ListFacts.nodup_firstn.
      eapply Permutation_NoDup; [|exact Hnd]. symmetry. apply Permutation_map, Hperm.
    + rewrite List.length_map. unfold kept. rewrite List.length_firstn.
      split; [lia|].
      destruct (Nat.le_gt_cases n (length S)) as [Hle|Hgt].
      * left. rewrite Nat.min_l by exact Hle. unfold n. lia.
      * right. intros p Hp. rewrite List.firstn_all2 by lia.
        apply (SummaryFacts.keys_perm S gs _ Hperm). apply Hkeys. exists p. split; [exact Hp|reflexivity].
    + intros o p Ho Hp Hnot.
      apply in_map_iff in Ho as [e [<- He]].
      assert (Hk' : In (kid_of (metadata (fst p))) (List.map fst gs)).
      { apply Hkeys. exists p. split; [exact Hp|reflexivity]. }
      apply in_map_iff in Hk' as [[k g] [Ek Hkg]]. simpl in Ek.
      assert (HgS : In (k, g) S).
      { eapply Permutation_in; [symmetry; exact Hperm|exact Hkg]. }
      assert (Hdrop : In (k, g) (skipn n S)).
      { rewrite <- (firstn_skipn n S) in HgS. apply in_app_or in HgS as [H|H]; [|exact H].
        exfalso. apply Hnot. rewrite <- Ek. apply in_map_iff. exists (k, g). split; [reflexivity|exact H]. }
      rewrite <- (firstn_skipn n S) in Hsorted.
      pose proof (ListFacts.strongly_sorted_app _ _ _ e (k, g) Hsorted He Hdrop) as Hle. simpl in Hle.
      destruct (Hgs k g Hkg) as (_ & _ & Hub & _).
      specialize (Hub p Hp (eq_sym Ek)).
      unfold emit; simpl. lra.
    + intros o Ho.
      apply in_map_iff in Ho as [[k g] [<- He]].
      rewrite (Hemk _ He). simpl.
      destruct (Hinv _ He) as (_ & Hex & Hub & Hnd' & Hidx & Horig). simpl in *.
      split; [|split].
      * destruct Hex as [p (Hp & Ep & Em)]. exists p. split; [exact Hp|]. split; [exact Ep|].
        unfold emit; simpl. exact Em.
      * intros p Hp Ep. unfold emit; simpl. exact (Hub p Hp Ep).
      * set (sc := sort_by (fun y x => c_index y <=? c_index x) (chunks g)).
        assert (Hpc : Permutation sc (chunks g)) by apply StableSortFacts.sort_by_perm.
        exists (List.map (fun c => (c_index c, c_content c)) sc).
        rewrite !List.map_map. simpl.
        split; [reflexivity|]. split; [|split].
        -- apply SummaryFacts.chunks_sorted, Hnd'.
        -- intros i. rewrite <- Hidx. split; apply Permutation_in;
             [|symmetry]; apply Permutation_map, Hpc.
        -- intros i c Hic. apply in_map_iff in Hic as [ch [Ech Hch]].
           injection Ech as <- <-. apply Horig.
           eapply Permutation_in; [exact Hpc|exact Hch].
Qed.

Lemma summary_retrieve_groups_by_document_witness :
  let md1 := <["chunk_index" := MInt 0]> (<["knowledge_id" := MStr (of_string "a")]> (∅ : meta)) in
  let md2 := <["chunk_index" := MInt 1]> (<["knowledge_id" := MStr (of_string "b")]> (∅ : meta)) in
  let v := {| detail_index := [];
              summary_index := [({| page_content := of_string "s1"; metadata := md1 |}, 0%Q);
                                ({| page_content := of_string "s2"; metadata := md2 |}, (1 # 2)%Q)];
              has_bm25 := false; bm25_index := None |} in
  (forall p, In p (similarity_search_with_score (summary_index v) (1 * 3) (filter_condition [])) ->
     (0 <= snd p)%Q)
  /\ List.NoDup (List.map (fun p => kid_of (metadata (fst p))) (retrieve v [] SUMMARY 1 1 0)).
Proof.
  intros md1 md2 v.
  assert (H : forall p, In p (similarity_search_with_score (summary_index v) (1 * 3) (filter_condition [])) ->
                (0 <= snd p)%Q).
  { intros p Hp. vm_compute in Hp. destruct Hp as [<-|[<-|[]]]; vm_compute; discriminate. }
  split; [exact H|].
  exact (proj1 (summary_retrieve_groups_by_document v [] 1 1 0 H)).
Defined.

(* ------------------------------------------------------------------ *)
(** ** Detail path of the retriever *)

Module DetailFacts.
Import Retriever.

Lemma existsb_key_in (k : pstr * pstr) (seen : list (pstr * pstr)) :
  existsb (key_eqb k) seen = true <-> In k seen.
Proof.
  rewrite existsb_exists. unfold key_eqb. split.
  - intros [x [Hx E]]. apply bool_decide_eq_true in E. subst x. exact Hx.
  - intros H. exists k. split; [exact H|]. apply bool_decide_eq_true_2. reflexivity.
Qed.

Lemma dedup_loop_spec (top_k : Z) (l : list (LCDocument * Q)) :
  StronglySorted (fun a b => (snd b <= snd a)%Q) l ->
  forall seen n,
  let out := dedup_loop top_k seen n l in
  incl out l
  /\ List.NoDup (List.map (fun p => dedup_key (fst p)) out)
  /\ (forall o, In o out -> ~ In (dedup_key (fst o)) seen)
  /\ (forall o c, In o out -> In c l -> dedup_key (fst c) = dedup_key (fst o) -> (snd c <= snd o)%Q).
Proof.
  induction l as [|[d s] l IH]; intros Hs seen n; simpl.
  - split; [intros x []|]. split; [constructor|]. split; [intros o []|intros o c []].
  - apply StronglySorted_inv in Hs as [Hs Hhd].
    rewrite List.Forall_forall in Hhd.
    destruct (existsb (key_eqb (dedup_key d)) seen) eqn:Ex.
    + apply existsb_key_in in Ex.
      destruct (IH Hs seen n) as (Hi & Hn & Hnot & Hc).
      split; [intros x Hx; right; apply Hi, Hx|]. split; [exact Hn|]. split; [exact Hnot|].
      intros o c Ho [<-|Hcl] E.
      * exfalso. apply (Hnot o Ho). simpl in E. rewrite <- E. exact Ex.
      * exact (Hc o c Ho Hcl E).
    + assert (Hnk : ~ In (dedup_key d) seen).
      { intros H. apply existsb_key_in in H. congruence. }
      set (rest := if top_k <=? n + 1 then [] else dedup_loop top_k (dedup_key d :: seen) (n + 1) l).
      assert (Hrest : incl rest l
                /\ List.NoDup (List.map (fun p => dedup_key (fst p)) rest)
                /\ (forall o, In o rest -> ~ In (dedup_key (fst o)) (dedup_key d :: seen))
                /\ (forall o c, In o rest -> In c l -> dedup_key (fst c) = dedup_key (fst o) ->
                      (snd c <= snd o)%Q)).
      { unfold rest. destruct (top_k <=? n + 1).
        - split; [intros x []|]. split; [constructor|]. split; [intros o []|intros o c []].
        - exact (IH Hs _ _). }
      destruct Hrest as (Hi & Hn & Hnot & Hc).
      split; [|split; [|split]].
      * intros x [<-|Hx]; [left; reflexivity|right; apply Hi, Hx].
      * simpl. constructor; [|exact Hn].
        intros Hin. apply in_map_iff in Hin as [o [E Ho]].
        apply (Hnot o Ho). rewrite E. left. reflexivity.
      * intros o [<-|Ho]; [exact Hnk|]. intros H. apply (Hnot o Ho). right. exact H.
      * intros o c [<-|Ho] [<-|Hcl] E; simpl in *.
        -- apply Qle_refl.
        -- exact (Hhd c Hcl).
        -- exfalso. apply (Hnot o Ho). rewrite <- E. left. reflexivity.
        -- exact (Hc o c Ho Hcl E).
Qed.

Lemma dedup_loop_length (top_k : Z) (l : list (LCDocument * Q)) :
  forall seen n, n < top_k -> Z.of_nat (length (dedup_loop top_k seen n l)) <= top_k - n.
Proof.
  induction l as [|[d s] l IH]; intros seen n Hn; simpl; [lia|].
  destruct (existsb _ seen); [exact (IH seen n Hn)|].
  simpl. destruct (top_k <=? n + 1) eqn:E.
  - simpl. lia.
  - apply Z.leb_gt in E. specialize (IH (dedup_key d :: seen) (n + 1) E). lia.
Qed.

Lemma sort_desc_sorted {A : Type} (l : list (A * Q)) :
  StronglySorted (fun a b => (snd b <= snd a)%Q) (sort_desc l).
Proof. exact (ListFacts.sort_by_desc_sorted snd l). Qed.

Lemma sort_desc_perm {A : Type} (l : list (A * Q)) : Permutation (sort_desc l) l.
Proof. apply StableSortFacts.sort_by_perm. Qed.

End DetailFacts.

(** C5 (counterexample): with [top_k = 0] the length check
    [len(deduped_results) >= top_k] runs only after the first candidate
    has been appended, so a single BM25 hit (the vector search asks for
    [k = 0] results) is returned: one candidate, more than [top_k]. *)
Lemma detail_top_k_zero_returns_one :
  let md := <["knowledge_id" := MStr (of_string "a")]>
              (<["chunk_id" := MStr (of_string "a_0_0")]> (∅ : meta)) in
  let v := {| detail_index := [({| page_content := of_string "x"; metadata := md |}, 0%Q)];
              summary_index := [];
              has_bm25 := true;
              bm25_index := Some [{| bm_text := of_string "x"; bm_meta := md; bm_score := 1%Q |}] |} in
  length (retrieve v [of_string "a"] DETAIL 0 (7 # 10) (3 # 10)) = 1%nat.
Proof. vm_compute. reflexivity. Qed.

(** C5: on the DETAIL path the output is a sub-list of the fused
    candidates ([vector_score + bm25_score] per entry) with pairwise
    distinct de-duplication keys [(name, large_chunk[:100])], and every
    fused candidate sharing its key with an output candidate scores no
    more than it, whatever [top_k].  For [top_k >= 1] there are at most
    [top_k] of them; for [top_k <= 0] the check
    [len(deduped_results) >= top_k] comes after the first append, so the
    output is the best-scored candidate alone (when there is one). *)
Theorem detail_dedup_keeps_best (v : view) (ids : list pstr) (top_k : Z) (vw bw : Q) :
  let F := fused v ids top_k vw bw in
  let out := retrieve v ids DETAIL top_k vw bw in
  incl out F
  /\ List.NoDup (List.map (fun p => dedup_key (fst p)) out)
  /\ (forall o c, In o out -> In c F -> dedup_key (fst c) = dedup_key (fst o) -> (snd c <= snd o)%Q)
  /\ (1 <= top_k -> Z.of_nat (length out) <= top_k)
  /\ (top_k <= 0 -> out = firstn 1 (sort_desc F)).
Proof.
  intros F out.
  change out with (dedup_loop top_k [] 0 (sort_desc F)).
  destruct (DetailFacts.dedup_loop_spec top_k (sort_desc F) (DetailFacts.sort_desc_sorted F) [] 0)
    as (Hi & Hn & _ & Hc).
  assert (HF : forall c, In c F <-> In c (sort_desc F)).
  { intros c. split; apply Permutation_in; [symmetry|]; apply DetailFacts.sort_desc_perm. }
  split; [|split; [exact Hn|split; [|split]]].
  - intros x Hx. apply HF, Hi, Hx.
  - intros o c Ho Hcf E. apply (Hc o c Ho); [apply HF, Hcf|exact E].
  - intros Hk. pose proof (DetailFacts.dedup_loop_length top_k (sort_desc F) [] 0 ltac:(lia)). lia.
  - intros Hk. destruct (sort_desc F) as [|[d s] l]; [reflexivity|]. simpl.
    replace (top_k <=? 0 + 1) with true by (symmetry; apply Z.leb_le; lia). reflexivity.
Qed.

(* ------------------------------------------------------------------ *)
(** ** Scope of a retrieval *)

Module ScopeFacts.
Import Retriever.

Lemma filter_all_in (store : ranked) (ids : list pstr) :
  (forall p, In p store -> kid_in (metadata (fst p) !! "knowledge_id") ids = true) ->
  List.filter (fun p => matches_filter (Some ids) (fst p)) store
  = List.filter (fun p => matches_filter None (fst p)) store.
Proof.
  intros H. apply filter_ext_in. intros p Hp. simpl. exact (H p Hp).
Qed.

Lemma fold_left_ext_in {A B : Type} (f g : A -> B -> A) (l : list B) :
  (forall a b, In b l -> f a b = g a b) ->
  forall a, List.fold_left f l a = List.fold_left g l a.
Proof.
  induction l as [|b l IH]; intros H a; simpl; [reflexivity|].
  rewrite (H a b (or_introl eq_refl)). apply IH. intros a' b' Hb. apply H. right. exact Hb.
Qed.

Lemma bm25_step_all_in (ids : list pstr) (w m : Q) (r : results) (e : bm25_entry) :
  kid_in (bm_meta e !! "knowledge_id") ids = true ->
  bm25_step [] w m r e = bm25_step ids w m r e.
Proof. intros H. unfold bm25_step. rewrite H, andb_false_r. reflexivity. Qed.

Lemma bm25_search_all_in (hb : bool) (idx : option (list bm25_entry)) (ids : list pstr)
    (w : Q) (r : results) :
  (forall es e, idx = Some es -> In e es -> kid_in (bm_meta e !! "knowledge_id") ids = true) ->
  bm25_search hb idx [] w r = bm25_search hb idx ids w r.
Proof.
  intros H. unfold bm25_search.
  destruct hb; simpl; [|reflexivity].
  destruct idx as [es|]; [|reflexivity].
  destruct (Qle_bool w 0); [reflexivity|].
  destruct es as [|e0 es']; [reflexivity|].
  apply fold_left_ext_in. intros a b Hb. apply bm25_step_all_in, (H _ b eq_refl Hb).
Qed.

End ScopeFacts.

(** C2 (counterexample): [retrieve] itself does not short-circuit an empty
    [knowledge_ids]: [_vector_search] then searches with [filter=None],
    and a store holding one detail chunk returns it. *)
Lemma retrieve_empty_ids_searches_unscoped :
  let md := <["knowledge_id" := MStr (of_string "a")]>
              (<["chunk_id" := MStr (of_string "a_0_0")]> (∅ : meta)) in
  let v := {| detail_index := [({| page_content := of_string "x"; metadata := md |}, 0%Q)];
              summary_index := []; has_bm25 := false; bm25_index := None |} in
  retrieve v [] DETAIL 1 1 0 <> [].
Proof. vm_compute. discriminate. Qed.

(** C2: an empty [knowledge_ids] is no scope at all: [retrieve] with [[]]
    returns what it returns with any list [ids] holding the knowledge_id
    of every stored detail chunk, summary and BM25 document (the vector
    and summary searches run with [filter=None] and the BM25 scope check
    is skipped); only the chat endpoint short-circuits an empty scope,
    calling neither [retrieve] nor the reranker and returning no source. *)
Theorem retrieve_empty_ids_unscoped (v : view) (ids : list pstr) (it : IndexType) (top_k : Z)
    (vw bw : Q) (rr : Reranker.DashScopeReranker) (api : Reranker.api_outcome)
    (params : Chat.RetrievalParams) :
  (forall p, In p (detail_index v ++ summary_index v) ->
     kid_in (metadata (fst p) !! "knowledge_id") ids = true) ->
  (forall es e, bm25_index v = Some es -> In e es ->
     kid_in (bm_meta e !! "knowledge_id") ids = true) ->
  retrieve v [] it top_k vw bw = retrieve v ids it top_k vw bw
  /\ Chat.chat_retrieval v rr api [] it params
     = {| Chat.rerank_input := None; Chat.final_sources := [] |}.
Proof.
  intros Hst Hbm. split; [|reflexivity].
  destruct ids as [|x xs]; [reflexivity|].
  assert (Hs : forall store k, (forall p, In p store ->
                  kid_in (metadata (fst p) !! "knowledge_id") (x :: xs) = true) ->
                similarity_search_with_score store k (filter_condition [])
                = similarity_search_with_score store k (filter_condition (x :: xs))).
  { intros store k H. unfold similarity_search_with_score.
    change (filter_condition []) with (@None (list pstr)).
    change (filter_condition (x :: xs)) with (Some (x :: xs)).
    rewrite (ScopeFacts.filter_all_in store (x :: xs) H). reflexivity. }
  destruct it; simpl.
  - unfold retrieve_from_detail, fused, vector_search.
    rewrite Hs by (intros p Hp; apply Hst, in_or_app; left; exact Hp).
    rewrite (ScopeFacts.bm25_search_all_in _ _ (x :: xs)) by exact Hbm. reflexivity.
  - unfold retrieve_from_summary.
    rewrite Hs by (intros p Hp; apply Hst, in_or_app; right; exact Hp). reflexivity.
Qed.

Lemma retrieve_empty_ids_unscoped_witness :
  let md := <["knowledge_id" := MStr (of_string "a")]>
              (<["chunk_id" := MStr (of_string "a_0_0")]> (∅ : meta)) in
  let v := {| detail_index := [({| page_content := of_string "x"; metadata := md |}, 0%Q)];
              summary_index := []; has_bm25 := false; bm25_index := None |} in
  (forall p, In p (detail_index v ++ summary_index v) ->
     kid_in (metadata (fst p) !! "knowledge_id") [of_string "a"] = true)
  /\ retrieve v [] DETAIL 1 1 0 = retrieve v [of_string "a"] DETAIL 1 1 0.
Proof.
  intros md v.
  assert (H1 : forall p, In p (detail_index v ++ summary_index v) ->
                 kid_in (metadata (fst p) !! "knowledge_id") [of_string "a"] = true).
  { intros p Hp. vm_compute in Hp. destruct Hp as [<-|[]]. vm_compute. reflexivity. }
  assert (H2 : forall es e, bm25_index v = Some es -> In e es ->
                 kid_in (bm_meta e !! "knowledge_id") [of_string "a"] = true).
  { intros es e E. discriminate E. }
  split; [exact H1|].
  exact (proj1 (retrieve_empty_ids_unscoped v [of_string "a"] DETAIL 1 1 0
                  (Reranker.default_reranker false) Reranker.ApiRaises
                  {| Chat.rp_top_k := 1; Chat.rp_vector_weight := 1; Chat.rp_bm25_weight := 0;
                     Chat.rp_use_large_chunk := false |} H1 H2)).
Defined.

(* ------------------------------------------------------------------ *)
(** ** Reranker *)

Module RerankFacts.
Import Retriever Reranker.

Lemma collect_results_nil (t : Q) (items : list (Z * Q)) (res : list RerankResult) :
  collect_results t [] items = Some res -> res = [].
Proof.
  revert res. induction items as [|[idx sc] items IH]; intros res H; simpl in H.
  - injection H as <-. reflexivity.
  - replace (Z.of_nat 0) with 0 in H by reflexivity.
    destruct (idx <? 0) eqn:E; [|exact (IH res H)].
    unfold index_py in H. rewrite E in H. simpl in H.
    destruct (Z.of_nat 0 + idx <? 0); [discriminate H|].
    destruct (Z.to_nat (Z.of_nat 0 + idx)); discriminate H.
Qed.

Lemma collect_results_relevant (t : Q) (docs : list (LCDocument * Q)) (items : list (Z * Q))
    (res : list RerankResult) :
  collect_results t docs items = Some res ->
  forall x, In x res -> is_relevant x = Qle_bool t (rerank_score x).
Proof.
  revert res. induction items as [|[idx sc] items IH]; intros res H x Hx; simpl in H.
  - injection H as <-. destruct Hx.
  - destruct (idx <? Z.of_nat (length docs)); [|exact (IH res H x Hx)].
    destruct (index_py docs idx) as [[d os]|]; [|discriminate H].
    destruct (collect_results t docs items) as [rest|] eqn:Er; [|discriminate H].
    simpl in H. injection H as <-. destruct Hx as [<-|Hx]; [reflexivity|].
    exact (IH rest eq_refl x Hx).
Qed.

End RerankFacts.

(** C6 (counterexample): without an API key, [rerank] returns every
    candidate, with its retrieval score as [rerank_score]: a candidate
    scored 0.1, below the threshold 0.3, is not excluded. *)
Lemma rerank_without_key_keeps_low_scores :
  let d := {| page_content := of_string "x"; metadata := (∅ : meta) |} in
  List.map Reranker.rerank_score
    (Reranker.rerank (Reranker.default_reranker false) Reranker.ApiRaises [(d, 1 # 10)] None)
  = [1 # 10]
  /\ (1 # 10 < Reranker.RERANK_THRESHOLD)%Q.
Proof. split; vm_compute; reflexivity. Qed.

(** C6: when the rerank service answers with status 200 and every index
    the loop reaches is usable, [rerank] (no [top_k]) returns exactly the
    answered candidates whose [rerank_score] is at least the threshold, a
    score equal to it included.  When an index is below [-len(documents)]
    (the [IndexError] the [try] catches), without an API key, on a status
    other than 200 or on an exception, it returns [_fallback_results]:
    every candidate, unfiltered, with its retrieval score as
    [rerank_score]. *)
Theorem rerank_threshold_inclusive (r : Reranker.DashScopeReranker)
    (docs : list (LCDocument * Q)) (items : list (Z * Q)) :
  (Reranker.api_key_set r = true ->
     match Reranker.collect_results (Reranker.threshold r) docs items with
     | Some res =>
         forall x, In x (Reranker.rerank r (Reranker.ApiResponse 200 items) docs None)
                   <-> In x res /\ (Reranker.threshold r <= Reranker.rerank_score x)%Q
     | None =>
         Reranker.rerank r (Reranker.ApiResponse 200 items) docs None
         = Reranker.fallback_results (Reranker.threshold r) docs
     end)
  /\ (forall st, st <> 200 ->
        Reranker.rerank r (Reranker.ApiResponse st items) docs None
        = Reranker.fallback_results (Reranker.threshold r) docs)
  /\ Reranker.rerank r Reranker.ApiRaises docs None
     = Reranker.fallback_results (Reranker.threshold r) docs
  /\ (forall api, Reranker.rerank {| Reranker.api_key_set := false;
                                     Reranker.threshold := Reranker.threshold r |} api docs None
                  = Reranker.fallback_results (Reranker.threshold r) docs)
  /\ List.map (fun x => (Reranker.document x, Reranker.rerank_score x))
       (Reranker.fallback_results (Reranker.threshold r) docs) = docs.
Proof.
  split; [|split; [|split; [|split]]].
  - intros Hkey.
    destruct (Reranker.collect_results (Reranker.threshold r) docs items) as [res|] eqn:Hcol.
    + intros x. unfold Reranker.rerank.
      destruct docs as [|d0 ds] eqn:Ed.
      * rewrite (RerankFacts.collect_results_nil _ _ _ Hcol). simpl. tauto.
      * rewrite <- Ed in *. rewrite Hkey. simpl. rewrite Hcol.
        rewrite filter_In.
        assert (Hp : In x (Reranker.sort_by_rerank res) <-> In x res).
        { split; apply Permutation_in; [|symmetry]; apply StableSortFacts.sort_by_perm. }
        rewrite Hp. split.
        -- intros [Hx Hr]. split; [exact Hx|].
           rewrite (RerankFacts.collect_results_relevant _ _ _ _ Hcol x Hx) in Hr.
           apply Qle_bool_iff, Hr.
        -- intros [Hx Hr]. split; [exact Hx|].
           rewrite (RerankFacts.collect_results_relevant _ _ _ _ Hcol x Hx).
           apply Qle_bool_iff, Hr.
    + unfold Reranker.rerank. destruct docs as [|d0 ds]; [reflexivity|].
      rewrite Hkey. simpl. rewrite Hcol. reflexivity.
  - intros st Hst. unfold Reranker.rerank. destruct docs as [|d0 ds]; [reflexivity|].
    destruct (Reranker.api_key_set r); simpl; [|reflexivity].
    rewrite (proj2 (Z.eqb_neq st 200) Hst). reflexivity.
  - unfold Reranker.rerank. destruct docs as [|d0 ds]; [reflexivity|].
    destruct (Reranker.api_key_set r); reflexivity.
  - intros api. unfold Reranker.rerank. destruct docs as [|d0 ds]; reflexivity.
  - unfold Reranker.fallback_results. rewrite List.map_map.
    rewrite <- (List.map_id docs) at 2. apply List.map_ext. intros [d sc]. reflexivity.
Qed.

(* ------------------------------------------------------------------ *)
(** ** Summarizer *)

Module SummarizerFacts.
Import Summarizer.

Lemma summarize_all_fails (call : llm) (total : Z) (c : pstr) :
  (forall n t, call c n t = None) ->
  forall cs i, In c cs -> summarize_all call total i cs = None.
Proof.
  intros Hc cs. induction cs as [|c0 cs IH]; intros i Hin; [destruct Hin|].
  simpl. destruct Hin as [<-|Hin]; [rewrite Hc; reflexivity|].
  destruct (call c0 (Z.of_nat i + 1) total); [|reflexivity].
  rewrite (IH (S i) Hin). reflexivity.
Qed.

Lemma summary_documents_doc_type (kid : pstr) (md : meta) (l : list ChunkSummary) :
  forall p, In p (summary_documents kid md l) ->
  snd p !! "doc_type" = Some (MStr (of_string "summary")).
Proof.
  intros p Hp. unfold summary_documents in Hp. apply in_map_iff in Hp as [cs [<- _]]. simpl.
  rewrite !lookup_insert_ne by discriminate.
  apply lookup_insert_eq.
Qed.

End SummarizerFacts.

(** C7 (counterexample): when the LLM raises on every call, a 501-char
    document gets the summary [content[:500].strip() + "..."], which is not
    the first 500 characters of the text. *)
Lemma summary_fallback_not_prefix :
  let content := List.repeat 97%N 501 in
  List.map Summarizer.summary
    (Summarizer.generate_chunk_summaries Summarizer.default_summarizer (fun (_ : pstr) (_ _ : Z) => @None pstr) content)
  <> [prefix 500 content].
Proof. vm_compute. discriminate. Qed.

(** C7: if [llm.invoke] raises on any chunk of [_split_content] (whatever
    its number), [generate_chunk_summaries] does not raise: it returns the
    single fallback summary [content[:500].strip()], with ["..."] appended
    when the text is longer than 500 characters, [chunk_index = 0] and
    [original_chunk = content[:chunk_size]]; ingestion stores it with
    [doc_type = "summary"], as every real summary, with no low-fidelity
    mark. *)
Theorem summarizer_failure_fallback (s : Summarizer.DocumentSummarizer) (call : Summarizer.llm)
    (content c : pstr) (kid : pstr) (md : meta) :
  In c (Summarizer.split_content s content) ->
  (forall n t, call c n t = None) ->
  let out := Summarizer.generate_chunk_summaries s call content in
  out = [{| Summarizer.summary := strip (prefix 500 content)
                                  ++ (if 500 <? zlen content then Summarizer.ellipsis else []);
            Summarizer.chunk_index := 0;
            Summarizer.original_chunk := prefix (Z.to_nat (Summarizer.chunk_size s)) content |}]
  /\ (forall p, In p (Summarizer.summary_documents kid md out) ->
        snd p !! "doc_type" = Some (MStr (of_string "summary"))).
Proof.
  intros Hin Hc out.
  assert (Hout : out = Summarizer.fallback_summary s content).
  { unfold out, Summarizer.generate_chunk_summaries.
    rewrite (SummarizerFacts.summarize_all_fails call _ c Hc _ 0 Hin). reflexivity. }
  split.
  - rewrite Hout. unfold Summarizer.fallback_summary.
    destruct (500 <? zlen content); [reflexivity|]. rewrite app_nil_r. reflexivity.
  - apply SummarizerFacts.summary_documents_doc_type.
Qed.

Lemma summarizer_failure_fallback_witness :
  In (of_string "x") (Summarizer.split_content Summarizer.default_summarizer (of_string "x"))
  /\ (forall n t, (fun (_ : pstr) (_ _ : Z) => @None pstr) (of_string "x") n t = None)
  /\ Summarizer.generate_chunk_summaries Summarizer.default_summarizer (fun (_ : pstr) (_ _ : Z) => @None pstr)
       (of_string "x")
     = [{| Summarizer.summary := strip (prefix 500 (of_string "x"))
                                 ++ (if 500 <? zlen (of_string "x") then Summarizer.ellipsis else []);
           Summarizer.chunk_index := 0;
           Summarizer.original_chunk := prefix (Z.to_nat (Summarizer.chunk_size Summarizer.default_summarizer))
                                          (of_string "x") |}].
Proof.
  assert (H1 : In (of_string "x") (Summarizer.split_content Summarizer.default_summarizer (of_string "x")))
    by (vm_compute; left; reflexivity).
  assert (H2 : forall n t, (fun (_ : pstr) (_ _ : Z) => @None pstr) (of_string "x") n t = None)
    by (intros n t; reflexivity).
  split; [exact H1|]. split; [exact H2|].
  exact (proj1 (summarizer_failure_fallback Summarizer.default_summarizer (fun (_ : pstr) (_ _ : Z) => @None pstr)
                  (of_string "x") (of_string "x") [] ∅ H1 H2)).
Defined.

(* ------------------------------------------------------------------ *)
(** ** Chat endpoint *)

Module ChatFacts.
Import Retriever Reranker Chat.

Lemma nonempty_false {A : Type} (l : list A) : nonempty l = false -> l = [].
Proof. destruct l; [reflexivity|discriminate]. Qed.

Lemma index_py_in {A : Type} (l : list A) (i : Z) (x : A) : index_py l i = Some x -> In x l.
Proof.
  unfold index_py. intros H.
  destruct (i <? 0); [destruct (_ <? 0); [discriminate H|]|]; eapply nth_error_In; exact H.
Qed.

Lemma collect_results_from_docs (t : Q) (docs : list (LCDocument * Q)) (items : list (Z * Q))
    (res : list RerankResult) :
  collect_results t docs items = Some res ->
  forall x, In x res -> In (document x, original_score x) docs.
Proof.
  revert res. induction items as [|[idx sc] items IH]; intros res H x Hx; simpl in H.
  - injection H as <-. destruct Hx.
  - destruct (idx <? Z.of_nat (length docs)); [|exact (IH res H x Hx)].
    destruct (index_py docs idx) as [[d os]|] eqn:Ei; [|discriminate H].
    destruct (collect_results t docs items) as [rest|] eqn:Er; [|discriminate H].
    simpl in H. injection H as <-. destruct Hx as [<-|Hx].
    + simpl. exact (index_py_in _ _ _ Ei).
    + exact (IH rest eq_refl x Hx).
Qed.

Lemma rerank_from_docs (r : DashScopeReranker) (api : api_outcome)
    (docs : list (LCDocument * Q)) (top_k : option Z) :
  forall x, In x (rerank r api docs top_k) -> In (document x, original_score x) docs.
Proof.
  intros x Hx. unfold rerank in Hx.
  destruct docs as [|d0 ds]; [destruct Hx|].
  cbv iota in Hx. set (docs := d0 :: ds) in *.
  assert (Hfb : In x (fallback_results (threshold r) docs) -> In (document x, original_score x) docs).
  { unfold fallback_results. intros H. apply in_map_iff in H as [[d s] [<- Hin]]. exact Hin. }
  destruct (negb (api_key_set r)); [exact (Hfb Hx)|].
  destruct api as [st items|]; [|exact (Hfb Hx)].
  destruct (negb (st =? 200)); [exact (Hfb Hx)|].
  destruct (collect_results (threshold r) docs items) as [res|] eqn:Ec; [|exact (Hfb Hx)].
  apply (collect_results_from_docs _ _ _ _ Ec).
  assert (Hrel : In x (List.filter is_relevant (sort_by_rerank res)) -> In x res).
  { intros H. apply filter_In in H as [H _].
    eapply Permutation_in; [apply StableSortFacts.sort_by_perm|exact H]. }
  apply Hrel.
  destruct top_k as [k|]; [|exact Hx].
  destruct (negb (k =? 0) && _); [|exact Hx].
  unfold take_py in Hx. eapply ListFacts.in_firstn; exact Hx.
Qed.

Lemma used_sources_incl {Source : Type} (answer : pstr) (sources : list Source) :
  incl (match Citation.filter_used_sources answer sources with
        | Some (_, used) => used
        | None => []
        end) sources.
Proof.
  rewrite CitationFacts.filter_used_sources_body.
  destruct (Citation.collect_cited _ [] _); [intros s []|].
  destruct (Citation.sub_all _ _); [|intros s []].
  intros s Hs. apply in_flat_map in Hs as [i [_ Hi]].
  unfold Citation.pick in Hi.
  destruct (nth_error sources (Z.to_nat i)) eqn:E; [|destruct Hi].
  destruct Hi as [<-|[]]. eapply nth_error_In; exact E.
Qed.

End ChatFacts.

Import Chat.

(** C10: in [chat], every candidate handed to the reranker is a retrieved
    candidate with a fused score of at least [RELEVANCE_THRESHOLD = 0.35];
    every source given to [_build_prompts] is built (name, and text from
    [large_chunk]) from such a candidate; and the sources returned are
    among them. So a candidate scored below 0.35 is never reranked,
    prompted or returned, unless an equal document is also retrieved with
    a score of at least 0.35. *)
Theorem chat_relevance_threshold (v : view) (rr : Reranker.DashScopeReranker)
    (api : Reranker.api_outcome) (kids : list pstr) (it : IndexType) (params : RetrievalParams)
    (answer : pstr) :
  let c := chat_retrieval v rr api kids it params in
  let raw := retrieve v kids it (rp_top_k params) (rp_vector_weight params) (rp_bm25_weight params) in
  (forall l p, rerank_input c = Some l -> In p l -> In p raw /\ (RELEVANCE_THRESHOLD <= snd p)%Q)
  /\ (forall s, In s (final_sources c) ->
        exists d sc, In (d, sc) raw /\ (RELEVANCE_THRESHOLD <= sc)%Q
                     /\ name s = get_str (metadata d) "name" unknown_source
                     /\ content s = get_str (metadata d) "large_chunk" (page_content d))
  /\ incl (returned_sources answer c) (final_sources c).
Proof.
  cbv zeta. split; [|split; [|unfold returned_sources; apply ChatFacts.used_sources_incl]].
  - unfold chat_retrieval. destruct kids as [|k0 ks]; [intros l p E; discriminate E|].
    cbv zeta.
    destruct (nonempty _ && nonempty _); [|intros l p E; discriminate E].
    simpl. intros l p E Hp. injection E as <-.
    apply filter_In in Hp as [Hp Hs]. split; [exact Hp|apply Qle_bool_iff, Hs].
  - unfold chat_retrieval. destruct kids as [|k0 ks]; [intros s []|].
    cbv zeta.
    set (raw := retrieve v (k0 :: ks) it _ _ _).
    set (sources := List.filter _ (build_sources it _ [] raw)).
    destruct (nonempty sources && nonempty raw) eqn:E; simpl.
    + intros s Hs. apply in_map_iff in Hs as [x [<- Hx]].
      apply ChatFacts.rerank_from_docs in Hx.
      apply filter_In in Hx as [Hx Hsc].
      exists (Reranker.document x), (Reranker.original_score x).
      split; [exact Hx|]. split; [apply Qle_bool_iff, Hsc|]. split; reflexivity.
    + assert (Hnil : sources = []).
      { destruct (nonempty raw) eqn:Er.
        - rewrite andb_true_r in E. apply ChatFacts.nonempty_false, E.
        - apply ChatFacts.nonempty_false in Er. unfold sources. rewrite Er. reflexivity. }
      rewrite Hnil. intros s [].
Qed.

(* ================================================================== *)
(** * Further properties of the retriever *)

Module RetrieveFacts.
Import Retriever ListFacts.

Lemma in_assoc_set {V : Type} (k : mval) (v : V) (r : list (mval * V)) x :
  In x (assoc_set k v r) -> x = (k, v) \/ In x r.
Proof.
  induction r as [|[k' v'] r IH]; simpl.
  - intros [<-|[]]. left. reflexivity.
  - case_bool_decide as E.
    + subst k'. intros [<-|Hx]; [left; reflexivity|right; right; exact Hx].
    + intros [<-|Hx]; [right; left; reflexivity|].
      destruct (IH Hx) as [H|H]; [left; exact H|right; right; exact H].
Qed.

Lemma assoc_lookup_in {V : Type} (k : mval) (r : list (mval * V)) (v : V) :
  assoc_lookup k r = Some v -> exists k', In (k', v) r.
Proof.
  induction r as [|[k' v'] r IH]; simpl; [discriminate|].
  case_bool_decide as Ek.
  - intros [= <-]. exists k'. left. reflexivity.
  - intros Hl. destruct (IH Hl) as [k'' Hin]. exists k''. right. exact Hin.
Qed.

(** An invariant of the [results] dict, on its entries. *)
Definition results_inv (P : entry -> Prop) (r : results) : Prop :=
  forall x, In x r -> P (snd x).

Lemma assoc_set_inv (P : entry -> Prop) (k : mval) (e : entry) (r : results) :
  results_inv P r -> P e -> results_inv P (assoc_set k e r).
Proof.
  intros Hr He x Hx. destruct (in_assoc_set _ _ _ _ Hx) as [->|H]; [exact He|exact (Hr x H)].
Qed.

Lemma vector_loop_inv (P : entry -> Prop) (w : Q) (l : ranked) :
  (forall d s, In (d, s) l -> ~ (1 + s == 0)%Q ->
     P {| edoc := d; vector_score := ((1 / (1 + s)) * w)%Q; bm25_score := 0%Q |}) ->
  forall r, results_inv P r -> results_inv P (vector_loop w l r).
Proof.
  induction l as [|[d s] l IH]; intros Hl r Hr; simpl; [exact Hr|].
  destruct (Qeq_bool (1 + s) 0) eqn:E; [exact Hr|].
  apply IH.
  - intros d' s' Hin. apply Hl. right. exact Hin.
  - apply assoc_set_inv; [exact Hr|]. apply Hl; [left; reflexivity|].
    intros H. apply Qeq_bool_iff in H. congruence.
Qed.

Lemma fold_left_inv {A B : Type} (I : A -> Prop) (f : A -> B -> A) (l : list B) :
  (forall a b, In b l -> I a -> I (f a b)) -> forall a, I a -> I (List.fold_left f l a).
Proof.
  induction l as [|b l IH]; intros Hf a Ha; simpl; [exact Ha|].
  apply IH; [intros a' b' Hb; apply Hf; right; exact Hb|]. apply Hf; [left; reflexivity|exact Ha].
Qed.

Lemma bm25_search_inv (P : entry -> Prop) (hb : bool) (idx : option (list bm25_entry))
    (ids : list pstr) (w : Q) (r : results) :
  (forall es e mx, idx = Some es -> In e es -> (0 < bm_score e)%Q -> ~ (w <= 0)%Q ->
     (forall e', In e' es -> (bm_score e' <= mx)%Q) -> (0 < mx)%Q ->
     (nonempty ids = false \/ kid_in (bm_meta e !! "knowledge_id") ids = true) ->
     (forall en, P en -> P {| edoc := edoc en; vector_score := vector_score en;
                              bm25_score := ((bm_score e / mx) * w)%Q |})
     /\ P {| edoc := {| page_content := bm_text e; metadata := bm_meta e |};
             vector_score := 0%Q; bm25_score := ((bm_score e / mx) * w)%Q |}) ->
  results_inv P r -> results_inv P (bm25_search hb idx ids w r).
Proof.
  intros H Hr. unfold bm25_search.
  destruct hb; simpl; [|exact Hr].
  destruct idx as [es|]; [|exact Hr].
  destruct (Qle_bool w 0) eqn:Ew; [exact Hr|].
  destruct es as [|e0 es']; [exact Hr|].
  set (es := e0 :: es').
  set (m := List.fold_left qmax (List.map bm_score es) (bm_score e0)).
  assert (Hm : forall e', In e' es -> (bm_score e' <= m)%Q).
  { assert (Hge : forall l a, (a <= List.fold_left qmax l a)%Q
                /\ forall x, In x l -> (x <= List.fold_left qmax l a)%Q).
    { induction l as [|y l IH]; intros a; simpl; [split; [lra|intros x []]|].
      destruct (IH (qmax a y)) as [H1 H2].
      assert (Ha : (a <= qmax a y)%Q /\ (y <= qmax a y)%Q).
      { unfold qmax, Qltb. destruct (Qle_bool y a) eqn:E; simpl.
        - apply Qle_bool_iff in E. lra.
        - assert (~ (y <= a)%Q) by (intros Hc; apply Qle_bool_iff in Hc; congruence). lra. }
      split; [lra|]. intros x [<-|Hx]; [lra|exact (H2 x Hx)]. }
    intros e' He'. apply (proj2 (Hge _ _)). apply in_map. exact He'. }
  assert (Hw : ~ (w <= 0)%Q) by (intros Hc; apply Qle_bool_iff in Hc; congruence).
  apply fold_left_inv; [|exact Hr].
  intros a e He Ha. unfold bm25_step.
  destruct (Qltb 0 (bm_score e)) eqn:Ep; [|exact Ha].
  apply SummaryFacts.Qltb_iff in Ep.
  destruct (nonempty ids && negb (kid_in (bm_meta e !! "knowledge_id") ids)) eqn:Ek; [exact Ha|].
  set (mx := if Qltb 0 m then m else 1%Q).
  assert (Hmx : (0 < mx)%Q /\ forall e', In e' es -> (bm_score e' <= mx)%Q).
  { unfold mx. destruct (Qltb 0 m) eqn:Em.
    - apply SummaryFacts.Qltb_iff in Em. split; [exact Em|exact Hm].
    - apply SummaryFacts.Qltb_false in Em. specialize (Hm e He). lra. }
  destruct Hmx as [Hmx0 Hmx].
  assert (Hsc : nonempty ids = false \/ kid_in (bm_meta e !! "knowledge_id") ids = true).
  { destruct (nonempty ids); [right|left; reflexivity].
    destruct (kid_in _ ids); [reflexivity|discriminate Ek]. }
  destruct (H es e mx eq_refl He Ep Hw Hmx Hmx0 Hsc) as [Hupd Hnew].
  destruct (assoc_lookup (doc_id (bm_meta e)) a) as [en|] eqn:El.
  - apply assoc_set_inv; [exact Ha|]. apply Hupd.
    destruct (assoc_lookup_in _ _ _ El) as [k' Hin]. exact (Ha _ Hin).
  - apply assoc_set_inv; [exact Ha|exact Hnew].
Qed.

(** The entries of [fused] satisfy what every entry of the [results] dict
    satisfies. *)
Lemma fused_inv (P : entry -> Prop) (v : view) (ids : list pstr) (top_k : Z) (vw bw : Q) :
  (forall d s, In (d, s) (similarity_search_with_score (detail_index v) (top_k * 2)
                            (filter_condition ids)) -> ~ (1 + s == 0)%Q ->
     P {| edoc := d; vector_score := ((1 / (1 + s)) * vw)%Q; bm25_score := 0%Q |}) ->
  (forall es e mx, bm25_index v = Some es -> In e es -> (0 < bm_score e)%Q -> ~ (bw <= 0)%Q ->
     (forall e', In e' es -> (bm_score e' <= mx)%Q) -> (0 < mx)%Q ->
     (nonempty ids = false \/ kid_in (bm_meta e !! "knowledge_id") ids = true) ->
     (forall en, P en -> P {| edoc := edoc en; vector_score := vector_score en;
                              bm25_score := ((bm_score e / mx) * bw)%Q |})
     /\ P {| edoc := {| page_content := bm_text e; metadata := bm_meta e |};
             vector_score := 0%Q; bm25_score := ((bm_score e / mx) * bw)%Q |}) ->
  forall p, In p (fused v ids top_k vw bw) ->
  exists en, P en /\ p = (edoc en, (vector_score en + bm25_score en)%Q).
Proof.
  intros Hv Hb p Hp. unfold fused in Hp. apply in_map_iff in Hp as [x [<- Hx]].
  exists (snd x). split; [|reflexivity].
  revert x Hx. apply bm25_search_inv; [exact Hb|].
  unfold vector_search. apply vector_loop_inv; [exact Hv|]. intros x [].
Qed.

Lemma dedup_loop_sorted (R : LCDocument * Q -> LCDocument * Q -> Prop)
    (top_k : Z) (l : list (LCDocument * Q)) :
  StronglySorted R l -> forall seen n,
  StronglySorted R (dedup_loop top_k seen n l) /\ incl (dedup_loop top_k seen n l) l.
Proof.
  induction l as [|[d s] l IH]; intros Hs seen n; simpl.
  - split; [constructor|intros x []].
  - apply StronglySorted_inv in Hs as [Hs Hhd]. rewrite List.Forall_forall in Hhd.
    destruct (existsb _ seen).
    + destruct (IH Hs seen n) as [H1 H2]. split; [exact H1|]. intros x Hx. right. exact (H2 x Hx).
    + assert (Hr : forall rest, StronglySorted R rest /\ incl rest l ->
                StronglySorted R ((d, s) :: rest) /\ incl ((d, s) :: rest) ((d, s) :: l)).
      { intros rest [H1 H2]. split.
        - constructor; [exact H1|]. apply List.Forall_forall. intros x Hx. apply Hhd, H2, Hx.
        - intros x [<-|Hx]; [left; reflexivity|right; apply H2, Hx]. }
      apply Hr. destruct (top_k <=? n + 1); [split; [constructor|intros x []]|apply IH, Hs].
Qed.

Lemma strongly_sorted_prefix {A : Type} (R : A -> A -> Prop) (l1 l2 : list A) :
  StronglySorted R (l1 ++ l2) -> StronglySorted R l1.
Proof.
  induction l1 as [|a l1 IH]; simpl; intros H; [constructor|].
  apply StronglySorted_inv in H as [H F]. constructor; [exact (IH H)|].
  rewrite List.Forall_forall in *. intros x Hx. apply F, in_or_app. left. exact Hx.
Qed.

Lemma strongly_sorted_firstn {A : Type} (R : A -> A -> Prop) (n : nat) (l : list A) :
  StronglySorted R l -> StronglySorted R (firstn n l).
Proof.
  intros H. rewrite <- (firstn_skipn n l) in H. exact (strongly_sorted_prefix _ _ _ H).
Qed.

Lemma strongly_sorted_map {A B : Type} (R : B -> B -> Prop) (f : A -> B) (l : list A) :
  StronglySorted (fun a b => R (f a) (f b)) l -> StronglySorted R (List.map f l).
Proof.
  induction l as [|a l IH]; simpl; intros H; [constructor|].
  apply StronglySorted_inv in H as [H F]. constructor; [exact (IH H)|].
  rewrite List.Forall_forall in *. intros y Hy. apply in_map_iff in Hy as [x [<- Hx]].
  exact (F x Hx).
Qed.

(** The groups of [_retrieve_from_summary] keep the metadata of one of
    their candidates. *)
Lemma groups_gmeta (vw : Q) (R : ranked) :
  forall e, In e (List.fold_left (group_step vw) R []) ->
  exists p, In p R /\ gmeta (snd e) = metadata (fst p).
Proof.
  set (I := fun (gs : list (mval * group)) =>
    forall e, In e gs -> exists p, In p R /\ gmeta (snd e) = metadata (fst p)).
  change (I (List.fold_left (group_step vw) R [])).
  apply fold_left_inv; [|intros e []].
  intros gs p Hp Hgs e He. unfold group_step, assoc_update in He.
  apply in_map_iff in He as [e0 [<- He0]].
  assert (Hg0 : exists q, In q R /\ gmeta (snd e0) = metadata (fst q)).
  { destruct (existsb _ gs); [exact (Hgs e0 He0)|].
    apply in_app_or in He0 as [He0|[<-|[]]]; [exact (Hgs e0 He0)|].
    exists p. split; [exact Hp|reflexivity]. }
  destruct (bool_decide _); [|exact Hg0]. simpl.
  destruct Hg0 as [q [Hq E]]. exists q. split; [exact Hq|].
  unfold add_to_group.
  repeat match goal with |- context [if ?b then _ else _] => destruct b end; exact E.
Qed.

Lemma emit_meta_kid (e : mval * group) :
  metadata (fst (emit e)) !! "knowledge_id" = gmeta (snd e) !! "knowledge_id".
Proof. unfold emit. simpl. rewrite !lookup_insert_ne by discriminate. reflexivity. Qed.

End RetrieveFacts.

Section RetrieveTheorems.
Import Retriever.

Lemma search_scoped (store : ranked) (k : Z) (ids : list pstr) (p : LCDocument * Q) :
  ids <> [] -> In p (similarity_search_with_score store k (filter_condition ids)) ->
  kid_in (metadata (fst p) !! "knowledge_id") ids = true.
Proof.
  intros Hne Hp. unfold similarity_search_with_score in Hp.
  apply ListFacts.in_firstn, filter_In in Hp as [_ Hp].
  destruct ids as [|i ids]; [congruence|]. exact Hp.
Qed.

(** X1: with a non-empty [knowledge_ids] list, every document [retrieve]
    returns, from either index, carries a [knowledge_id] metadata value
    that is one of those ids: both the vector searches and the BM25 search
    are scoped. *)
Theorem retrieve_scoped_to_ids (v : view) (ids : list pstr) (it : IndexType) (top_k : Z)
    (vw bw : Q) :
  ids <> [] ->
  forall p, In p (retrieve v ids it top_k vw bw) ->
  kid_in (metadata (fst p) !! "knowledge_id") ids = true.
Proof.
  intros Hne p Hp. destruct it; simpl in Hp.
  - unfold retrieve_from_detail in Hp.
    destruct (DetailFacts.dedup_loop_spec top_k _ (DetailFacts.sort_desc_sorted (fused v ids top_k vw bw)) [] 0)
      as [Hincl _].
    apply Hincl in Hp.
    eapply Permutation_in in Hp; [|apply DetailFacts.sort_desc_perm].
    destruct (RetrieveFacts.fused_inv
                (fun en => kid_in (metadata (edoc en) !! "knowledge_id") ids = true)
                v ids top_k vw bw) with (p := p) as [en [Hen ->]].
    + intros d s Hds _. exact (search_scoped _ _ _ (d, s) Hne Hds).
    + intros es e mx _ _ _ _ _ _ [Hn|Hk].
      * destruct ids; [congruence|discriminate Hn].
      * split; [intros en Hen; exact Hen|exact Hk].
    + exact Hp.
    + exact Hen.
  - unfold retrieve_from_summary in Hp.
    destruct (existsb _ _); [destruct Hp|].
    apply in_map_iff in Hp as [e [<- He]].
    unfold take_py in He. apply ListFacts.in_firstn in He.
    eapply Permutation_in in He; [|apply StableSortFacts.sort_by_perm].
    destruct (RetrieveFacts.groups_gmeta vw _ e He) as [q [Hq E]].
    rewrite RetrieveFacts.emit_meta_kid, E.
    exact (search_scoped _ _ _ q Hne Hq).
Qed.

(** X2: [retrieve] returns its candidates by descending score, on both
    paths: [_retrieve_from_detail] keeps the order of its sorted fused
    list, [_retrieve_from_summary] the order of its groups sorted by
    maximum score. *)
Theorem retrieve_sorted_desc (v : view) (ids : list pstr) (it : IndexType) (top_k : Z)
    (vw bw : Q) :
  StronglySorted (fun a b => (snd b <= snd a)%Q) (retrieve v ids it top_k vw bw).
Proof.
  destruct it; simpl.
  - unfold retrieve_from_detail.
    exact (proj1 (RetrieveFacts.dedup_loop_sorted _ top_k _ (DetailFacts.sort_desc_sorted (fused v ids top_k vw bw)) [] 0)).
  - unfold retrieve_from_summary. destruct (existsb _ _); [constructor|].
    apply RetrieveFacts.strongly_sorted_map. unfold take_py.
    apply RetrieveFacts.strongly_sorted_firstn.
    exact (ListFacts.sort_by_desc_sorted (fun e => max_score (snd e)) _).
Qed.

End RetrieveTheorems.

Module ScoreFacts.
Import Retriever.

Lemma inv_le_1 (s : Q) : (0 <= s)%Q -> (0 < 1 / (1 + s))%Q /\ (1 / (1 + s) <= 1)%Q.
Proof.
  intros Hs. split.
  - apply Qlt_shift_div_l; lra.
  - apply Qle_shift_div_r; lra.
Qed.

Lemma scaled_bounds (t w : Q) : (0 <= t)%Q -> (t <= 1)%Q -> (0 <= w)%Q ->
  (0 <= t * w)%Q /\ (t * w <= w)%Q.
Proof.
  intros H0 H1 Hw. split.
  - apply Qmult_le_0_compat; assumption.
  - assert (H : (0 <= (1 - t) * w)%Q) by (apply Qmult_le_0_compat; lra).
    assert (E : ((1 - t) * w == w - t * w)%Q) by ring. rewrite E in H. lra.
Qed.

Lemma normalized_bounds (vw s : Q) : (0 <= vw)%Q -> (0 <= s)%Q ->
  (0 <= normalized vw s)%Q /\ (normalized vw s <= vw)%Q.
Proof.
  intros Hw Hs. destruct (inv_le_1 s Hs). unfold normalized. apply scaled_bounds; lra.
Qed.

Lemma ratio_bounds (b m w : Q) : (0 < b)%Q -> (b <= m)%Q -> (0 < w)%Q ->
  (0 <= b / m * w)%Q /\ (b / m * w <= w)%Q.
Proof.
  intros Hb Hm Hw. apply scaled_bounds; [| |lra].
  - apply Qle_shift_div_l; lra.
  - apply Qle_shift_div_r; lra.
Qed.

End ScoreFacts.

Section ScoreTheorems.
Import Retriever.

(** X3: with non-negative weights and the non-negative distances Chroma
    returns, every score [retrieve] gives lies between [0] and
    [vector_weight + bm25_weight] on the DETAIL path (the vector part
    [1 / (1 + distance) * vector_weight] is at most [vector_weight], the
    BM25 part [score / max_score * bm25_weight] at most [bm25_weight]), and
    between [0] and [vector_weight] on the SUMMARY path. *)
Theorem retrieve_score_bounds (v : view) (ids : list pstr) (it : IndexType) (top_k : Z)
    (vw bw : Q) :
  (0 <= vw)%Q -> (0 <= bw)%Q ->
  (forall p, In p (detail_index v) -> (0 <= snd p)%Q) ->
  (forall p, In p (summary_index v) -> (0 <= snd p)%Q) ->
  forall p, In p (retrieve v ids it top_k vw bw) ->
  (0 <= snd p)%Q /\ (snd p <= match it with DETAIL => vw + bw | SUMMARY => vw end)%Q.
Proof.
  intros Hvw Hbw Hd Hs p Hp. destruct it; simpl in Hp.
  - unfold retrieve_from_detail in Hp.
    destruct (DetailFacts.dedup_loop_spec top_k _
                (DetailFacts.sort_desc_sorted (fused v ids top_k vw bw)) [] 0) as [Hincl _].
    apply Hincl in Hp.
    eapply Permutation_in in Hp; [|apply DetailFacts.sort_desc_perm].
    destruct (RetrieveFacts.fused_inv
                (fun en => (0 <= vector_score en <= vw)%Q /\ (0 <= bm25_score en <= bw)%Q)
                v ids top_k vw bw) with (p := p) as [en [Hen ->]].
    + intros d s Hds _. simpl.
      unfold similarity_search_with_score in Hds.
      apply ListFacts.in_firstn, filter_In in Hds as [Hds _].
      pose proof (ScoreFacts.normalized_bounds vw s Hvw (Hd _ Hds)) as Hn.
      unfold normalized in Hn. split; [exact Hn|lra].
    + intros es e mx _ He Hpos Hw Hmx Hmx0 _.
      assert (Hbw' : (0 < bw)%Q) by lra.
      pose proof (ScoreFacts.ratio_bounds _ _ _ Hpos (Hmx e He) Hbw') as Hr.
      split; [intros en' [H1 _]; simpl; split; [exact H1|exact Hr]|simpl; split; [lra|exact Hr]].
    + exact Hp.
    + simpl. lra.
  - unfold retrieve_from_summary in Hp.
    destruct (existsb _ _); [destruct Hp|].
    apply in_map_iff in Hp as [e [<- He]].
    unfold take_py in He. apply ListFacts.in_firstn in He.
    eapply Permutation_in in He; [|apply StableSortFacts.sort_by_perm].
    destruct (SummaryFacts.groups_fold_inv vw
                (similarity_search_with_score (summary_index v) (top_k * 3) (filter_condition ids)))
      as (_ & _ & Hg).
    destruct e as [k g].
    destruct (Hg k g He) as (_ & [q [Hq [_ Em]]] & _).
    simpl. rewrite Em.
    unfold similarity_search_with_score in Hq.
    apply ListFacts.in_firstn, filter_In in Hq as [Hq _].
    exact (ScoreFacts.normalized_bounds vw (snd q) Hvw (Hs q Hq)).
Qed.

End ScoreTheorems.

Module RerankMoreFacts.
Import Retriever Reranker.

Lemma fallback_identity (t : Q) (docs : list (LCDocument * Q)) :
  List.map (fun x => (document x, rerank_score x)) (fallback_results t docs) = docs.
Proof.
  unfold fallback_results. rewrite List.map_map. simpl.
  induction docs as [|[d s] docs IH]; simpl; [reflexivity|]. rewrite IH. reflexivity.
Qed.

Lemma fallback_flag (t : Q) (docs : list (LCDocument * Q)) :
  forall x, In x (fallback_results t docs) -> is_relevant x = Qle_bool t (rerank_score x).
Proof.
  intros x Hx. unfold fallback_results in Hx. apply in_map_iff in Hx as [p [<- _]]. reflexivity.
Qed.

Lemma length_take_py_pos {A : Type} (k : Z) (l : list A) :
  1 <= k -> (length (take_py k l) <= Z.to_nat k)%nat.
Proof.
  intros Hk. unfold take_py. replace (k <? 0) with false by (symmetry; apply Z.ltb_ge; lia).
  rewrite List.length_firstn. lia.
Qed.

Lemma strongly_sorted_filter {A : Type} (R : A -> A -> Prop) (f : A -> bool) (l : list A) :
  StronglySorted R l -> StronglySorted R (List.filter f l).
Proof.
  induction l as [|a l IH]; simpl; intros H; [constructor|].
  apply StronglySorted_inv in H as [H F]. destruct (f a); [|exact (IH H)].
  constructor; [exact (IH H)|]. rewrite List.Forall_forall in *.
  intros y Hy. apply filter_In in Hy as [Hy _]. exact (F y Hy).
Qed.

End RerankMoreFacts.

Section RerankTheorems.
Import Retriever Reranker.

(** X4: on every path of [rerank] (no API key, request exception, non-200
    status, bad index, success) each returned result's [is_relevant] flag
    is exactly [rerank_score >= threshold]. *)
Theorem rerank_flag_matches_threshold (r : DashScopeReranker) (api : api_outcome)
    (docs : list (LCDocument * Q)) (top_k : option Z) :
  forall x, In x (rerank r api docs top_k) -> is_relevant x = Qle_bool (threshold r) (rerank_score x).
Proof.
  intros x Hx. unfold rerank in Hx.
  destruct docs as [|d0 ds]; [destruct Hx|].
  cbv iota in Hx. set (docs := d0 :: ds) in *.
  pose proof (RerankMoreFacts.fallback_flag (threshold r) docs x) as Hfb.
  destruct (negb (api_key_set r)); [exact (Hfb Hx)|].
  destruct api as [st items|]; [|exact (Hfb Hx)].
  destruct (negb (st =? 200)); [exact (Hfb Hx)|].
  destruct (collect_results (threshold r) docs items) as [res|] eqn:Ec; [|exact (Hfb Hx)].
  apply (RerankFacts.collect_results_relevant _ _ _ _ Ec).
  assert (Hrel : In x (List.filter is_relevant (sort_by_rerank res)) -> In x res).
  { intros H. apply filter_In in H as [H _].
    eapply Permutation_in; [apply StableSortFacts.sort_by_perm|exact H]. }
  apply Hrel.
  destruct top_k as [k|]; [|exact Hx].
  destruct (negb (k =? 0) && _); [|exact Hx].
  unfold take_py in Hx. eapply ListFacts.in_firstn; exact Hx.
Qed.

(** X5: when the rerank service answers with status 200 and every index it
    returns is usable, [rerank] returns its results by descending rerank
    score, and a positive [top_k] bounds their number. *)
Theorem rerank_success_sorted_bounded (r : DashScopeReranker) (st : Z) (items : list (Z * Q))
    (docs : list (LCDocument * Q)) (top_k : option Z) (res : list RerankResult) :
  api_key_set r = true -> st = 200 ->
  collect_results (threshold r) docs items = Some res ->
  let out := rerank r (ApiResponse st items) docs top_k in
  StronglySorted (fun a b => (rerank_score b <= rerank_score a)%Q) out
  /\ (forall k, top_k = Some k -> 1 <= k -> (length out <= Z.to_nat k)%nat).
Proof.
  intros Hk Hst Hc out. unfold out, rerank. subst st.
  destruct docs as [|d0 ds].
  { split; [constructor|intros k _ _; simpl; lia]. }
  cbv iota. rewrite Hk, Hc. simpl negb. cbv iota.
  assert (Hs : StronglySorted (fun a b => (rerank_score b <= rerank_score a)%Q)
                 (List.filter is_relevant (sort_by_rerank res))).
  { apply RerankMoreFacts.strongly_sorted_filter. exact (ListFacts.sort_by_desc_sorted rerank_score res). }
  destruct top_k as [k|].
  - destruct (negb (k =? 0) && (k <? Z.of_nat (length (List.filter is_relevant (sort_by_rerank res))))) eqn:E.
    + split.
      * unfold take_py. apply RetrieveFacts.strongly_sorted_firstn, Hs.
      * intros k' [= <-] Hk1. apply RerankMoreFacts.length_take_py_pos, Hk1.
    + split; [exact Hs|]. intros k' [= <-] Hk1.
      apply andb_false_iff in E as [E|E].
      * apply negb_false_iff, Z.eqb_eq in E. lia.
      * apply Z.ltb_ge in E. lia.
  - split; [exact Hs|]. intros k' E. discriminate E.
Qed.

End RerankTheorems.

Section RerankSimpleTheorems.
Import Retriever Reranker RerankSimple.

(** X6: [rerank_simple] hands back its input list unchanged, documents,
    scores and order, whenever the reranker has no API key, the request
    raises, or the service answers with a status other than 200. *)
Theorem rerank_simple_fallback_identity (r : DashScopeReranker) (api : api_outcome)
    (docs : list (LCDocument * Q)) (top_k : option Z) :
  (api_key_set r = false \/ api = ApiRaises
   \/ exists st items, api = ApiResponse st items /\ st <> 200) ->
  rerank_simple r api docs top_k = docs.
Proof.
  intros H. unfold rerank_simple, rerank.
  destruct docs as [|d0 ds]; [reflexivity|]. cbv iota.
  destruct H as [Hk|[->|(st & items & -> & Hst)]].
  - rewrite Hk. apply RerankMoreFacts.fallback_identity.
  - destruct (negb (api_key_set r)); apply RerankMoreFacts.fallback_identity.
  - destruct (negb (api_key_set r)); [apply RerankMoreFacts.fallback_identity|].
    replace (negb (st =? 200)) with true by (symmetry; apply negb_true_iff, Z.eqb_neq, Hst).
    apply RerankMoreFacts.fallback_identity.
Qed.

End RerankSimpleTheorems.

(* ================================================================== *)
(** * Identifiers of stored documents *)

Module IdFacts.
Import Chunker.

Lemma uint_digits_inj (a b : Decimal.uint) : uint_digits a = uint_digits b -> a = b.
Proof.
  revert b. induction a; intros b H; destruct b; simpl in H;
    try discriminate H; try reflexivity;
    injection H as H; f_equal; apply IHa; exact H.
Qed.

Lemma str_of_Z_inj (a b : Z) : 0 <= a -> 0 <= b -> str_of_Z a = str_of_Z b -> a = b.
Proof.
  intros Ha Hb H. unfold str_of_Z in H. apply uint_digits_inj in H.
  apply (f_equal N.of_uint) in H. rewrite !DecimalN.Unsigned.of_to in H. lia.
Qed.

Lemma uint_digits_no_underscore (d : Decimal.uint) : ~ In 95%N (uint_digits d).
Proof.
  induction d; simpl; try tauto; intros [H|H]; try discriminate H; tauto.
Qed.

Lemma str_of_int_nonneg (z : Z) : 0 <= z -> str_of_int z = str_of_Z z.
Proof. intros H. unfold str_of_int. replace (z <? 0) with false by (symmetry; apply Z.ltb_ge, H). reflexivity. Qed.

Lemma str_of_int_nat_inj (a b : nat) : str_of_int (Z.of_nat a) = str_of_int (Z.of_nat b) -> a = b.
Proof.
  rewrite !str_of_int_nonneg by lia. intros H. apply str_of_Z_inj in H; lia.
Qed.

Lemma str_of_int_nat_no_underscore (a : nat) : ~ In 95%N (str_of_int (Z.of_nat a)).
Proof. rewrite str_of_int_nonneg by lia. apply uint_digits_no_underscore. Qed.

Lemma split_at_sep (u : N) (a a' b b' : list N) :
  ~ In u a -> ~ In u a' -> a ++ u :: b = a' ++ u :: b' -> a = a' /\ b = b'.
Proof.
  revert a'. induction a as [|x a IH]; intros a' Ha Ha' E; destruct a' as [|x' a']; simpl in E.
  - injection E as E. split; [reflexivity|exact E].
  - injection E as E1 E2. exfalso. apply Ha'. left. symmetry. exact E1.
  - injection E as E1 E2. exfalso. apply Ha. left. exact E1.
  - injection E as E1 E2. subst x'.
    destruct (IH a') as [-> ->]; [intros H; apply Ha; right; exact H
                                 |intros H; apply Ha'; right; exact H|exact E2|].
    split; reflexivity.
Qed.

(** The chunk id [f"{kid}_{large_idx}_{small_idx}"] determines both
    indices, whatever the knowledge id holds (underscores included). *)
Lemma make_chunk_id_inj (md : meta) (l s l' s' : nat) :
  make_chunk_id md l s = make_chunk_id md l' s' -> l = l' /\ s = s'.
Proof.
  unfold make_chunk_id, underscore. intros E.
  apply (f_equal (@rev N)) in E.
  rewrite !rev_app_distr in E. simpl in E. rewrite <- !app_assoc in E. simpl in E.
  apply split_at_sep in E as [E1 E2];
    [|rewrite <- in_rev; apply str_of_int_nat_no_underscore
     |rewrite <- in_rev; apply str_of_int_nat_no_underscore].
  apply split_at_sep in E2 as [E3 _];
    [|rewrite <- in_rev; apply str_of_int_nat_no_underscore
     |rewrite <- in_rev; apply str_of_int_nat_no_underscore].
  apply (f_equal (@rev N)) in E1, E3. rewrite !rev_involutive in E1, E3.
  split; apply str_of_int_nat_inj; assumption.
Qed.

Lemma in_enum_map_idx {A B : Type} (f : nat -> B) (j : nat) (l : list A) (b : B) :
  In b (enum_map (fun i _ => f i) j l) -> exists i, (j <= i)%nat /\ b = f i.
Proof.
  revert j. induction l as [|x l IH]; intros j H; simpl in H; [destruct H|].
  destruct H as [<-|H]; [exists j; split; [lia|reflexivity]|].
  destruct (IH (S j) H) as [i [Hi ->]]. exists i. split; [lia|reflexivity].
Qed.

Lemma nodup_enum_map {A B : Type} (f : nat -> B) (j : nat) (l : list A) :
  (forall i i', f i = f i' -> i = i') -> List.NoDup (enum_map (fun i _ => f i) j l).
Proof.
  intros Hf. revert j. induction l as [|x l IH]; intros j; simpl; constructor; [|apply IH].
  intros H. destruct (in_enum_map_idx f (S j) l _ H) as [i [Hi E]].
  apply Hf in E. lia.
Qed.

Lemma in_concat_enum_idx {A C : Type} (g : nat -> A -> list C) (j : nat) (L : list A) (c : C)
    (P : nat -> C -> Prop) :
  (forall i x, forall c, In c (g i x) -> P i c) ->
  In c (List.concat (enum_map g j L)) -> exists i, (j <= i)%nat /\ P i c.
Proof.
  intros Hg. revert j. induction L as [|x L IH]; intros j H; simpl in H; [destruct H|].
  apply in_app_or in H as [H|H].
  - exists j. split; [lia|exact (Hg j x c H)].
  - destruct (IH (S j) H) as [i [Hi HP]]. exists i. split; [lia|exact HP].
Qed.

(** Ids of a two-level enumeration are distinct when they determine both
    indices. *)
Lemma nodup_concat_enum {A B C : Type} (f : nat -> nat -> C) (g : A -> list B) (j : nat) (L : list A) :
  (forall l s l' s', f l s = f l' s' -> l = l' /\ s = s') ->
  List.NoDup (List.concat (enum_map (fun l x => enum_map (fun s _ => f l s) 0 (g x)) j L)).
Proof.
  intros Hf. revert j. induction L as [|x L IH]; intros j; simpl; [constructor|].
  apply List.NoDup_app; [| apply IH |].
  - apply nodup_enum_map. intros i i' E. exact (proj2 (Hf _ _ _ _ E)).
  - intros c Hc Hc'.
    destruct (in_enum_map_idx (f j) 0 (g x) c Hc) as [s [_ ->]].
    destruct (in_concat_enum_idx (fun l x => enum_map (fun s _ => f l s) 0 (g x)) (S j) L (f j s) (fun l c => exists s', c = f l s')) as [l [Hl [s' E]]];
      [|exact Hc'|].
    + intros i y c' Hy. destruct (in_enum_map_idx (f i) 0 (g y) c' Hy) as [s' [_ ->]].
      exists s'. reflexivity.
    + apply Hf in E. lia.
Qed.

Lemma chunk_ids_eq (cfg : chunker) (content : pstr) (md : meta) :
  List.map chunk_id (create_hierarchical_chunks cfg content md)
  = List.concat (enum_map (fun l large =>
      enum_map (fun s _ => make_chunk_id md l s) 0 (split_into_chunks large (small_chunk_size cfg)))
      0 (split_into_chunks (replace_cr (replace_crlf content)) (large_chunk_size cfg))).
Proof.
  unfold create_hierarchical_chunks. rewrite List.concat_map, ChunkerFacts.map_enum_map.
  f_equal. apply ChunkerFacts.enum_map_ext. intros l large.
  rewrite ChunkerFacts.map_enum_map. reflexivity.
Qed.

Lemma chunk_ids_nodup (cfg : chunker) (content : pstr) (md : meta) :
  List.NoDup (List.map chunk_id (create_hierarchical_chunks cfg content md)).
Proof.
  rewrite chunk_ids_eq.
  apply (nodup_concat_enum (make_chunk_id md) (fun large => split_into_chunks large (small_chunk_size cfg))).
  apply make_chunk_id_inj.
Qed.

End IdFacts.

Section IdTheorems.
Import Chunker.

(** X7: [create_hierarchical_chunks] gives every chunk of a document its
    own [chunk_id]: the ids [f"{kid}_{large_idx}_{small_idx}"] are pairwise
    distinct, so [add_documents(ids=...)] never receives the same id twice
    for one document, even when the knowledge id contains underscores. *)
Theorem chunk_ids_distinct (cfg : chunker) (content : pstr) (md : meta) :
  List.NoDup (List.map chunk_id (create_hierarchical_chunks cfg content md)).
Proof. apply IdFacts.chunk_ids_nodup. Qed.

End IdTheorems.

Module SummaryIdFacts.
Import Chunker Summarizer.

Lemma summarize_all_indices (call : llm) (total : Z) (cs : list pstr) :
  forall i l, summarize_all call total i cs = Some l ->
  List.map chunk_index l = List.map Z.of_nat (seq i (length cs)).
Proof.
  induction cs as [|c cs IH]; intros i l H; simpl in H.
  - injection H as <-. reflexivity.
  - destruct (call c (Z.of_nat i + 1) total); [|discriminate H].
    destruct (summarize_all call total (S i) cs) as [l'|] eqn:E; [|discriminate H].
    simpl in H. injection H as <-. simpl. f_equal. exact (IH (S i) l' E).
Qed.

Lemma summarize_all_success (call : llm) (total : Z) (cs : list pstr) :
  (forall c, In c cs -> forall n t, call c n t <> None) ->
  forall i, exists l, summarize_all call total i cs = Some l
  /\ length l = length cs
  /\ forall j c, nth_error cs j = Some c ->
     exists reply, call c (Z.of_nat (i + j) + 1) total = Some reply
     /\ nth_error l j = Some {| summary := strip reply; chunk_index := Z.of_nat (i + j);
                               original_chunk := c |}.
Proof.
  induction cs as [|c cs IH]; intros Hc i; simpl.
  - exists []. split; [reflexivity|]. split; [reflexivity|]. intros [|j] c' E; discriminate E.
  - destruct (call c (Z.of_nat i + 1) total) as [reply|] eqn:Er;
      [|exfalso; exact (Hc c (or_introl eq_refl) _ _ Er)].
    destruct (IH (fun c' H => Hc c' (or_intror H)) (S i)) as [l [El [Hlen Hnth]]].
    rewrite El. simpl. eexists. split; [reflexivity|]. split; [simpl; rewrite Hlen; reflexivity|].
    intros [|j] c' E; simpl in E.
    + injection E as <-. exists reply. rewrite Nat.add_0_r. split; [exact Er|reflexivity].
    + destruct (Hnth j c' E) as [reply' [E1 E2]]. exists reply'.
      replace (i + S j)%nat with (S i + j)%nat by lia. split; [exact E1|exact E2].
Qed.

Lemma generate_indices (s : DocumentSummarizer) (call : llm) (content : pstr) :
  exists n, List.map chunk_index (generate_chunk_summaries s call content)
            = List.map Z.of_nat (seq 0 (S n)).
Proof.
  unfold generate_chunk_summaries.
  destruct (summarize_all _ _ 0 (split_content s content)) as [l|] eqn:E.
  - apply summarize_all_indices in E. rewrite E.
    unfold split_content. destruct (List.fold_left _ _ _) as [chunks cur].
    destruct (if nonblank cur then _ else _) as [|x xs]; [exists 0%nat; reflexivity|].
    exists (length xs). reflexivity.
  - exists 0%nat. reflexivity.
Qed.

Lemma summary_id_inj (kid : pstr) (a b : ChunkSummary) (i j : nat) :
  chunk_index a = Z.of_nat i -> chunk_index b = Z.of_nat j ->
  Indexing.summary_id kid a = Indexing.summary_id kid b -> i = j.
Proof.
  unfold Indexing.summary_id. intros Ha Hb E. rewrite Ha, Hb in E.
  apply app_inv_head in E. apply app_inv_head in E. apply IdFacts.str_of_int_nat_inj, E.
Qed.

Lemma nodup_map_of_key {A B : Type} (f : A -> B) (key : A -> Z) (l : list A) :
  (forall a b, In a l -> In b l -> f a = f b -> key a = key b) ->
  List.NoDup (List.map key l) -> List.NoDup (List.map f l).
Proof.
  induction l as [|a l IH]; intros Hf Hk; simpl; [constructor|].
  simpl in Hk. apply NoDup_cons_iff in Hk as [Hn Hk]. constructor.
  - intros Hin. apply in_map_iff in Hin as [b [E Hb]]. apply Hn.
    apply in_map_iff. exists b. split; [|exact Hb].
    symmetry. apply Hf; [left; reflexivity|right; exact Hb|symmetry; exact E].
  - apply IH; [|exact Hk]. intros x y Hx Hy. apply Hf; right; assumption.
Qed.

Lemma nodup_map_inj {A B : Type} (f : A -> B) (l : list A) :
  (forall x y, f x = f y -> x = y) -> List.NoDup l -> List.NoDup (List.map f l).
Proof.
  intros Hf Hl. induction Hl as [|a l Ha Hl IH]; simpl; constructor; [|exact IH].
  intros Hin. apply in_map_iff in Hin as [b [E Hb]]. apply Hf in E. subst b. exact (Ha Hb).
Qed.

Lemma summary_ids_nodup (kid : pstr) (s : DocumentSummarizer) (call : llm) (content : pstr) :
  List.NoDup (List.map (Indexing.summary_id kid) (generate_chunk_summaries s call content)).
Proof.
  destruct (generate_indices s call content) as [n E].
  apply (nodup_map_of_key _ chunk_index).
  - intros a b Ha Hb Eab.
    assert (Hn : forall x, In x (generate_chunk_summaries s call content) ->
                 exists i, chunk_index x = Z.of_nat i).
    { intros x Hx. apply (in_map chunk_index) in Hx. rewrite E in Hx.
      apply in_map_iff in Hx as [i [Ei _]]. exists i. symmetry. exact Ei. }
    destruct (Hn a Ha) as [i Ei]. destruct (Hn b Hb) as [j Ej].
    rewrite Ei, Ej. f_equal. exact (summary_id_inj kid a b i j Ei Ej Eab).
  - rewrite E. apply nodup_map_inj; [intros x y; lia|apply seq_NoDup].
Qed.

Lemma generate_nonempty (s : DocumentSummarizer) (call : llm) (content : pstr) :
  generate_chunk_summaries s call content <> [].
Proof.
  destruct (generate_indices s call content) as [n E]. intros H. rewrite H in E. discriminate E.
Qed.

End SummaryIdFacts.

Section SummarizerTheorems.
Import Summarizer.

(** X8: when the LLM answers for every chunk of [_split_content],
    [generate_chunk_summaries] returns one summary per chunk, in order:
    the [j]-th has [chunk_index = j], the [j]-th chunk as
    [original_chunk], and the stripped reply to the prompt for chunk
    [j + 1] of [len(chunks)] as [summary]. *)
Theorem generate_chunk_summaries_success (s : DocumentSummarizer) (call : llm) (content : pstr) :
  let cs := split_content s content in
  (forall c, In c cs -> forall n t, call c n t <> None) ->
  let out := generate_chunk_summaries s call content in
  length out = length cs
  /\ forall j c, nth_error cs j = Some c ->
     exists reply, call c (Z.of_nat j + 1) (Z.of_nat (length cs)) = Some reply
     /\ nth_error out j = Some {| summary := strip reply; chunk_index := Z.of_nat j;
                                 original_chunk := c |}.
Proof.
  intros cs Hc out. unfold out, generate_chunk_summaries. fold cs.
  destruct (SummaryIdFacts.summarize_all_success call (Z.of_nat (length cs)) cs Hc 0)
    as [l [El [Hlen Hnth]]].
  rewrite El. split; [exact Hlen|]. exact Hnth.
Qed.

End SummarizerTheorems.

Section IndexingTheorems.
Import Retriever Chunker Summarizer Indexing.

Lemma detail_doc_id (c : ChunkWithContext) :
  chunk_id c <> [] -> doc_id (metadata (detail_document c)) = MStr (chunk_id c).
Proof.
  intros Hne. unfold doc_id, detail_document. simpl. rewrite lookup_insert_eq.
  destruct (chunk_id c); [congruence|reflexivity].
Qed.

Lemma make_chunk_id_nonempty (md : meta) (l s : nat) : make_chunk_id md l s <> [].
Proof. unfold make_chunk_id. intros H. apply app_eq_nil in H as [_ H]. discriminate H. Qed.

(** X9: what [_add_to_indexes] stores for a document: the detail ids are
    pairwise distinct, the summary ids [f"{kid}_summary_{chunk_index}"]
    are pairwise distinct and there is at least one of them, there is one
    detail document per id, and the retriever's key of each stored detail
    document ([metadata.get('chunk_id')]) is the id it is stored under. *)
Theorem add_to_indexes_ids (cfg : chunker) (s : DocumentSummarizer) (call : llm)
    (kid text : pstr) (md : meta) (r : indexed) :
  add_to_indexes cfg s call kid text md = inr r ->
  List.NoDup (detail_ids r)
  /\ List.NoDup (summary_ids r) /\ summary_ids r <> []
  /\ length (summary_docs r) = length (summary_ids r)
  /\ List.map (fun d => doc_id (metadata d)) (detail_docs r) = List.map MStr (detail_ids r)
  /\ length (detail_docs r) = n_chunks r.
Proof.
  unfold add_to_indexes.
  destruct (Ingest.chunk_for_ingest cfg text md) as [e|chunks] eqn:Ec; [discriminate|].
  assert (Ech : chunks = create_hierarchical_chunks cfg text md).
  { unfold Ingest.chunk_for_ingest in Ec.
    destruct (create_hierarchical_chunks cfg text md); [discriminate|].
    injection Ec as <-. reflexivity. }
  subst chunks. intros Hr. injection Hr as <-.
  cbn [detail_ids summary_ids summary_docs detail_docs n_chunks].
  split; [|split; [|split; [|split; [|split]]]].
  - apply IdFacts.chunk_ids_nodup.
  - apply SummaryIdFacts.summary_ids_nodup.
  - intros H. apply map_eq_nil in H. exact (SummaryIdFacts.generate_nonempty s call text H).
  - unfold summary_documents. rewrite !List.length_map. reflexivity.
  - rewrite !List.map_map.
    assert (Hall : Forall (fun c => exists l s, chunk_id c = make_chunk_id md l s)
                     (create_hierarchical_chunks cfg text md)).
    { unfold create_hierarchical_chunks. apply ChunkerFacts.Forall_concat_of.
      apply ChunkerFacts.Forall_enum_map. intros l large.
      apply ChunkerFacts.Forall_enum_map. intros s' small. exists l, s'. reflexivity. }
    rewrite List.Forall_forall in Hall.
    apply map_ext_in. intros c Hc. destruct (Hall c Hc) as [l [s' E]].
    apply detail_doc_id. rewrite E. apply make_chunk_id_nonempty.
  - apply List.length_map.
Qed.

End IndexingTheorems.

Section SentenceTheorems.
Import Chunker.

(** X10: [_split_by_sentences] loses and adds nothing (the pieces join
    back to the text), never yields an empty piece, and every piece is
    either at most [chunk_size] code points long or a single sentence of
    the text (a [re.split] piece with its terminator re-attached) that
    alone exceeds the size. *)
Theorem split_by_sentences_pieces (text : pstr) (size : Z) :
  List.concat (split_by_sentences text size) = text
  /\ forall c, In c (split_by_sentences text size) ->
     c <> [] /\ (zlen c <= size \/ In c (pair_up (re_split_terms text))).
Proof.
  split; [apply ChunkerFacts.split_by_sentences_concat|].
  set (sents := pair_up (re_split_terms text)).
  set (Qc := fun c => zlen c <= size \/ In c sents).
  set (I := fun (st : list pstr * pstr) =>
              (forall c, In c (fst st) -> c <> [] /\ Qc c) /\ (snd st = [] \/ Qc (snd st))).
  assert (Hf : I (List.fold_left (sentence_step size) sents ([], []))).
  { apply RetrieveFacts.fold_left_inv; [|split; [intros c []|left; reflexivity]].
    intros [chunks buf] sent Hs [Hc Hb]. unfold sentence_step.
    destruct (zlen buf + zlen sent <=? size) eqn:E.
    - split; [exact Hc|]. right. simpl. unfold Qc. left. unfold zlen in *. rewrite List.length_app.
      apply Z.leb_le in E. lia.
    - split; [|right; right; exact Hs]. simpl.
      destruct buf as [|b0 bs]; [exact Hc|].
      intros c Hin. apply in_app_or in Hin as [Hin|[<-|[]]]; [exact (Hc c Hin)|].
      split; [discriminate|]. destruct Hb as [Hb|Hb]; [discriminate Hb|exact Hb]. }
  unfold split_by_sentences. fold sents.
  destruct (List.fold_left (sentence_step size) sents ([], [])) as [chunks buf].
  destruct Hf as [Hc Hb]. simpl in Hc, Hb.
  destruct buf as [|b0 bs]; [exact Hc|].
  intros c Hin. apply in_app_or in Hin as [Hin|[<-|[]]]; [exact (Hc c Hin)|].
  split; [discriminate|]. destruct Hb as [Hb|Hb]; [discriminate Hb|exact Hb].
Qed.

End SentenceTheorems.

(* ================================================================== *)
(** * Prompts and routing *)

Module PromptFacts.
Import Chat Prompts.

Lemma last6_app {A : Type} (old h : list A) : (6 <= length h)%nat -> last6 (old ++ h) = last6 h.
Proof.
  intros H. unfold last6. rewrite List.length_app, skipn_app.
  rewrite skipn_all2 by lia. simpl. f_equal. lia.
Qed.

Lemma history_text_app (old h : list hist_msg) :
  (6 <= length h)%nat -> history_text (old ++ h) = history_text h.
Proof.
  intros H. unfold history_text. rewrite last6_app by exact H.
  destruct h as [|x h]; [simpl in H; lia|]. destruct old; reflexivity.
Qed.

Lemma join_infix (sep x : pstr) (l : list pstr) :
  In x l -> exists pre post, join sep l = pre ++ x ++ post.
Proof.
  destruct l as [|y l]; [intros []|]. simpl. intros [<-|Hx].
  - exists [], (List.concat (List.map (fun y => sep ++ y) l)). reflexivity.
  - apply in_split in Hx as [l1 [l2 ->]].
    rewrite List.map_app, List.concat_app. simpl.
    exists (y ++ List.concat (List.map (fun y => sep ++ y) l1) ++ sep),
           (List.concat (List.map (fun y => sep ++ y) l2)).
    rewrite <- !app_assoc. reflexivity.
Qed.

Lemma nth_error_enum_map {A B : Type} (f : nat -> A -> B) (j : nat) (l : list A) (i : nat) :
  nth_error (Chunker.enum_map f j l) i = option_map (f (j + i)%nat) (nth_error l i).
Proof.
  revert j i. induction l as [|x l IH]; intros j [|i]; simpl; try reflexivity.
  - rewrite Nat.add_0_r. reflexivity.
  - rewrite IH. f_equal. f_equal. lia.
Qed.

End PromptFacts.

Section PromptTheorems.
Import Chat Prompts.

(** X11: [_build_prompts] reads only the last six history messages: any
    older messages placed before six or more recent ones leave both the
    system prompt and the user prompt unchanged. *)
Theorem build_prompts_last_six (message : pstr) (old history : list hist_msg)
    (sources : list SourceItem) :
  (6 <= length history)%nat ->
  build_prompts message (old ++ history) sources = build_prompts message history sources.
Proof.
  intros H. unfold build_prompts. rewrite PromptFacts.history_text_app by exact H. reflexivity.
Qed.

(** X12: with at least one source, [_build_prompts] picks
    [SYSTEM_PROMPT_WITH_SOURCES], the user prompt contains the block
    ["[资料{i+1}] 来源：{name}\n{content}"] of every source [i] (so the
    citation numbers [_filter_used_sources] reads are the 1-based positions
    in [sources]), and it ends with the question and the closing
    instruction. *)
Theorem build_prompts_with_sources (message : pstr) (history : list hist_msg)
    (sources : list SourceItem) :
  sources <> [] ->
  let '(sys, user) := build_prompts message history sources in
  sys = SYSTEM_PROMPT_WITH_SOURCES
  /\ (forall i src, nth_error sources i = Some src ->
        exists pre post, user = pre ++ source_block i src ++ post)
  /\ exists pre, user = pre ++ question_header ++ [Chunker.nl] ++ message
                        ++ [Chunker.nl; Chunker.nl] ++ answer_request.
Proof.
  intros Hne. unfold build_prompts.
  destruct sources as [|s0 ss]; [congruence|].
  set (ctx := join part_sep (Chunker.enum_map source_block 0 (s0 :: ss))).
  set (hp := match history_text history with [] => [] | _ => _ end).
  split; [reflexivity|]. split.
  - intros i src E.
    assert (Hin : In (source_block i src) (Chunker.enum_map source_block 0 (s0 :: ss))).
    { apply nth_error_In with (n := i). rewrite PromptFacts.nth_error_enum_map, E. reflexivity. }
    destruct (PromptFacts.join_infix part_sep _ _ Hin) as [pre [post Ej]].
    exists (kb_header ++ [Chunker.nl] ++ pre).
    exists (post ++ [Chunker.nl; Chunker.nl] ++ hp ++ question_header ++ [Chunker.nl] ++ message
            ++ [Chunker.nl; Chunker.nl] ++ answer_request).
    fold ctx in Ej. rewrite Ej. rewrite <- !app_assoc. reflexivity.
  - exists (kb_header ++ [Chunker.nl] ++ ctx ++ [Chunker.nl; Chunker.nl] ++ hp).
    rewrite <- !app_assoc. reflexivity.
Qed.

End PromptTheorems.

Module RouteFacts.
Import Retriever Reranker Chat.

Lemma retrieve_length (v : view) (ids : list pstr) (it : IndexType) (top_k : Z) (vw bw : Q) :
  1 <= top_k -> (length (retrieve v ids it top_k vw bw) <= Z.to_nat top_k)%nat.
Proof.
  intros Hk. destruct it; simpl.
  - unfold retrieve_from_detail.
    pose proof (DetailFacts.dedup_loop_length top_k (sort_desc (fused v ids top_k vw bw)) [] 0) as H.
    assert (Hk0 : 0 < top_k) by lia. specialize (H Hk0). lia.
  - unfold retrieve_from_summary. destruct (existsb _ _); [simpl; lia|].
    rewrite List.length_map. apply RerankMoreFacts.length_take_py_pos, Hk.
Qed.

Lemma build_sources_length (it : IndexType) (ul : bool) (l : list (LCDocument * Q)) :
  forall seen, (length (build_sources it ul seen l) <= length l)%nat.
Proof.
  induction l as [|[d s] l IH]; intros seen; simpl; [lia|].
  destruct (existsb _ seen); simpl; [specialize (IH seen); lia|].
  match goal with |- context [build_sources it ul ?sn l] => specialize (IH sn) end.
  lia.
Qed.

Lemma filter_length {A : Type} (f : A -> bool) (l : list A) :
  (length (List.filter f l) <= length l)%nat.
Proof. induction l as [|a l IH]; simpl; [lia|]. destruct (f a); simpl; lia. Qed.

End RouteFacts.

Section RouteTheorems.
Import Retriever Reranker Chat Router.

(** X13: whatever the routing LLM does (raises, answers with any
    [index_type], or answers unparsably), [route] returns a consistent
    triple, [(DETAIL, DETAIL, top_k 5)] or [(GLOBAL, SUMMARY, top_k 3)];
    with those parameters [chat] retrieves at most [top_k] candidates,
    hands at most [top_k] of them to the reranker, and, when the reranker
    is not called, returns at most [top_k] sources. *)
Theorem routed_chat_bounded (upper : pstr -> pstr) (o : route_outcome) (v : view)
    (rr : DashScopeReranker) (api : api_outcome) (kids : list pstr) :
  let '(qt, it, params) := route upper o in
  ((qt = QT_DETAIL /\ it = DETAIL /\ rp_top_k params = 5)
   \/ (qt = QT_GLOBAL /\ it = SUMMARY /\ rp_top_k params = 3))
  /\ (length (retrieve v kids it (rp_top_k params) (rp_vector_weight params)
                (rp_bm25_weight params)) <= Z.to_nat (rp_top_k params))%nat
  /\ (forall l, rerank_input (chat_retrieval v rr api kids it params) = Some l ->
        (length l <= Z.to_nat (rp_top_k params))%nat)
  /\ (rerank_input (chat_retrieval v rr api kids it params) = None ->
        (length (final_sources (chat_retrieval v rr api kids it params))
         <= Z.to_nat (rp_top_k params))%nat).
Proof.
  assert (Hc : forall qt it params,
    ((qt = QT_DETAIL /\ it = DETAIL /\ rp_top_k params = 5)
     \/ (qt = QT_GLOBAL /\ it = SUMMARY /\ rp_top_k params = 3)) ->
    ((qt = QT_DETAIL /\ it = DETAIL /\ rp_top_k params = 5)
     \/ (qt = QT_GLOBAL /\ it = SUMMARY /\ rp_top_k params = 3))
    /\ (length (retrieve v kids it (rp_top_k params) (rp_vector_weight params)
                  (rp_bm25_weight params)) <= Z.to_nat (rp_top_k params))%nat
    /\ (forall l, rerank_input (chat_retrieval v rr api kids it params) = Some l ->
          (length l <= Z.to_nat (rp_top_k params))%nat)
    /\ (rerank_input (chat_retrieval v rr api kids it params) = None ->
          (length (final_sources (chat_retrieval v rr api kids it params))
           <= Z.to_nat (rp_top_k params))%nat)).
  { intros qt it params H.
    assert (Hk : 1 <= rp_top_k params) by (destruct H as [(_&_&->)|(_&_&->)]; lia).
    pose proof (RouteFacts.retrieve_length v kids it (rp_top_k params) (rp_vector_weight params)
                  (rp_bm25_weight params) Hk) as Hr.
    split; [exact H|]. split; [exact Hr|].
    unfold chat_retrieval. destruct kids as [|k0 ks].
    - split; [intros l E; discriminate E|intros _; simpl; lia].
    - set (raw := retrieve v (k0 :: ks) it (rp_top_k params) (rp_vector_weight params)
                    (rp_bm25_weight params)) in *.
      set (sources := List.filter _ (build_sources it (rp_use_large_chunk params) [] raw)).
      destruct (nonempty sources && nonempty raw); simpl.
      + split; [|intros E; discriminate E].
        intros l [= <-]. pose proof (RouteFacts.filter_length
          (fun p => Qle_bool RELEVANCE_THRESHOLD (snd p)) raw). lia.
      + split; [intros l E; discriminate E|]. intros _.
        pose proof (RouteFacts.filter_length (fun s => Qle_bool RELEVANCE_THRESHOLD (score s))
                      (build_sources it (rp_use_large_chunk params) [] raw)).
        pose proof (RouteFacts.build_sources_length it (rp_use_large_chunk params) raw []).
        unfold sources. lia. }
  destruct (route upper o) as [[qt it] params] eqn:E. apply Hc.
  unfold route in E.
  destruct o as [|itx|txt];
    repeat match type of E with context [if ?b then _ else _] => destruct b end;
    unfold choice_detail, choice_global in E; injection E as <- <- <-;
    [left|left|right|left|right|left]; split; reflexivity || (split; reflexivity).
Qed.

End RouteTheorems.

(* ================================================================== *)
(** * Witnesses of the further properties *)

Section FurtherWitnesses.
Import Retriever Reranker Chat Prompts Indexing.

Lemma retrieve_scoped_to_ids_witness :
  let md := <["knowledge_id" := MStr (of_string "a")]> (∅ : meta) in
  let md' := <["knowledge_id" := MStr (of_string "b")]> (∅ : meta) in
  let v := {| detail_index := [({| page_content := of_string "x"; metadata := md |}, 0%Q);
                               ({| page_content := of_string "y"; metadata := md' |}, 0%Q)];
              summary_index := []; has_bm25 := false; bm25_index := None |} in
  [of_string "a"] <> []
  /\ exists p, In p (retrieve v [of_string "a"] DETAIL 2 1 0)
     /\ kid_in (metadata (fst p) !! "knowledge_id") [of_string "a"] = true.
Proof.
  intros md md' v. split; [discriminate|].
  destruct (retrieve v [of_string "a"] DETAIL 2 1 0) as [|p0 rest] eqn:E;
    [vm_compute in E; discriminate E|].
  exists p0. split; [left; reflexivity|].
  apply (retrieve_scoped_to_ids v [of_string "a"] DETAIL 2 1 0); [discriminate|].
  rewrite E. left. reflexivity.
Defined.

Lemma retrieve_score_bounds_witness :
  let md := <["knowledge_id" := MStr (of_string "a")]> (∅ : meta) in
  let v := {| detail_index := [({| page_content := of_string "x"; metadata := md |}, (1 # 2)%Q)];
              summary_index := [({| page_content := of_string "s"; metadata := md |}, (1 # 4)%Q)];
              has_bm25 := false; bm25_index := None |} in
  (0 <= 7 # 10)%Q /\ (0 <= 3 # 10)%Q
  /\ exists p, In p (retrieve v [] DETAIL 5 (7 # 10) (3 # 10))
     /\ (0 <= snd p)%Q /\ (snd p <= (7 # 10) + (3 # 10))%Q.
Proof.
  intros md v. split; [lra|]. split; [lra|].
  destruct (retrieve v [] DETAIL 5 (7 # 10) (3 # 10)) as [|p0 rest] eqn:E;
    [vm_compute in E; discriminate E|].
  exists p0. split; [left; reflexivity|].
  apply (retrieve_score_bounds v [] DETAIL 5 (7 # 10) (3 # 10)); [lra|lra| | |].
  - intros p Hp. destruct Hp as [<-|[]]. simpl. lra.
  - intros p Hp. destruct Hp as [<-|[]]. simpl. lra.
  - rewrite E. left. reflexivity.
Defined.

Lemma rerank_flag_matches_threshold_witness :
  let d := {| page_content := of_string "x"; metadata := ∅ |} in
  exists x, In x (rerank (default_reranker false) ApiRaises [(d, (1 # 10)%Q)] None)
  /\ is_relevant x = Qle_bool (threshold (default_reranker false)) (rerank_score x).
Proof.
  intros d.
  destruct (rerank (default_reranker false) ApiRaises [(d, (1 # 10)%Q)] None) as [|x0 rest] eqn:E;
    [vm_compute in E; discriminate E|].
  exists x0. split; [left; reflexivity|].
  apply (rerank_flag_matches_threshold (default_reranker false) ApiRaises [(d, (1 # 10)%Q)] None).
  rewrite E. left. reflexivity.
Defined.

Lemma rerank_success_sorted_bounded_witness :
  let d1 := {| page_content := of_string "x"; metadata := ∅ |} in
  let d2 := {| page_content := of_string "y"; metadata := ∅ |} in
  let docs := [(d1, (1 # 2)%Q); (d2, (1 # 3)%Q)] in
  let items := [(0, (5 # 10)%Q); (1, (9 # 10)%Q)] in
  api_key_set (default_reranker true) = true
  /\ collect_results (threshold (default_reranker true)) docs items <> None
  /\ StronglySorted (fun a b => (rerank_score b <= rerank_score a)%Q)
       (rerank (default_reranker true) (ApiResponse 200 items) docs (Some 1))
  /\ (length (rerank (default_reranker true) (ApiResponse 200 items) docs (Some 1%Z)) <= 1)%nat.
Proof.
  intros d1 d2 docs items. split; [reflexivity|].
  destruct (collect_results (threshold (default_reranker true)) docs items) as [res|] eqn:E;
    [|vm_compute in E; discriminate E].
  split; [discriminate|].
  destruct (rerank_success_sorted_bounded (default_reranker true) 200 items docs (Some 1) res
              eq_refl eq_refl E) as [H1 H2].
  split; [exact H1|]. exact (H2 1 eq_refl (Z.le_refl 1)).
Defined.

Lemma rerank_simple_fallback_identity_witness :
  let d := {| page_content := of_string "x"; metadata := ∅ |} in
  api_key_set (default_reranker true) = true
  /\ RerankSimple.rerank_simple (default_reranker true) (ApiResponse 500 []) [(d, (1 # 10)%Q)] None
     = [(d, (1 # 10)%Q)].
Proof.
  intros d. split; [reflexivity|].
  apply rerank_simple_fallback_identity. right. right. exists 500, []. split; [reflexivity|discriminate].
Defined.

Lemma generate_chunk_summaries_success_witness :
  let s := Summarizer.default_summarizer in
  let call : Summarizer.llm := fun c _ _ => Some (of_string " Sum. ") in
  let content := of_string "Hello world." in
  (forall c, In c (Summarizer.split_content s content) -> forall n t, call c n t <> None)
  /\ length (Summarizer.generate_chunk_summaries s call content)
     = length (Summarizer.split_content s content)
  /\ nth_error (Summarizer.generate_chunk_summaries s call content) 0
     = Some {| Summarizer.summary := of_string "Sum."; Summarizer.chunk_index := 0;
               Summarizer.original_chunk := of_string "Hello world." |}.
Proof.
  intros s call content.
  assert (Hc : forall c, In c (Summarizer.split_content s content) -> forall n t, call c n t <> None).
  { intros c _ n t. discriminate. }
  split; [exact Hc|].
  destruct (generate_chunk_summaries_success s call content Hc) as [Hlen Hnth].
  split; [exact Hlen|].
  assert (E : nth_error (Summarizer.split_content s content) 0 = Some (of_string "Hello world."))
    by (vm_compute; reflexivity).
  destruct (Hnth 0%nat _ E) as [reply [Er En]]. rewrite En.
  unfold call in Er. injection Er as <-. vm_compute. reflexivity.
Defined.

Lemma add_to_indexes_ids_witness :
  let md := <["knowledge_id" := MStr (of_string "k_1")]> (∅ : meta) in
  let call : Summarizer.llm := fun c _ _ => Some c in
  exists r, add_to_indexes Chunker.default_chunker Summarizer.default_summarizer call
              (of_string "k_1") (of_string "Hello world.") md = inr r
  /\ List.NoDup (detail_ids r) /\ List.NoDup (summary_ids r) /\ summary_ids r <> []
  /\ List.map (fun d => doc_id (metadata d)) (detail_docs r) = List.map MStr (detail_ids r).
Proof.
  intros md call.
  destruct (add_to_indexes Chunker.default_chunker Summarizer.default_summarizer call
              (of_string "k_1") (of_string "Hello world.") md) as [e|r] eqn:E;
    [vm_compute in E; discriminate E|].
  exists r. split; [reflexivity|].
  destruct (add_to_indexes_ids _ _ _ _ _ _ r E) as (H1 & H2 & H3 & _ & H5 & _).
  split; [exact H1|]. split; [exact H2|]. split; [exact H3|exact H5].
Defined.

Lemma build_prompts_last_six_witness :
  let m r := {| h_role := Some (of_string r); h_content := Some (of_string "hi") |} in
  let history := [m "user"; m "assistant"; m "user"; m "assistant"; m "user"; m "assistant"] in
  (6 <= length history)%nat
  /\ build_prompts (of_string "q") ([m "user"] ++ history) [] = build_prompts (of_string "q") history [].
Proof.
  intros m history. split; [simpl; lia|].
  apply build_prompts_last_six. simpl. lia.
Defined.

Lemma build_prompts_with_sources_witness :
  let src := {| name := of_string "doc"; content := of_string "text"; course_name := None;
                score := 1%Q |} in
  [src] <> []
  /\ fst (build_prompts (of_string "q") [] [src]) = SYSTEM_PROMPT_WITH_SOURCES
  /\ exists pre post, snd (build_prompts (of_string "q") [] [src])
                      = pre ++ source_block 0 src ++ post.
Proof.
  intros src. split; [discriminate|].
  pose proof (build_prompts_with_sources (of_string "q") [] [src]) as H.
  destruct (build_prompts (of_string "q") [] [src]) as [sys user].
  destruct (H ltac:(discriminate)) as (Hs & Hb & _).
  split; [exact Hs|]. exact (Hb 0%nat src eq_refl).
Defined.

End FurtherWitnesses.
